(** * The Things Network: ADR control loop, gateway packet parser, handler
      start-up

    A shallow embedding of three source files of the repository:

    - the network server's ADR handlers ([maxSNR], [lossPercentage],
      [handleUplinkADR], [handleDownlinkADR]), package [networkserver];
    - the Semtech packet envelope parser ([Parse]), package [protocol];
    - the start-up of the handler component ([NewRedisHandler], [WithMQTT],
      [WithAMQP], [Init], [associateBroker]), package [handler], as the
      sequence of calls it makes outside its file.

    Go values are modelled as follows.  [uint32] and [int] are integers of [Z]
    with their wrap-around written out; [float32] and [float64] are the
    IEEE 754 values of [SpecFloat] with its correctly rounded operations;
    slices are lists; a function that can return early, fail with an [error]
    or panic runs in a small state monad whose result says which of the three
    happened. *)

From Stdlib Require Import ZArith List String Bool Lia Floats.SpecFloat.
From Stdlib Require Import Init.Byte.
Import ListNotations.
Open Scope Z_scope.

(** ** Go primitives *)

Module Go.

(** Unsigned and signed machine integers: the value kept after an operation. *)
Definition uint8 (z : Z) : Z := z mod 2 ^ 8.
Definition uint32 (z : Z) : Z := z mod 2 ^ 32.
Definition min_int : Z := - 2 ^ 63.
Definition max_int : Z := 2 ^ 63 - 1.
Definition int (z : Z) : Z := (z + 2 ^ 63) mod 2 ^ 64 - 2 ^ 63.

(** A Go [error] value.  [band.ErrADRUnavailable] is the one sentinel the
    handlers compare against; every other error is opaque to them. *)
Inductive error : Type :=
| ErrADRUnavailable
| ErrOther (msg : string).

Definition is_ErrADRUnavailable (e : option error) : bool :=
  match e with
  | Some ErrADRUnavailable => true
  | _ => false
  end.

(** Running a function body: it falls through to the next statement, executes
    a [return] (with the error it returns), or panics. *)
Inductive result (S A : Type) : Type :=
| Next (a : A) (s : S)
| Return (e : option error) (s : S)
| Panic.
Arguments Next {S A} a s.
Arguments Return {S A} e s.
Arguments Panic {S A}.

Definition M (S A : Type) : Type := S -> result S A.

Definition ret {S A} (a : A) : M S A := fun s => Next a s.
Definition bind {S A B} (m : M S A) (k : A -> M S B) : M S B :=
  fun s =>
    match m s with
    | Next a s' => k a s'
    | Return e s' => Return e s'
    | Panic => Panic
    end.
Definition get {S} : M S S := fun s => Next s s.
Definition put {S} (s : S) : M S unit := fun _ => Next tt s.
Definition return_ {S A} (e : option error) : M S A := fun s => Return e s.
Definition panic {S A} : M S A := fun _ => Panic.
Definition when {S} (b : bool) (m : M S unit) : M S unit :=
  if b then m else ret tt.

(** What the caller of a function sees. *)
Inductive outcome (S : Type) : Type :=
| Returned (e : option error) (s : S)
| Panicked.
Arguments Returned {S} e s.
Arguments Panicked {S}.

(** A body whose last statement is [return nil]. *)
Definition call {S} (body : M S unit) (s : S) : outcome S :=
  match body s with
  | Next _ s' => Returned None s'
  | Return e s' => Returned e s'
  | Panic => Panicked
  end.

End Go.

Declare Scope go_scope.
Delimit Scope go_scope with go.
Notation "x <- m ;; k" := (Go.bind m (fun x => k))
  (at level 61, m at next level, right associativity) : go_scope.
Notation "m ;; k" := (Go.bind m (fun _ => k))
  (at level 61, right associativity) : go_scope.

(** ** Package [protocol]: the packet envelope parser *)

Module Protocol.

Section WithPayload.

(** [Payload] and [decodePayload] are declared in another file of the package;
    [Parse] only passes the tail of the datagram to the decoder and stores
    what it returns. *)
Variable Payload : Type.
Variable decodePayload : list byte -> option Go.error * option Payload.

Record Packet : Type := {
  Version : byte;
  Token : list byte;
  Identifier : byte;
  GatewayId : option (list byte);
  Payload_ : option Payload
}.

(** Available packet commands. *)
Definition PUSH_DATA : byte := x00.
Definition PUSH_ACK : byte := x01.
Definition PULL_DATA : byte := x02.
Definition PULL_RESP : byte := x03.
Definition PULL_ACK : byte := x04.

(** What a call of [Parse] does: it returns its pair, or panics. *)
Inductive parsed : Type :=
| Parsed (err : option Go.error) (packet : option Packet)
| IndexOutOfRange.

(** [raw[i]]: [None] stands for the run-time panic of an index out of range. *)
Definition index (raw : list byte) (i : nat) : option byte := nth_error raw i.

(** [raw[lo:hi]], for a slice whose capacity is its length. *)
Definition slice (raw : list byte) (lo hi : nat) : option (list byte) :=
  if (Nat.leb lo hi && Nat.leb hi (List.length raw))%bool
  then Some (firstn (hi - lo) (skipn lo raw))
  else None.

Definition byte_eqb (a b : byte) : bool := N.eqb (Byte.to_N a) (Byte.to_N b).
Definition byte_gtb (a b : byte) : bool := N.ltb (Byte.to_N b) (Byte.to_N a).

Definition Parse (raw : list byte) : parsed :=
  let size := List.length raw in
  if Nat.ltb size 3 then
    Parsed (Some (Go.ErrOther "Invalid raw data format")) None
  else
    match index raw 0, slice raw 1 3, index raw 3 with
    | Some version, Some token, Some identifier =>
        if negb (byte_eqb version x01) then
          Parsed (Some (Go.ErrOther "Unreckognized protocol version")) None
        else if byte_gtb identifier PULL_ACK then
          Parsed (Some (Go.ErrOther "Unreckognized protocol identifier")) None
        else
          match
            (if (Nat.leb 12 size && byte_eqb identifier PULL_DATA)%bool
             then match slice raw 4 12 with
                  | Some g => Some (Some g)
                  | None => None
                  end
             else Some None)
          with
          | None => IndexOutOfRange
          | Some gatewayId =>
              if ((Nat.ltb 4 size && byte_eqb identifier PUSH_DATA)
                  || byte_eqb identifier PULL_RESP)%bool
              then
                match slice raw 4 size with
                | Some rest =>
                    let '(err, payload) := decodePayload rest in
                    Parsed err (Some {| Version := version; Token := token;
                                        Identifier := identifier;
                                        GatewayId := gatewayId;
                                        Payload_ := payload |})
                | None => IndexOutOfRange
                end
              else
                Parsed None (Some {| Version := version; Token := token;
                                     Identifier := identifier;
                                     GatewayId := gatewayId;
                                     Payload_ := None |})
          end
    | _, _, _ => IndexOutOfRange
    end.

End WithPayload.

Arguments Parsed {Payload} err packet.
Arguments IndexOutOfRange {Payload}.
Arguments Parse {Payload} decodePayload raw.

(** *** Sample datagrams *)

(** A decoder that keeps the bytes it is given. *)
Definition echo_decoder (rest : list byte)
  : option Go.error * option (list byte) :=
  (None, Some rest).

(** A PUSH_DATA with two bytes of payload, and the packet parsed from it. *)
Definition push_data_datagram : list byte :=
  [x01; xaa; xbb; x00; x7b; x7d].
Definition push_data_packet : Packet (list byte) :=
  {| Version := x01; Token := [xaa; xbb]; Identifier := PUSH_DATA;
     GatewayId := None; Payload_ := Some [x7b; x7d] |}.

(** A PULL_DATA with its gateway identifier. *)
Definition pull_data_datagram : list byte :=
  [x01; xaa; xbb; x02; x01; x02; x03; x04; x05; x06; x07; x08].
Definition pull_data_packet : Packet (list byte) :=
  {| Version := x01; Token := [xaa; xbb]; Identifier := PULL_DATA;
     GatewayId := Some [x01; x02; x03; x04; x05; x06; x07; x08];
     Payload_ := None |}.


(** A datagram of protocol version 2. *)
Definition bad_version_datagram : list byte := [x02; xaa; xbb; x00].

End Protocol.

(** ** IEEE 754 arithmetic as Go performs it *)

Module Float.

(** [float32]: 24 bits of precision; [float64]: 53 bits. *)
Definition prec32 : Z := 24.
Definition emax32 : Z := 128.
Definition prec64 : Z := 53.
Definition emax64 : Z := 1024.

Definition float32 : Type := spec_float.
Definition float64 : Type := spec_float.

(** Conversion of an integer, rounded to nearest even. *)
Definition float32_of_int (z : Z) : float32 :=
  binary_normalize prec32 emax32 z 0 false.
Definition float64_of_int (z : Z) : float64 :=
  binary_normalize prec64 emax64 z 0 false.

(** [x > y] on [float32]: false as soon as one side is NaN. *)
Definition gt32 (x y : float32) : bool := SFltb y x.

(** Each operation is rounded on its own (no fused multiply-add). *)
Definition div64 : float64 -> float64 -> float64 := SFdiv prec64 emax64.
Definition mul64 : float64 -> float64 -> float64 := SFmul prec64 emax64.
Definition add64 : float64 -> float64 -> float64 := SFadd prec64 emax64.

(** The constants [100] and [.5] as [float64]; [.5] is [2^52 * 2^-53],
    written with its 53-bit mantissa. *)
Definition c100 : float64 := float64_of_int 100.
Definition chalf : float64 := S754_finite false 4503599627370496 (-53).

(** The integer part of a finite value, rounded towards minus infinity. *)
Definition floorZ (s : bool) (m : positive) (e : Z) : Z :=
  let v := if s then Z.neg m else Z.pos m in
  if 0 <=? e then v * 2 ^ e else v / 2 ^ (- e).

(** [math.Floor]: zeros, infinities and NaN are returned as they are; a value
    that has no fractional bit is its own floor. *)
Definition Floor (x : float64) : float64 :=
  match x with
  | S754_finite s m e =>
      if 0 <=? e then x else float64_of_int (floorZ s m e)
  | _ => x
  end.

(** [int(x)] for a [float64]: the fractional part is discarded.  The result
    is defined when the value fits an [int]; otherwise (and for NaN and the
    infinities) the language leaves it to the implementation, here the
    function [undef]. *)
Definition float64_to_int (x : float64) : option Z :=
  match x with
  | S754_zero _ => Some 0
  | S754_finite s m e =>
      let v := if s then Z.neg m else Z.pos m in
      let t := if 0 <=? e then v * 2 ^ e else Z.quot v (2 ^ (- e)) in
      if (Go.min_int <=? t) && (t <=? Go.max_int) then Some t else None
  | _ => None
  end.

Definition int_of_float64 (undef : float64 -> Z) (x : float64) : Z :=
  match float64_to_int x with
  | Some t => t
  | None => undef x
  end.

End Float.

(** ** Package [networkserver]: the ADR handlers *)

Module ADR.

Import Go Float.
Local Open Scope go_scope.

(** *** Data *)

(** One uplink sample of the frame history ([device.Frame]). *)
Record Frame : Type := {
  FCnt : Z;             (* uint32 *)
  SNR : float32;
  GatewayCount : Z      (* uint32 *)
}.

(** The window of samples the downlink computer works on.  The constant is
    declared in package [device]; 20 is the window of the specification's
    worked example. *)
Definition FramesHistorySize : nat := 20.

(** Modelled from the spec: the Frame History Store of one device (the
    [device.FrameHistory] interface and its implementation are outside the
    given sources).  [push] prepends the sample as newest and truncates to the
    window; [get] returns the snapshot; [clear] discards all samples; each of
    them fails, changing nothing, when the backing store is unavailable for
    it. *)
Record FrameHistory : Type := {
  samples : list Frame;
  pushFails : option error;
  getFails : option error;
  clearFails : option error
}.

Definition history_Push (h : FrameHistory) (f : Frame)
  : FrameHistory * option error :=
  match pushFails h with
  | Some e => (h, Some e)
  | None =>
      ({| samples := firstn FramesHistorySize (f :: samples h);
          pushFails := pushFails h;
          getFails := getFails h;
          clearFails := clearFails h |}, None)
  end.

Definition history_Get (h : FrameHistory) : list Frame * option error :=
  match getFails h with
  | Some e => ([], Some e)
  | None => (samples h, None)
  end.

Definition history_Clear (h : FrameHistory) : FrameHistory * option error :=
  match clearFails h with
  | Some e => (h, Some e)
  | None =>
      ({| samples := [];
          pushFails := pushFails h;
          getFails := getFails h;
          clearFails := clearFails h |}, None)
  end.

(** The ADR settings kept with a device ([dev.ADR]); the numeric fields are
    Go [int]s. *)
Record ADRSettings : Type := {
  Band : string;
  Margin : Z;
  SendReq : bool;
  DataRate : string;
  TxPower : Z;
  NbTrans : Z;
  Failed : Z
}.

Record Device : Type := {
  AppEUI : Z;
  DevEUI : Z;
  ADR : ADRSettings;
  DisableFCntCheck : bool       (* dev.Options.DisableFCntCheck *)
}.

Definition with_ADR (dev : Device) (a : ADRSettings) : Device :=
  {| AppEUI := AppEUI dev; DevEUI := DevEUI dev; ADR := a;
     DisableFCntCheck := DisableFCntCheck dev |}.

Definition set_Band (v : string) (a : ADRSettings) : ADRSettings :=
  {| Band := v; Margin := Margin a; SendReq := SendReq a;
     DataRate := DataRate a; TxPower := TxPower a; NbTrans := NbTrans a;
     Failed := Failed a |}.
Definition set_Margin (v : Z) (a : ADRSettings) : ADRSettings :=
  {| Band := Band a; Margin := v; SendReq := SendReq a;
     DataRate := DataRate a; TxPower := TxPower a; NbTrans := NbTrans a;
     Failed := Failed a |}.
Definition set_SendReq (v : bool) (a : ADRSettings) : ADRSettings :=
  {| Band := Band a; Margin := Margin a; SendReq := v;
     DataRate := DataRate a; TxPower := TxPower a; NbTrans := NbTrans a;
     Failed := Failed a |}.
Definition set_DataRate (v : string) (a : ADRSettings) : ADRSettings :=
  {| Band := Band a; Margin := Margin a; SendReq := SendReq a;
     DataRate := v; TxPower := TxPower a; NbTrans := NbTrans a;
     Failed := Failed a |}.
Definition set_TxPower (v : Z) (a : ADRSettings) : ADRSettings :=
  {| Band := Band a; Margin := Margin a; SendReq := SendReq a;
     DataRate := DataRate a; TxPower := v; NbTrans := NbTrans a;
     Failed := Failed a |}.
Definition set_NbTrans (v : Z) (a : ADRSettings) : ADRSettings :=
  {| Band := Band a; Margin := Margin a; SendReq := SendReq a;
     DataRate := DataRate a; TxPower := TxPower a; NbTrans := v;
     Failed := Failed a |}.

(** The device store of the network server, as the handlers use it:
    [n.devices.Frames(appEUI, devEUI)] returns a history handle (possibly
    nil) and an error. *)
Record networkServer : Type := {
  devices_Frames : Z -> Z -> option FrameHistory * option error;
  logged : list error           (* n.Ctx.WithError(err).Error(...) *)
}.

(** The store after the history of one device has been written back. *)
Definition store_history (n : networkServer) (app dev : Z) (h : FrameHistory)
  : networkServer :=
  {| devices_Frames := fun a d =>
       if (a =? app) && (d =? dev)
       then (Some h, snd (devices_Frames n a d))
       else devices_Frames n a d;
     logged := logged n |}.

Definition log_error (n : networkServer) (e : error) : networkServer :=
  {| devices_Frames := devices_Frames n; logged := logged n ++ [e] |}.

(** A channel of a frequency plan, with the data rate indices it allows. *)
Record Channel : Type := { DataRates : list Z }.

(** The frequency plan capability of package [band], taken as given. *)
Record FrequencyPlan : Type := {
  DefaultTXPower : Z;
  fp_ADRSettings : string -> Z -> float32 -> float32
                   -> string * Z * option error;
  GetDataRateIndexFor : string -> Z * option error;
  GetTxPowerIndexFor : Z -> Z * option error;
  UplinkChannels : list Channel
}.

(** A MAC command of a downlink ([pb_lorawan.MACCommand]). *)
Record MACCommand : Type := {
  CID : Z;                      (* uint32 *)
  Payload : list byte
}.

(** [lorawan.LinkADRReq], the command identifier 0x03 of the LoRaWAN
    library. *)
Definition LinkADRReq : Z := 3.

Record Redundancy : Type := { ChMaskCntl : Z; NbRep : Z }.

(** [lorawan.LinkADRReqPayload]; [ChMask] is an array of 16 booleans. *)
Record LinkADRReqPayload : Type := {
  lp_DataRate : Z;              (* uint8 *)
  lp_TXPower : Z;               (* uint8 *)
  lp_ChMask : list bool;
  lp_Redundancy : Redundancy
}.

Definition ChMaskSize : nat := 16.

(** The MAC payload of the downlink under construction. *)
Record DownlinkMessage : Type := { FOpts : list MACCommand }.

(** Reception metadata of one gateway. *)
Record RxMetadata : Type := { rx_SNR : float32 }.

(** What the uplink handler reads from the deduplicated uplink and writes to
    its response template. *)
Record UplinkMessage : Type := {
  up_ADR : bool;                (* MACPayload.ADR *)
  up_ADRAckReq : bool;          (* MACPayload.ADRAckReq *)
  up_FCnt : Z;                  (* MACPayload.FCnt, uint32 *)
  GatewayMetadata : list RxMetadata;
  up_FrequencyPlan : string;    (* ...GetFrequencyPlan().String() *)
  up_DataRate : string;         (* ...GetProtocolMetadata()...GetDataRate() *)
  response_Ack : bool           (* ResponseTemplate ... MACPayload.Ack *)
}.

Definition set_response_Ack (v : bool) (m : UplinkMessage) : UplinkMessage :=
  {| up_ADR := up_ADR m; up_ADRAckReq := up_ADRAckReq m; up_FCnt := up_FCnt m;
     GatewayMetadata := GatewayMetadata m;
     up_FrequencyPlan := up_FrequencyPlan m; up_DataRate := up_DataRate m;
     response_Ack := v |}.

(** What the handlers call outside the given sources. *)
Record Externals : Type := {
  band_Get : string -> FrequencyPlan * option error;
  MarshalBinary : LinkADRReqPayload -> list byte * option error;
  bestSNR : list RxMetadata -> float32;
  int_undef : float64 -> Z      (* see [Float.int_of_float64] *)
}.

(** DefaultADRMargin is the default SNR margin for ADR. *)
Definition DefaultADRMargin : Z := 15.

(** *** [maxSNR] and [lossPercentage] *)

Definition maxSNR (frames : list Frame) : float32 :=
  match frames with
  | [] => S754_zero false
  | first :: _ =>
      fold_left (fun max frame => if gt32 (SNR frame) max then SNR frame else max)
                frames (SNR first)
  end.

Definition lossPercentage (undef : float64 -> Z) (frames : list Frame) : Z :=
  match frames with
  | [] => 0
  | newest :: _ =>
      let sentPackets := uint32 (FCnt newest - FCnt (last frames newest) + 1) in
      let loss := uint32 (sentPackets - uint32 (Z.of_nat (List.length frames))) in
      int_of_float64 undef
        (Floor (add64 (mul64 (div64 (float64_of_int loss)
                                    (float64_of_int sentPackets))
                             c100)
                      chalf))
  end.

(** *** [handleUplinkADR] *)

Section Handlers.

Variable ext : Externals.

(** The handler mutates the store behind [n], the response template of the
    message and the device. *)
Record UplinkState : Type := {
  u_n : networkServer;
  u_message : UplinkMessage;
  u_dev : Device
}.

Definition u_modify_ADR (f : ADRSettings -> ADRSettings) : M UplinkState unit :=
  fun s => Next tt {| u_n := u_n s; u_message := u_message s;
                      u_dev := with_ADR (u_dev s) (f (ADR (u_dev s))) |}.
Definition u_modify_message (f : UplinkMessage -> UplinkMessage)
  : M UplinkState unit :=
  fun s => Next tt {| u_n := u_n s; u_message := f (u_message s);
                      u_dev := u_dev s |}.
Definition u_modify_n (f : networkServer -> networkServer) : M UplinkState unit :=
  fun s => Next tt {| u_n := f (u_n s); u_message := u_message s;
                      u_dev := u_dev s |}.

(** A method call on the history handle: a nil handle panics; the store
    behind the handle is updated. *)
Definition u_history_call (history : option FrameHistory)
  (method : FrameHistory -> FrameHistory * option error)
  : M UplinkState (option error) :=
  match history with
  | None => panic
  | Some h =>
      s <- get;;
      let '(h', err) := method h in
      u_modify_n (fun n => store_history n (AppEUI (u_dev s)) (DevEUI (u_dev s)) h');;
      ret err
  end.

Definition handleUplinkADR_body : M UplinkState unit :=
  s <- get;;
  let message := u_message s in
  let dev := u_dev s in
  let '(history, err) := devices_Frames (u_n s) (AppEUI dev) (DevEUI dev) in
  match err with
  | Some e => return_ (Some e)
  | None =>
      if up_ADR message then
        err <- u_history_call history (fun h =>
                 history_Push h
                   {| FCnt := up_FCnt message;
                      SNR := bestSNR ext (GatewayMetadata message);
                      GatewayCount :=
                        uint32 (Z.of_nat (List.length (GatewayMetadata message))) |});;
        match err with
        | Some e => u_modify_n (fun n => log_error n e)
        | None => ret tt
        end;;
        when (String.eqb (Band (ADR dev)) EmptyString)
             (u_modify_ADR (set_Band (up_FrequencyPlan message)));;
        let dataRate := up_DataRate message in
        when (negb (String.eqb (DataRate (ADR dev)) dataRate))
             (u_modify_ADR (set_DataRate dataRate);;
              u_modify_ADR (set_SendReq true));;
        when (up_ADRAckReq message)
             (u_modify_ADR (set_SendReq true);;
              u_modify_message (set_response_Ack true))
      else
        (* Clear history and reset settings *)
        err <- u_history_call history history_Clear;;
        match err with
        | Some e => return_ (Some e)
        | None =>
            u_modify_ADR (set_SendReq false);;
            u_modify_ADR (set_DataRate EmptyString);;
            u_modify_ADR (set_TxPower 0);;
            u_modify_ADR (set_NbTrans 0)
        end
  end.

Definition handleUplinkADR (n : networkServer) (message : UplinkMessage)
  (dev : Device) : outcome UplinkState :=
  call handleUplinkADR_body {| u_n := n; u_message := message; u_dev := dev |}.

(** *** [handleDownlinkADR] *)

Record DownlinkState : Type := {
  d_message : DownlinkMessage;
  d_dev : Device
}.

Definition d_modify_ADR (f : ADRSettings -> ADRSettings) : M DownlinkState unit :=
  fun s => Next tt {| d_message := d_message s;
                      d_dev := with_ADR (d_dev s) (f (ADR (d_dev s))) |}.
Definition d_ADR : M DownlinkState ADRSettings :=
  fun s => Next (ADR (d_dev s)) s.

(** The retransmission count of lines 143 to 162, for the candidate
    [dataRate] and [txPower] and the selected window. *)
Definition nbTransFor (dev : Device) (dataRate : string) (txPower : Z)
  (frames : list Frame) : Z :=
  let nbTrans := NbTrans (ADR dev) in
  if String.eqb (DataRate (ADR dev)) dataRate
     && (TxPower (ADR dev) =? txPower)
     && negb (DisableFCntCheck dev)
  then
    let lossPercentage := lossPercentage (int_undef ext) frames in
    let nbTrans :=
      if lossPercentage <=? 5 then int (nbTrans - 1)
      else if lossPercentage <=? 10 then nbTrans
      else if lossPercentage <=? 30 then int (nbTrans + 1)
      else int (nbTrans + 2) in
    let nbTrans := if nbTrans <? 1 then 1 else nbTrans in
    if 3 <? nbTrans then 3 else nbTrans
  else nbTrans.

(** What the first part of the handler hands to the second. *)
Record Proposal : Type := {
  p_fp : FrequencyPlan;
  p_dataRate : string;
  p_txPower : Z;
  p_nbTrans : Z;
  p_drIDx : Z;
  p_powerIDx : Z
}.

(** Lines 86 to 166: the guards, the defaults, the candidate settings and the
    comparison with the stored ones.  Every [return_] is a [return] of the
    source. *)
Definition adrProposal (n : networkServer) : M DownlinkState Proposal :=
  adr <- d_ADR;;
  when (negb (SendReq adr)) (return_ None);;
  when (0 <? Failed adr) (return_ None);;
  s <- get;;
  (* the error of this call is overwritten by the next one *)
  let '(history, _) := devices_Frames n (AppEUI (d_dev s)) (DevEUI (d_dev s)) in
  frames <- match history with
            | None => panic
            | Some h =>
                let '(frames, err) := history_Get h in
                match err with
                | Some e => return_ (Some e)
                | None => ret frames
                end
            end;;
  when (Nat.ltb (List.length frames) FramesHistorySize) (return_ None);;
  let frames := firstn FramesHistorySize frames in
  (* Check settings *)
  when (String.eqb (DataRate adr) EmptyString) (return_ None);;
  when (Margin adr =? 0) (d_modify_ADR (set_Margin DefaultADRMargin));;
  when (String.eqb (Band adr) EmptyString) (return_ None);;
  let '(fp, err) := band_Get ext (Band adr) in
  match err with
  | Some e => return_ (Some e)
  | None =>
      when (TxPower adr =? 0) (d_modify_ADR (set_TxPower (DefaultTXPower fp)));;
      when (NbTrans adr =? 0) (d_modify_ADR (set_NbTrans 1));;
      (* Calculate ADR settings *)
      s <- get;;
      let dev := d_dev s in
      let '(dataRate, txPower, err) :=
        fp_ADRSettings fp (DataRate (ADR dev)) (TxPower (ADR dev))
                       (maxSNR frames) (float32_of_int (Margin (ADR dev))) in
      if is_ErrADRUnavailable err then return_ None
      else
        match err with
        | Some e => return_ (Some e)
        | None =>
            let '(drIDx, err) := GetDataRateIndexFor fp dataRate in
            match err with
            | Some e => return_ (Some e)
            | None =>
                let '(powerIDx, err) := GetTxPowerIndexFor fp txPower in
                let powerIDx :=
                  match err with
                  | Some _ => fst (GetTxPowerIndexFor fp (DefaultTXPower fp))
                  | None => powerIDx
                  end in
                let nbTrans := nbTransFor dev dataRate txPower frames in
                if String.eqb (DataRate (ADR dev)) dataRate
                   && (TxPower (ADR dev) =? txPower)
                   && (NbTrans (ADR dev) =? nbTrans)
                then return_ None
                else ret {| p_fp := fp; p_dataRate := dataRate;
                            p_txPower := txPower; p_nbTrans := nbTrans;
                            p_drIDx := drIDx; p_powerIDx := powerIDx |}
            end
        end
  end.

(** [response.ChMask[i] = true]: an index outside the array panics. *)
Definition set_ChMask (mask : list bool) (i : nat) : option (list bool) :=
  if Nat.ltb i (List.length mask)
  then Some (firstn i mask ++ true :: skipn (S i) mask)
  else None.

(** The two loops of lines 179 to 185, from channel index [i] on. *)
Fixpoint buildChMask (channels : list Channel) (i : nat) (drIDx : Z)
  (mask : list bool) : option (list bool) :=
  match channels with
  | [] => Some mask
  | ch :: rest =>
      match
        fold_left (fun acc dr =>
                     match acc with
                     | None => None
                     | Some m => if dr =? drIDx then set_ChMask m i else Some m
                     end)
                  (DataRates ch) (Some mask)
      with
      | None => None
      | Some mask' => buildChMask rest (S i) drIDx mask'
      end
  end.

(** Lines 188 to 198: remove LinkADRReq if already added, then append the
    new one. *)
Definition spliceLinkADRReq (existingFOpts : list MACCommand)
  (responsePayload : list byte) : list MACCommand :=
  let fOpts :=
    fold_left (fun fOpts existing =>
                 if negb (CID existing =? uint32 LinkADRReq)
                 then fOpts ++ [existing] else fOpts)
              existingFOpts [] in
  fOpts ++ [{| CID := uint32 LinkADRReq; Payload := responsePayload |}].

Definition isLinkADRReq (c : MACCommand) : bool := CID c =? uint32 LinkADRReq.

(** Lines 167 to 202: persist the new settings and set the MAC command. *)
Definition setLinkADRReq (p : Proposal) : M DownlinkState unit :=
  d_modify_ADR (set_DataRate (p_dataRate p));;
  d_modify_ADR (set_TxPower (p_txPower p));;
  d_modify_ADR (set_NbTrans (p_nbTrans p));;
  s <- get;;
  let lorawanDownlinkMAC := d_message s in
  match buildChMask (UplinkChannels (p_fp p)) 0 (p_drIDx p)
                    (repeat false ChMaskSize) with
  | None => panic
  | Some chMask =>
      let response :=
        {| lp_DataRate := uint8 (p_drIDx p);
           lp_TXPower := uint8 (p_powerIDx p);
           lp_ChMask := chMask;
           lp_Redundancy := {| ChMaskCntl := 0;
                               NbRep := uint8 (NbTrans (ADR (d_dev s))) |} |} in
      let responsePayload := fst (MarshalBinary ext response) in
      put {| d_message :=
               {| FOpts := spliceLinkADRReq (FOpts lorawanDownlinkMAC)
                                            responsePayload |};
             d_dev := d_dev s |}
  end.

Definition handleDownlinkADR_body (n : networkServer) : M DownlinkState unit :=
  p <- adrProposal n;;
  setLinkADRReq p.

Definition handleDownlinkADR (n : networkServer) (message : DownlinkMessage)
  (dev : Device) : outcome DownlinkState :=
  call (handleDownlinkADR_body n) {| d_message := message; d_dev := dev |}.

End Handlers.

(** *** The specification's reading of the loss percentage *)

(** Sent packets and lost packets of a window, in the [uint32] arithmetic of
    the frame counter. *)
Definition sentPackets (frames : list Frame) : Z :=
  match frames with
  | [] => 0
  | newest :: _ => uint32 (FCnt newest - FCnt (last frames newest) + 1)
  end.

Definition lostPackets (frames : list Frame) : Z :=
  uint32 (sentPackets frames - uint32 (Z.of_nat (List.length frames))).

(** [round(100 * loss / sentPackets)], halves rounded up, on exact
    rationals: the floor of [(200 * loss + sentPackets) / (2 * sentPackets)]. *)
Definition roundPercent (loss sentPackets : Z) : Z :=
  (200 * loss + sentPackets) / (2 * sentPackets).

Definition lossPercentage_spec (frames : list Frame) : Z :=
  roundPercent (lostPackets frames) (sentPackets frames).

(** The [float64] expression of [lossPercentage] before its conversion to
    [int], for a number of lost and of sent packets. *)
Definition lossPercentage_float (loss sentPackets : Z) : float64 :=
  Floor (add64 (mul64 (div64 (float64_of_int loss)
                             (float64_of_int sentPackets))
                      c100)
               chalf).

(** Whether that expression converts to the exactly rounded percentage. *)
Definition rounds_exactly (loss sentPackets : Z) : bool :=
  match float64_to_int (lossPercentage_float loss sentPackets) with
  | Some t => t =? roundPercent loss sentPackets
  | None => false
  end.

(** The integers [lo], [lo + 1], ... ([count] of them). *)
Fixpoint Z_range (lo : Z) (count : nat) : list Z :=
  match count with
  | O => []
  | S k => lo :: Z_range (lo + 1) k
  end.

(** A window without gaps: the frame counters, newest first, go down by one
    from each frame to the next (modulo [2^32], the counter being a
    [uint32]). *)
Fixpoint no_gaps (frames : list Frame) : Prop :=
  match frames with
  | newer :: (older :: _) as rest =>
      uint32 (FCnt older + 1) = uint32 (FCnt newer) /\ no_gaps rest
  | _ => True
  end.

(** *** The specification's reading of the maximum SNR *)

Definition is_nan (x : spec_float) : bool :=
  match x with
  | S754_nan => true
  | _ => false
  end.

(** [m] is the maximum of the SNR field over a window: it is the SNR of one
    of its frames, and the SNR of every frame is below or equal to it. *)
Definition is_max_SNR (m : float32) (frames : list Frame) : Prop :=
  In m (map SNR frames) /\ Forall (fun f => SFleb (SNR f) m = true) frames.

Definition no_NaN (frames : list Frame) : Prop :=
  Forall (fun f => is_nan (SNR f) = false) frames.

(** *** The specification's reading of the defaults and of the adjustment *)

(** Step 2 of the downlink procedure: a margin, power or retransmission count
    of 0 is replaced by its default. *)
Definition withDefaults (fp : FrequencyPlan) (a : ADRSettings) : ADRSettings :=
  {| Band := Band a;
     Margin := if Margin a =? 0 then DefaultADRMargin else Margin a;
     SendReq := SendReq a;
     DataRate := DataRate a;
     TxPower := if TxPower a =? 0 then DefaultTXPower fp else TxPower a;
     NbTrans := if NbTrans a =? 0 then 1 else NbTrans a;
     Failed := Failed a |}.

(** Step 6: the change of the retransmission count for a loss percentage,
    and the clamp to the closed range [1,3]. *)
Definition nbTransStep (lossPercentage : Z) : Z :=
  if lossPercentage <=? 5 then -1
  else if lossPercentage <=? 10 then 0
  else if lossPercentage <=? 30 then 1
  else 2.

Definition clampNbTrans (raw : Z) : Z := Z.max 1 (Z.min 3 raw).

(** The full reset of an ADR-disabled uplink. *)
Definition resetADR (a : ADRSettings) : ADRSettings :=
  {| Band := Band a; Margin := Margin a; SendReq := false; DataRate := EmptyString;
     TxPower := 0; NbTrans := 0; Failed := Failed a |}.

(** The same store, with another error returned by the history lookup. *)
Definition with_lookup_error (n : networkServer) (e : option error)
  : networkServer :=
  {| devices_Frames := fun a d => (fst (devices_Frames n a d), e);
     logged := logged n |}.

(** *** Sample values for the examples *)

(** The SNR values 1.0 and 2.0, and a frame received by one gateway. *)
Definition snr_one : float32 := S754_finite false 8388608 (-23).
Definition snr_two : float32 := S754_finite false 8388608 (-22).
Definition frame_with_SNR (fcnt : Z) (snr : float32) : Frame :=
  {| FCnt := fcnt; SNR := snr; GatewayCount := 1 |}.

(** [count] frames with consecutive counters, the newest, [newest], first. *)
Fixpoint consecutive_frames (count : nat) (newest : Z) : list Frame :=
  match count with
  | O => []
  | S k => frame_with_SNR newest snr_one :: consecutive_frames k (newest - 1)
  end.

(** A full window without loss: counters 119 down to 100. *)
Definition full_window : list Frame := consecutive_frames 20 119.

(** The worked example: counters 100 to 119 with 105 and 110 missing. *)
Definition example_window : list Frame :=
  consecutive_frames 9 119 ++ consecutive_frames 4 109
  ++ consecutive_frames 5 104.

(** A full window recorded across a counter reset: the newest frame has
    counter 0, the nineteen before it the counters 19 down to 1. *)
Definition reset_window : list Frame :=
  frame_with_SNR 0 snr_one :: consecutive_frames 19 19.

(** A window of 17 frames spanning 40 counters. *)
Definition sparse_window : list Frame :=
  frame_with_SNR 139 snr_one :: consecutive_frames 16 115.

Definition history_of (frames : list Frame) : FrameHistory :=
  {| samples := frames; pushFails := None; getFails := None;
     clearFails := None |}.

Definition server_with (frames : list Frame) : networkServer :=
  {| devices_Frames := fun _ _ => (Some (history_of frames), None);
     logged := [] |}.

(** A plan that finds the device already at its best data rate and power. *)
Definition steady_plan : FrequencyPlan :=
  {| DefaultTXPower := 14;
     fp_ADRSettings := fun dataRate txPower _ _ => (dataRate, txPower, None);
     GetDataRateIndexFor := fun _ => (5, None);
     GetTxPowerIndexFor := fun _ => (1, None);
     UplinkChannels := [{| DataRates := [0; 1; 2; 3; 4; 5] |};
                        {| DataRates := [0; 1; 2; 3; 4; 5] |};
                        {| DataRates := [0; 1; 2; 3; 4; 5] |}] |}.

(** A plan for which ADR is unavailable. *)
Definition unavailable_plan : FrequencyPlan :=
  {| DefaultTXPower := 14;
     fp_ADRSettings := fun dataRate txPower _ _ =>
                         (dataRate, txPower, Some ErrADRUnavailable);
     GetDataRateIndexFor := fun _ => (5, None);
     GetTxPowerIndexFor := fun _ => (1, None);
     UplinkChannels := [] |}.

Definition byte_of_Z (z : Z) : byte :=
  match Byte.of_N (Z.to_N (z mod 256)) with
  | Some b => b
  | None => x00
  end.

(** A stand-in for the encoder of the LoRaWAN library: one byte each for the
    data rate index, the power index and the redundancy. *)
Definition sample_MarshalBinary (p : LinkADRReqPayload)
  : list byte * option error :=
  ([byte_of_Z (lp_DataRate p); byte_of_Z (lp_TXPower p);
    byte_of_Z (NbRep (lp_Redundancy p))], None).

Definition externals_with (fp : FrequencyPlan) : Externals :=
  {| band_Get := fun _ => (fp, None);
     MarshalBinary := sample_MarshalBinary;
     bestSNR := fun _ => snr_one;
     int_undef := fun _ => min_int |}.

Definition sample_ADR (band : string) (margin nbTrans : Z) : ADRSettings :=
  {| Band := band; Margin := margin; SendReq := true;
     DataRate := "SF7BW125"; TxPower := 14; NbTrans := nbTrans; Failed := 0 |}.

Definition sample_device (a : ADRSettings) : Device :=
  {| AppEUI := 1; DevEUI := 2; ADR := a; DisableFCntCheck := false |}.

Definition band : string := "EU_863_870".

(** A history whose [Get] fails, behind a lookup that reports another
    error. *)
Definition unreadable_history : FrameHistory :=
  {| samples := full_window; pushFails := None;
     getFails := Some (ErrOther "get failed"); clearFails := None |}.

Definition unreadable_server : networkServer :=
  {| devices_Frames := fun _ _ =>
       (Some unreadable_history, Some (ErrOther "lookup failed"));
     logged := [] |}.

Definition no_commands : DownlinkMessage := {| FOpts := [] |}.

(** The downlink with the one LinkADRReq that asks for [nbRep]
    transmissions. *)
Definition one_LinkADRReq (nbRep : Z) : DownlinkMessage :=
  {| FOpts := [{| CID := LinkADRReq;
                  Payload := [byte_of_Z 5; byte_of_Z 1; byte_of_Z nbRep] |}] |}.


Definition adr_off_uplink : UplinkMessage :=
  {| up_ADR := false; up_ADRAckReq := false; up_FCnt := 120;
     GatewayMetadata := []; up_FrequencyPlan := "EU_863_870";
     up_DataRate := "SF7BW125"; response_Ack := false |}.

(** *** Further readings of the code, for the properties below *)

(** A frame whose SNR is a number. *)
Definition not_NaN (f : Frame) : bool := negb (is_nan (SNR f)).

(** Lines 146 to 161: the retransmission count after the step for the loss
    percentage and the clamp. *)
Definition adjustNbTrans (nbTrans lossPercentage : Z) : Z :=
  clampNbTrans
    (if lossPercentage <=? 5 then int (nbTrans - 1)
     else if lossPercentage <=? 10 then nbTrans
     else if lossPercentage <=? 30 then int (nbTrans + 1)
     else int (nbTrans + 2)).

(** Where the retransmission count ends up under a constant loss
    percentage: at 1 when the step is down, at 3 when it is up, and at the
    clamped count when there is no step. *)
Definition settledNbTrans (nbTrans lossPercentage : Z) : Z :=
  let step := nbTransStep lossPercentage in
  if step <? 0 then 1 else if 0 <? step then 3 else clampNbTrans nbTrans.

(** The channel lists the data rate index among the ones it allows (the
    test of the inner loop of lines 180 to 184). *)
Definition allows (ch : Channel) (drIDx : Z) : bool :=
  existsb (fun dr => dr =? drIDx) (DataRates ch).

(** The power index on the wire (lines 138 to 141): the index of the power,
    or the index of the default power when the power has none. *)
Definition powerIndex (fp : FrequencyPlan) (txPower : Z) : Z :=
  match snd (GetTxPowerIndexFor fp txPower) with
  | Some _ => fst (GetTxPowerIndexFor fp (DefaultTXPower fp))
  | None => fst (GetTxPowerIndexFor fp txPower)
  end.

(** [a'] is [a] up to the defaults of lines 109 to 124: nothing but a
    margin, power or retransmission count of 0 has been replaced, each by its
    default. *)
Definition only_defaults (fp : FrequencyPlan) (a a' : ADRSettings) : Prop :=
  Band a' = Band a /\ SendReq a' = SendReq a /\ DataRate a' = DataRate a
  /\ Failed a' = Failed a
  /\ (Margin a' = Margin a \/ (Margin a = 0 /\ Margin a' = DefaultADRMargin))
  /\ (TxPower a' = TxPower a
      \/ (TxPower a = 0 /\ TxPower a' = DefaultTXPower fp))
  /\ (NbTrans a' = NbTrans a \/ (NbTrans a = 0 /\ NbTrans a' = 1)).

(** The command that announces the settings [a] under the plan [fp]. *)
Definition linkADRReqFor (fp : FrequencyPlan) (a : ADRSettings)
  (chMask : list bool) : LinkADRReqPayload :=
  {| lp_DataRate := uint8 (fst (GetDataRateIndexFor fp (DataRate a)));
     lp_TXPower := uint8 (powerIndex fp (TxPower a));
     lp_ChMask := chMask;
     lp_Redundancy := {| ChMaskCntl := 0; NbRep := uint8 (NbTrans a) |} |}.

(** The downlink handler queued, in [s'], the command that announces the
    settings it stored there. *)
Definition queued (ext : Externals) (fp : FrequencyPlan)
  (message : DownlinkMessage) (s' : DownlinkState) : Prop :=
  let a' := ADR (d_dev s') in
  exists chMask,
    buildChMask (UplinkChannels fp) 0
                (fst (GetDataRateIndexFor fp (DataRate a')))
                (repeat false ChMaskSize) = Some chMask
    /\ FOpts (d_message s')
       = spliceLinkADRReq (FOpts message)
           (fst (MarshalBinary ext (linkADRReqFor fp a' chMask))).

(** The settings [a'] are the plan's candidate for the device [dev] and the
    window, with the retransmission count of lines 143 to 162, and differ
    from the stored ones (defaults applied) in data rate, power or count. *)
Definition candidate (ext : Externals) (fp : FrequencyPlan) (dev : Device)
  (window : list Frame) (a' : ADRSettings) : Prop :=
  let d := withDefaults fp (ADR dev) in
  fp_ADRSettings fp (DataRate d) (TxPower d) (maxSNR window)
                 (float32_of_int (Margin d))
  = (DataRate a', TxPower a', None)
  /\ NbTrans a'
     = nbTransFor ext (with_ADR dev d) (DataRate a') (TxPower a') window
  /\ (DataRate a', TxPower a', NbTrans a')
     <> (DataRate d, TxPower d, NbTrans d)
  /\ Band a' = Band d /\ Margin a' = Margin d /\ SendReq a' = SendReq d
  /\ Failed a' = Failed d.

(** The run of the downlink handler gets past the guards of lines 86 to
    118: a request is due, no proposal has failed, the history of the device
    is found and read and fills the window, data rate and band are set, and
    the band resolves to the plan [fp]. *)
Definition past_guards (ext : Externals) (n : networkServer) (dev : Device)
  (h : FrameHistory) (fp : FrequencyPlan) : Prop :=
  SendReq (ADR dev) = true /\ Failed (ADR dev) <= 0
  /\ fst (devices_Frames n (AppEUI dev) (DevEUI dev)) = Some h
  /\ getFails h = None
  /\ (FramesHistorySize <= List.length (samples h))%nat
  /\ DataRate (ADR dev) <> EmptyString /\ Band (ADR dev) <> EmptyString
  /\ band_Get ext (Band (ADR dev)) = (fp, None).

(** The device is where the plan wants it: past the guards, with the
    frame-counter check on, the plan's candidate for the stored settings
    (defaults applied) is these settings again, their data rate has an
    index, and the plan has no more channels than the mask has bits. *)
Definition steady (ext : Externals) (n : networkServer) (dev : Device)
  (h : FrameHistory) (fp : FrequencyPlan) : Prop :=
  let d := withDefaults fp (ADR dev) in
  past_guards ext n dev h fp
  /\ DisableFCntCheck dev = false
  /\ fp_ADRSettings fp (DataRate d) (TxPower d)
                    (maxSNR (firstn FramesHistorySize (samples h)))
                    (float32_of_int (Margin d))
     = (DataRate d, TxPower d, None)
  /\ snd (GetDataRateIndexFor fp (DataRate d)) = None
  /\ (List.length (UplinkChannels fp) <= ChMaskSize)%nat.

(** [k] invocations of the downlink handler in a row, each on the message
    and device the one before left, as long as they return without error. *)
Fixpoint handleDownlinkADR_times (ext : Externals) (n : networkServer)
  (k : nat) (s : DownlinkState) : outcome DownlinkState :=
  match k with
  | O => Returned None s
  | S k' =>
      match handleDownlinkADR ext n (d_message s) (d_dev s) with
      | Returned None s1 => handleDownlinkADR_times ext n k' s1
      | stopped => stopped
      end
  end.

(** The sample that an ADR-enabled uplink adds to the history (lines 51 to
    55). *)
Definition uplinkFrame (ext : Externals) (message : UplinkMessage) : Frame :=
  {| FCnt := up_FCnt message;
     SNR := bestSNR ext (GatewayMetadata message);
     GatewayCount := uint32 (Z.of_nat (List.length (GatewayMetadata message))) |}.

(** The settings after an ADR-enabled uplink (lines 58 to 70): the band is
    taken from the uplink if none was stored, the data rate is the uplink's,
    and a request is scheduled when the data rate changed or the device asked
    for an acknowledgement. *)
Definition adrEnabledSettings (message : UplinkMessage) (a : ADRSettings)
  : ADRSettings :=
  {| Band := if String.eqb (Band a) EmptyString
             then up_FrequencyPlan message else Band a;
     Margin := Margin a;
     SendReq := SendReq a
                || negb (String.eqb (DataRate a) (up_DataRate message))
                || up_ADRAckReq message;
     DataRate := up_DataRate message;
     TxPower := TxPower a;
     NbTrans := NbTrans a;
     Failed := Failed a |}.

(** The store after the push of an ADR-enabled uplink: the history is the
    one the push left, and a push error is logged. *)
Definition store_after_push (n : networkServer) (dev : Device)
  (pushed : FrameHistory * option error) : networkServer :=
  let n' := store_history n (AppEUI dev) (DevEUI dev) (fst pushed) in
  match snd pushed with
  | Some e => log_error n' e
  | None => n'
  end.

(** *** Further sample values *)

(** A full window of one repeated counter: twenty samples, one packet. *)
Definition duplicate_window : list Frame :=
  repeat (frame_with_SNR 7 snr_one) 20.

(** A full window spanning the 25 counters 100 to 124. *)
Definition wider_window : list Frame :=
  frame_with_SNR 124 snr_one :: consecutive_frames 19 118.

(** A history that holds one more sample than the window. *)
Definition longer_history : list Frame :=
  full_window ++ [frame_with_SNR 99 snr_two].

(** A store that finds no history and says so. *)
Definition missing_history : networkServer :=
  {| devices_Frames := fun _ _ => (None, Some (ErrOther "not found"));
     logged := [] |}.

(** A plan of seventeen channels that moves every device to SF8BW125. *)
Definition wide_plan : FrequencyPlan :=
  {| DefaultTXPower := 14;
     fp_ADRSettings := fun _ txPower _ _ =>
                         ("SF8BW125"%string, txPower, None);
     GetDataRateIndexFor := fun _ => (4, None);
     GetTxPowerIndexFor := fun _ => (1, None);
     UplinkChannels := repeat {| DataRates := [0; 1; 2; 3; 4; 5] |} 17 |}.

Definition adr_on_uplink : UplinkMessage :=
  {| up_ADR := true; up_ADRAckReq := true; up_FCnt := 120;
     GatewayMetadata := [{| rx_SNR := snr_two |}];
     up_FrequencyPlan := "EU_863_870";
     up_DataRate := "SF9BW125"; response_Ack := false |}.

End ADR.

(** ** Package [handler]: the component and its start-up *)

Module Handler.

Import Go.
Local Open Scope go_scope.
Local Open Scope string_scope.

(** The fields of [handler] that [WithMQTT], [WithAMQP] and [Init] set or
    read; the stores, clients, connections and channels stay with the calls
    that create them. *)
Record handler : Type := {
  ttnBrokerID : string;
  mqttUsername : string;
  mqttPassword : string;
  mqttBrokers : list string;
  mqttEnabled : bool;
  amqpUsername : string;
  amqpPassword : string;
  amqpHost : string;
  amqpExchange : string;
  amqpEnabled : bool
}.

(** What [Init] calls outside the file, and the goroutines it starts, in the
    order in which they happen. *)
Inductive event : Type :=
| InitStatus
| UpdateTokenKey
| Announce
| HandleMQTT (username password : string) (brokers : list string)
| HandleAMQP (username password host exchange queue : string)
| GoForward                     (* the goroutine of lines 148 to 167 *)
| Discover (serviceName id : string)
| Dial
| AddServer (id : string)
| NewHandlerStreams
| GoAssociation                 (* the goroutine of lines 218 to 229 *)
| SetStatusHealthy
| MonitorHandlerClient
| GoStatus.                     (* the goroutine of lines 177 to 181 *)

(** What the component and the network answer to the calls that can fail. *)
Record Component : Type := {
  UpdateTokenKey_ : option error;
  Announce_ : option error;
  HandleMQTT_ : string -> string -> list string -> option error;
  HandleAMQP_ : string -> string -> string -> string -> string -> option error;
  Discover_ : string -> string -> option error;
  Dial_ : option error;
  Monitor : bool                (* h.Component.Monitor != nil *)
}.

Record world : Type := {
  h : handler;
  trace : list event
}.

Definition does (ev : event) : M world unit :=
  fun w => Next tt {| h := h w; trace := trace w ++ [ev] |}.

(** [err = f(...); if err != nil { return err }]. *)
Definition attempt (ev : event) (err : option error) : M world unit :=
  does ev;;
  match err with
  | Some e => return_ (Some e)
  | None => ret tt
  end.

(** AMQPDownlinkQueue is the AMQP queue to use for downlink. *)
Definition AMQPDownlinkQueue : string := "ttn-handler-downlink".

(** NewRedisHandler creates a new Redis-backed Handler: the fields not
    listed in the literal have their zero values. *)
Definition NewRedisHandler (ttnBrokerID : string) : handler :=
  {| ttnBrokerID := ttnBrokerID;
     mqttUsername := EmptyString; mqttPassword := EmptyString;
     mqttBrokers := []; mqttEnabled := false;
     amqpUsername := EmptyString; amqpPassword := EmptyString;
     amqpHost := EmptyString; amqpExchange := EmptyString;
     amqpEnabled := false |}.

Definition WithMQTT (username password : string) (brokers : list string)
  (h : handler) : handler :=
  {| ttnBrokerID := ttnBrokerID h;
     mqttUsername := username; mqttPassword := password;
     mqttBrokers := brokers; mqttEnabled := true;
     amqpUsername := amqpUsername h; amqpPassword := amqpPassword h;
     amqpHost := amqpHost h; amqpExchange := amqpExchange h;
     amqpEnabled := amqpEnabled h |}.

Definition WithAMQP (username password host exchange : string) (h : handler)
  : handler :=
  {| ttnBrokerID := ttnBrokerID h;
     mqttUsername := mqttUsername h; mqttPassword := mqttPassword h;
     mqttBrokers := mqttBrokers h; mqttEnabled := mqttEnabled h;
     amqpUsername := username; amqpPassword := password;
     amqpHost := host; amqpExchange := exchange;
     amqpEnabled := true |}.

Definition associateBroker (c : Component) : M world unit :=
  w <- get;;
  attempt (Discover "broker" (ttnBrokerID (h w)))
          (Discover_ c "broker" (ttnBrokerID (h w)));;
  attempt Dial (Dial_ c);;
  does (AddServer (ttnBrokerID (h w)));;
  does NewHandlerStreams;;
  does GoAssociation.

Definition Init (c : Component) : M world unit :=
  does InitStatus;;
  attempt UpdateTokenKey (UpdateTokenKey_ c);;
  attempt Announce (Announce_ c);;
  w <- get;;
  when (mqttEnabled (h w))
       (let brokers :=
          fold_left (fun brokers broker =>
                       (brokers ++ [String.append "tcp://" broker])%list)
                    (mqttBrokers (h w)) [] in
        attempt (HandleMQTT (mqttUsername (h w)) (mqttPassword (h w)) brokers)
                (HandleMQTT_ c (mqttUsername (h w)) (mqttPassword (h w))
                             brokers));;
  when (amqpEnabled (h w))
       (attempt (HandleAMQP (amqpUsername (h w)) (amqpPassword (h w))
                            (amqpHost (h w)) (amqpExchange (h w))
                            AMQPDownlinkQueue)
                (HandleAMQP_ c (amqpUsername (h w)) (amqpPassword (h w))
                             (amqpHost (h w)) (amqpExchange (h w))
                             AMQPDownlinkQueue));;
  does GoForward;;
  associateBroker c;;
  does SetStatusHealthy;;
  when (Monitor c) (does MonitorHandlerClient;; does GoStatus).

(** *** Readings of [Init] for the properties below *)

(** The broker address that [Init] dials for a configured MQTT broker. *)
Definition tcp (broker : string) : string := String.append "tcp://" broker.

(** The fallible steps of [Init] for a handler [h0], in the order of the
    source, each with the answer it gets: before the forwarding goroutine
    the token key, the announcement and the MQTT and AMQP connections that
    are enabled; after it the discovery and the dial of the broker. *)
Definition steps_connect (c : Component) (h0 : handler)
  : list (event * option error) :=
  [(UpdateTokenKey, UpdateTokenKey_ c); (Announce, Announce_ c)]
  ++ (if mqttEnabled h0
      then [(HandleMQTT (mqttUsername h0) (mqttPassword h0)
                        (map tcp (mqttBrokers h0)),
             HandleMQTT_ c (mqttUsername h0) (mqttPassword h0)
                         (map tcp (mqttBrokers h0)))]
      else [])
  ++ (if amqpEnabled h0
      then [(HandleAMQP (amqpUsername h0) (amqpPassword h0) (amqpHost h0)
                        (amqpExchange h0) AMQPDownlinkQueue,
             HandleAMQP_ c (amqpUsername h0) (amqpPassword h0) (amqpHost h0)
                         (amqpExchange h0) AMQPDownlinkQueue)]
      else []).

Definition steps_associate (c : Component) (h0 : handler)
  : list (event * option error) :=
  [(Discover "broker" (ttnBrokerID h0),
    Discover_ c "broker" (ttnBrokerID h0));
   (Dial, Dial_ c)].

Definition steps (c : Component) (h0 : handler)
  : list (event * option error) :=
  steps_connect c h0 ++ steps_associate c h0.

(** Steps taken one after the other up to the first that fails: the calls
    made and the error, if any. *)
Fixpoint first_failure (steps : list (event * option error))
  : list event * option error :=
  match steps with
  | [] => ([], None)
  | (ev, Some e) :: _ => ([ev], Some e)
  | (ev, None) :: rest =>
      let '(evs, r) := first_failure rest in (ev :: evs, r)
  end.

(** *** Sample values *)

(** A handler with both transports configured. *)
Definition sample_handler : handler :=
  WithAMQP "guest" "guest" "amqp.local:5672" "ttn.handler"
    (WithMQTT "user" "secret" ["mqtt-a.local:1883"; "mqtt-b.local:1883"]
       (NewRedisHandler "ttn-broker")).

(** A component for which every call succeeds, with a monitor. *)
Definition healthy_component : Component :=
  {| UpdateTokenKey_ := None; Announce_ := None;
     HandleMQTT_ := fun _ _ _ => None;
     HandleAMQP_ := fun _ _ _ _ _ => None;
     Discover_ := fun _ _ => None; Dial_ := None; Monitor := true |}.

(** A component whose AMQP connection is refused. *)
Definition no_AMQP_component : Component :=
  {| UpdateTokenKey_ := None; Announce_ := None;
     HandleMQTT_ := fun _ _ _ => None;
     HandleAMQP_ := fun _ _ _ _ _ => Some (ErrOther "connection refused");
     Discover_ := fun _ _ => None; Dial_ := None; Monitor := true |}.

(** The calls of [Init] on the sample handler when AMQP is refused, and
    when everything succeeds. *)
Definition refused_trace : list event :=
  [InitStatus; UpdateTokenKey; Announce;
   HandleMQTT "user" "secret"
     ["tcp://mqtt-a.local:1883"; "tcp://mqtt-b.local:1883"];
   HandleAMQP "guest" "guest" "amqp.local:5672" "ttn.handler"
     "ttn-handler-downlink"].

Definition healthy_trace : list event :=
  refused_trace
  ++ [GoForward; Discover "broker" "ttn-broker"; Dial; AddServer "ttn-broker";
      NewHandlerStreams; GoAssociation; SetStatusHealthy;
      MonitorHandlerClient; GoStatus].

End Handler.

(** * Properties *)

Import Go Float ADR.

(** ** The packet envelope parser *)

Section ParseFacts.

Variable Payload : Type.
Variable decodePayload : list byte -> option Go.error * option Payload.

Lemma slice_in_range (raw : list byte) (lo hi : nat) :
  (lo <= hi)%nat -> (hi <= List.length raw)%nat ->
  Protocol.slice raw lo hi = Some (firstn (hi - lo) (skipn lo raw)).
Proof.
  intros Hlo Hhi. unfold Protocol.slice.
  apply Nat.leb_le in Hlo. apply Nat.leb_le in Hhi.
  now rewrite Hlo, Hhi.
Qed.

(** With four bytes or more, and with fewer than three, every read of [Parse]
    is within the datagram. *)
Lemma Parse_in_range (raw : list byte) :
  List.length raw <> 3%nat ->
  Protocol.Parse decodePayload raw <> Protocol.IndexOutOfRange.
Proof.
  intros Hlen. unfold Protocol.Parse.
  destruct (Nat.ltb (List.length raw) 3) eqn:Hshort; [discriminate|].
  apply Nat.ltb_ge in Hshort.
  assert (H4 : (4 <= List.length raw)%nat) by lia.
  destruct raw as [|b0 [|b1 [|b2 [|b3 rest]]]]; simpl in H4; try lia.
  rewrite (slice_in_range (b0 :: b1 :: b2 :: b3 :: rest) 1 3)
    by (simpl; lia).
  cbn [Protocol.index nth_error].
  destruct (negb _); [discriminate|].
  destruct (Protocol.byte_gtb _ _); [discriminate|].
  destruct (Nat.leb 12 _ && _)%bool eqn:Hgw.
  - apply andb_prop in Hgw as [H12 _]. apply Nat.leb_le in H12.
    rewrite slice_in_range by lia.
    destruct (_ || _)%bool.
    + rewrite slice_in_range by lia. destruct (decodePayload _). discriminate.
    + discriminate.
  - destruct (_ || _)%bool.
    + rewrite slice_in_range by lia. destruct (decodePayload _). discriminate.
    + discriminate.
Qed.

(** C10 (the code at the failing input).  A datagram of exactly three bytes
    passes the length guard [size < 3] and then reads [raw[3]], past its end:
    [Parse] panics instead of returning an error. *)
Theorem Parse_three_bytes_out_of_range :
  Protocol.Parse decodePayload [x01; x00; x00] = Protocol.IndexOutOfRange.
Proof. reflexivity. Qed.

(** X1.  [Parse] indexes past the end of the datagram (a run-time panic)
    on every datagram of exactly three bytes, and on no other: every other
    input makes it return. *)
Lemma Parse_out_of_range_iff (raw : list byte) :
  Protocol.Parse decodePayload raw = Protocol.IndexOutOfRange
  <-> List.length raw = 3%nat.
Proof.
  split.
  - intros H. destruct (Nat.eq_dec (List.length raw) 3) as [E|E]; [exact E|].
    now apply Parse_in_range in E.
  - intros H. destruct raw as [|b0 [|b1 [|b2 [|b3 rest]]]]; try discriminate.
    reflexivity.
Qed.

End ParseFacts.

(** ** Splicing the LinkADRReq into the command list *)

Section SpliceFacts.

Lemma keep_loop_filter (l acc : list MACCommand) :
  fold_left (fun fOpts existing =>
               if negb (CID existing =? uint32 LinkADRReq)
               then fOpts ++ [existing] else fOpts) l acc
  = acc ++ filter (fun c => negb (isLinkADRReq c)) l.
Proof.
  revert acc. induction l as [|c l IH]; intros acc; simpl.
  - now rewrite app_nil_r.
  - rewrite IH. unfold isLinkADRReq.
    destruct (CID c =? uint32 LinkADRReq); simpl.
    + reflexivity.
    + now rewrite <- app_assoc.
Qed.

Lemma spliceLinkADRReq_filter (fOpts : list MACCommand) (payload : list byte) :
  spliceLinkADRReq fOpts payload
  = filter (fun c => negb (isLinkADRReq c)) fOpts
    ++ [{| CID := uint32 LinkADRReq; Payload := payload |}].
Proof. unfold spliceLinkADRReq. now rewrite keep_loop_filter. Qed.


Lemma filter_idem {A} (f : A -> bool) (l : list A) :
  filter f (filter f l) = filter f l.
Proof.
  induction l as [|x l IH]; simpl; [reflexivity|].
  destruct (f x) eqn:E; simpl; [|exact IH]. now rewrite E, IH.
Qed.


End SpliceFacts.

(** ** The order of the floating-point comparison *)

Section FloatOrder.

Lemma pos_compare_cont_Eq (m1 m2 : positive) :
  PosDef.Pos.compare_cont Eq m1 m2 = Pos.compare m1 m2.
Proof. reflexivity. Qed.

Ltac order_cases :=
  repeat match goal with
    | |- context [PosDef.Pos.compare_cont Eq ?a ?b] =>
        change (PosDef.Pos.compare_cont Eq a b) with (Pos.compare a b)
    | H : context [PosDef.Pos.compare_cont Eq ?a ?b] |- _ =>
        change (PosDef.Pos.compare_cont Eq a b) with (Pos.compare a b) in H
    end;
  repeat match goal with
    | |- context [Z.compare ?a ?b] => destruct (Z.compare_spec a b)
    | H : context [Z.compare ?a ?b] |- _ => destruct (Z.compare_spec a b)
    | |- context [Pos.compare ?a ?b] => destruct (Pos.compare_spec a b)
    | H : context [Pos.compare ?a ?b] |- _ => destruct (Pos.compare_spec a b)
    end;
  subst; try discriminate; try reflexivity; try lia.

(** Without NaN the comparison is total: [x > y] is false only if [x <= y]. *)
Lemma SFleb_of_not_gt (x y : spec_float) :
  is_nan x = false -> is_nan y = false ->
  SFltb y x = false -> SFleb x y = true.
Proof.
  unfold SFltb, SFleb, SFcompare.
  destruct x as [sx|sx| |sx mx ex], y as [sy|sy| |sy my ey];
    simpl; intros Hx Hy; try discriminate;
    try (destruct sx); try (destruct sy); try discriminate; try reflexivity;
    intros H; order_cases.
Qed.

Lemma SFleb_of_lt (x y : spec_float) : SFltb x y = true -> SFleb x y = true.
Proof.
  unfold SFltb, SFleb. destruct (SFcompare x y) as [[]|]; easy.
Qed.

Lemma SFleb_refl (x : spec_float) : is_nan x = false -> SFleb x x = true.
Proof.
  unfold SFleb, SFcompare. destruct x as [s|s| |s m e]; simpl; intros H;
    try discriminate; try (destruct s); try reflexivity;
    rewrite pos_compare_cont_Eq, Z.compare_refl, Pos.compare_refl; reflexivity.
Qed.

Lemma SFleb_trans (x y z : spec_float) :
  SFleb x y = true -> SFleb y z = true -> SFleb x z = true.
Proof.
  unfold SFleb, SFcompare.
  destruct x as [sx|sx| |sx mx ex], y as [sy|sy| |sy my ey],
           z as [sz|sz| |sz mz ez];
    simpl; try discriminate; try reflexivity;
    try (destruct sx); try (destruct sy); try (destruct sz);
    simpl; try discriminate; try reflexivity;
    intros H1 H2; order_cases.
Qed.

End FloatOrder.

(** ** [maxSNR] *)

Section MaxSNRFacts.

(** The loop of [maxSNR], started from a running maximum [max0]. *)
Lemma maxSNR_loop (frames : list Frame) (max0 : float32) :
  is_nan max0 = false -> no_NaN frames ->
  exists max,
    fold_left (fun max frame => if gt32 (SNR frame) max then SNR frame else max)
              frames max0 = max
    /\ is_nan max = false
    /\ (max = max0 \/ In max (map SNR frames))
    /\ SFleb max0 max = true
    /\ Forall (fun f => SFleb (SNR f) max = true) frames.
Proof.
  revert max0. induction frames as [|f frames IH]; intros max0 H0 Hall; simpl.
  - exists max0. repeat split; auto. now apply SFleb_refl.
  - inversion Hall as [|? ? Hf Hrest]; subst.
    change (gt32 (SNR f) max0) with (SFltb max0 (SNR f)).
    destruct (SFltb max0 (SNR f)) eqn:Hgt.
    + destruct (IH (SNR f) Hf Hrest) as (max & Heq & Hn & Hin & Hle & Hmax).
      assert (Hlt : SFleb max0 max = true)
        by (eapply SFleb_trans; [apply SFleb_of_lt; exact Hgt | exact Hle]).
      exists max. split; [exact Heq|]. split; [exact Hn|].
      split; [|split; [exact Hlt|constructor; assumption]].
      destruct Hin as [->|Hin]; [right; now left | right; now right].
    + destruct (IH max0 H0 Hrest) as (max & Heq & Hn & Hin & Hle & Hmax).
      exists max. split; [exact Heq|]. split; [exact Hn|].
      split; [|split; [exact Hle|constructor; [|assumption]]].
      * destruct Hin as [->|Hin]; [now left | right; now right].
      * eapply SFleb_trans; [|exact Hle]. now apply SFleb_of_not_gt.
Qed.

(** C8, as the code has it.  [maxSNR] of the empty window is 0; for a
    non-empty window none of whose SNR values is NaN it is the maximum of the
    SNR field: the SNR of one of the frames, above or equal to all of them. *)
Theorem maxSNR_is_max (frames : list Frame) :
  (frames = [] -> maxSNR frames = S754_zero false)
  /\ (frames <> [] -> no_NaN frames -> is_max_SNR (maxSNR frames) frames).
Proof.
  split.
  - intros ->. reflexivity.
  - intros Hne Hall. destruct frames as [|first rest]; [congruence|].
    unfold maxSNR, is_max_SNR.
    assert (Hfirst : is_nan (SNR first) = false) by now inversion Hall.
    destruct (maxSNR_loop (first :: rest) (SNR first) Hfirst Hall)
      as (max & -> & _ & Hin & _ & Hmax).
    split; [|exact Hmax].
    destruct Hin as [->|Hin]; [now left | exact Hin].
Qed.

Lemma maxSNR_is_max_witness :
  maxSNR [frame_with_SNR 7 snr_one; frame_with_SNR 6 snr_two;
          frame_with_SNR 5 snr_one] = snr_two
  /\ is_max_SNR
       (maxSNR [frame_with_SNR 7 snr_one; frame_with_SNR 6 snr_two;
                frame_with_SNR 5 snr_one])
       [frame_with_SNR 7 snr_one; frame_with_SNR 6 snr_two;
        frame_with_SNR 5 snr_one].
Proof.
  split; [reflexivity|].
  apply (proj2 (maxSNR_is_max _)); [discriminate|].
  repeat constructor.
Defined.

(** C8 as stated fails on a window that holds a NaN: every comparison with
    NaN is false, so a NaN in first position is returned whatever follows. *)
Lemma maxSNR_NaN_not_max :
  maxSNR [frame_with_SNR 7 S754_nan; frame_with_SNR 6 snr_one] = S754_nan
  /\ ~ is_max_SNR
         (maxSNR [frame_with_SNR 7 S754_nan; frame_with_SNR 6 snr_one])
         [frame_with_SNR 7 S754_nan; frame_with_SNR 6 snr_one].
Proof.
  split; [reflexivity|].
  intros [_ Hmax]. inversion Hmax as [|? ? H1 _]. discriminate H1.
Qed.

End MaxSNRFacts.

(** ** [handleDownlinkADR] *)

Section DownlinkFacts.

Variable ext : Externals.
Variable n : networkServer.

Local Opaque FramesHistorySize maxSNR float32_of_int lossPercentage.

Ltac run_down :=
  unfold handleDownlinkADR, call, handleDownlinkADR_body, adrProposal,
    bind, when, return_, ret, get, panic, d_ADR, d_modify_ADR; simpl.

Lemma not_lt_length (frames : list Frame) :
  (FramesHistorySize <= List.length frames)%nat ->
  Nat.ltb (List.length frames) FramesHistorySize = false.
Proof. intros H. now apply Nat.ltb_ge. Qed.

(** C4, as the code has it.  The exits on [SendReq] false, [Failed > 0], a
    history shorter than the window and an empty stored data rate return
    success and leave device and message as they were; the exit on an empty
    stored band does the same except that a margin of 0 has already been
    replaced by [DefaultADRMargin]. *)
Theorem handleDownlinkADR_early_exits (message : DownlinkMessage)
  (dev : Device) :
  let unchanged := Returned None {| d_message := message; d_dev := dev |} in
  (SendReq (ADR dev) = false ->
   handleDownlinkADR ext n message dev = unchanged)
  /\ (SendReq (ADR dev) = true -> 0 < Failed (ADR dev) ->
      handleDownlinkADR ext n message dev = unchanged)
  /\ (forall h lookupErr,
        SendReq (ADR dev) = true -> Failed (ADR dev) <= 0 ->
        devices_Frames n (AppEUI dev) (DevEUI dev) = (Some h, lookupErr) ->
        getFails h = None ->
        ((List.length (samples h) < FramesHistorySize)%nat ->
         handleDownlinkADR ext n message dev = unchanged)
        /\ ((FramesHistorySize <= List.length (samples h))%nat ->
            DataRate (ADR dev) = EmptyString ->
            handleDownlinkADR ext n message dev = unchanged)
        /\ ((FramesHistorySize <= List.length (samples h))%nat ->
            DataRate (ADR dev) <> EmptyString -> Band (ADR dev) = EmptyString ->
            handleDownlinkADR ext n message dev
            = Returned None
                {| d_message := message;
                   d_dev := with_ADR dev
                              (set_Margin
                                 (if Margin (ADR dev) =? 0
                                  then DefaultADRMargin else Margin (ADR dev))
                                 (ADR dev)) |}
            /\ (Margin (ADR dev) <> 0 ->
                handleDownlinkADR ext n message dev = unchanged))).
Proof.
  intros unchanged. subst unchanged. split; [|split].
  - intros H. run_down. now rewrite H.
  - intros H1 H2. run_down. rewrite H1. simpl.
    apply Z.ltb_lt in H2. now rewrite H2.
  - intros h lookupErr H1 H2 Hlook Hget.
    assert (HF : (0 <? Failed (ADR dev)) = false) by now apply Z.ltb_ge.
    split; [|split].
    + intros Hlen. run_down. rewrite H1, HF. simpl. rewrite Hlook.
      unfold history_Get. rewrite Hget.
      apply Nat.ltb_lt in Hlen. now rewrite Hlen.
    + intros Hlen Hdr. run_down. rewrite H1, HF. simpl. rewrite Hlook.
      unfold history_Get. rewrite Hget, (not_lt_length _ Hlen), Hdr.
      reflexivity.
    + intros Hlen Hdr Hband.
      apply String.eqb_neq in Hdr.
      assert (Hrun :
        handleDownlinkADR ext n message dev
        = Returned None
            {| d_message := message;
               d_dev := with_ADR dev
                          (set_Margin
                             (if Margin (ADR dev) =? 0
                              then DefaultADRMargin else Margin (ADR dev))
                             (ADR dev)) |}).
      { run_down. rewrite H1, HF. simpl. rewrite Hlook.
        unfold history_Get. rewrite Hget, (not_lt_length _ Hlen), Hdr, Hband.
        simpl. destruct (Margin (ADR dev) =? 0) eqn:HM; simpl.
        - reflexivity.
        - destruct dev as [app deveui [] dis]. reflexivity. }
      split; [exact Hrun|].
      intros HM. rewrite Hrun. apply Z.eqb_neq in HM. rewrite HM.
      destruct dev as [app deveui [] dis]. reflexivity.
Qed.


Ltac split_defaults dev :=
  destruct (Margin (ADR dev) =? 0) eqn:?HM,
           (TxPower (ADR dev) =? 0) eqn:?HT,
           (NbTrans (ADR dev) =? 0) eqn:?HN.

(** C3, as the code has it.  When the plan reports that ADR is unavailable
    the handler returns success and queues no command; the device is left
    with the defaults applied (a margin, power or retransmission count of 0
    replaced by its default), so unchanged when none of the three was 0. *)
Theorem handleDownlinkADR_ADR_unavailable (message : DownlinkMessage)
  (dev : Device) (h : FrameHistory) (lookupErr : option error)
  (fp : FrequencyPlan) (dataRate : string) (txPower : Z) :
  SendReq (ADR dev) = true -> Failed (ADR dev) <= 0 ->
  devices_Frames n (AppEUI dev) (DevEUI dev) = (Some h, lookupErr) ->
  getFails h = None ->
  (FramesHistorySize <= List.length (samples h))%nat ->
  DataRate (ADR dev) <> EmptyString -> Band (ADR dev) <> EmptyString ->
  band_Get ext (Band (ADR dev)) = (fp, None) ->
  fp_ADRSettings fp (DataRate (ADR dev))
    (TxPower (withDefaults fp (ADR dev)))
    (maxSNR (firstn FramesHistorySize (samples h)))
    (float32_of_int (Margin (withDefaults fp (ADR dev))))
  = (dataRate, txPower, Some ErrADRUnavailable) ->
  handleDownlinkADR ext n message dev
  = Returned None {| d_message := message;
                     d_dev := with_ADR dev (withDefaults fp (ADR dev)) |}
  /\ (Margin (ADR dev) <> 0 -> TxPower (ADR dev) <> 0 ->
      NbTrans (ADR dev) <> 0 ->
      handleDownlinkADR ext n message dev
      = Returned None {| d_message := message; d_dev := dev |}).
Proof.
  intros H1 H2 Hlook Hget Hlen Hdr Hband Hfp Hadr.
  assert (HF : (0 <? Failed (ADR dev)) = false) by now apply Z.ltb_ge.
  apply String.eqb_neq in Hdr, Hband.
  assert (Hrun :
    handleDownlinkADR ext n message dev
    = Returned None {| d_message := message;
                       d_dev := with_ADR dev (withDefaults fp (ADR dev)) |}).
  { run_down. rewrite H1, HF. simpl. rewrite Hlook.
    unfold history_Get. rewrite Hget, (not_lt_length _ Hlen), Hdr, Hband, Hfp.
    simpl. unfold withDefaults in *. simpl in Hadr.
    split_defaults dev; simpl; rewrite Hadr; simpl;
      destruct dev as [app deveui [] dis]; simpl in *;
      rewrite ?HM, ?HT, ?HN; reflexivity. }
  split; [exact Hrun|].
  intros HM HT HN. rewrite Hrun.
  apply Z.eqb_neq in HM, HT, HN. unfold withDefaults. rewrite HM, HT, HN.
  destruct dev as [app deveui [] dis]. reflexivity.
Qed.

(** C9.  The error returned by the history lookup never reaches the caller:
    the handler behaves the same whatever that error is, and when [Get] on
    the looked-up history fails it is the error of [Get] that is returned. *)
Theorem handleDownlinkADR_lookup_error_dropped (message : DownlinkMessage)
  (dev : Device) :
  (forall e,
     handleDownlinkADR ext (with_lookup_error n e) message dev
     = handleDownlinkADR ext n message dev)
  /\ (forall h lookupErr e,
        SendReq (ADR dev) = true -> Failed (ADR dev) <= 0 ->
        devices_Frames n (AppEUI dev) (DevEUI dev) = (Some h, lookupErr) ->
        getFails h = Some e ->
        handleDownlinkADR ext n message dev
        = Returned (Some e) {| d_message := message; d_dev := dev |}).
Proof.
  split.
  - intros e. run_down.
    destruct (negb (SendReq (ADR dev))); [reflexivity|].
    destruct (0 <? Failed (ADR dev)); [reflexivity|]. simpl.
    destruct (devices_Frames n (AppEUI dev) (DevEUI dev)) as [history le].
    reflexivity.
  - intros h lookupErr e H1 H2 Hlook Hget.
    assert (HF : (0 <? Failed (ADR dev)) = false) by now apply Z.ltb_ge.
    run_down. rewrite H1, HF. simpl. rewrite Hlook.
    unfold history_Get. now rewrite Hget.
Qed.


Ltac scrutinee t :=
  lazymatch t with
  | match ?c with _ => _ end => scrutinee c
  | ?f ?x =>
      lazymatch f with
      | match _ with _ => _ end => scrutinee f
      | _ => constr:(t)
      end
  | _ => constr:(t)
  end.

Ltac head_case H :=
  lazymatch type of H with
  | ?lhs = _ =>
      lazymatch lhs with
      | Return _ _ => fail
      | Next _ _ => fail
      | Panic => fail
      | _ => let c := scrutinee lhs in destruct c eqn:?; simpl in H
      end
  end.

Ltac use_facts :=
  repeat match goal with
    | E : ?x = _ |- context [?x] => rewrite E; simpl
    end.

Ltac run_proposal :=
  unfold adrProposal, bind, when, return_, ret, get, panic, d_ADR,
    d_modify_ADR, with_ADR, set_Margin, set_TxPower, set_NbTrans; simpl.

(** A no-op exit of the first part leaves the state at a fixed point: run
    again on the state it left, the first part takes the same exit and
    changes nothing. *)
Lemma adrProposal_exit_stable (s s1 : DownlinkState) (e : option error) :
  adrProposal ext n s = Return e s1 ->
  adrProposal ext n s1 = Return e s1.
Proof.
  destruct s as [message [app deveui [band margin sendreq dr txp nb failed] dis]].
  run_proposal. intros H.
  repeat head_case H.
  all: try discriminate H.
  all: injection H as <- <-; simpl.
  all: use_facts.
  all: try reflexivity.
  all: try (destruct (DefaultTXPower _ =? 0) eqn:?; simpl; use_facts;
            try reflexivity).
  all: try (match goal with e : error |- _ => destruct e end;
            simpl in *; try discriminate; reflexivity).
Qed.

(** The first part never touches the message. *)
Lemma adrProposal_exit_message (s s1 : DownlinkState) (e : option error) :
  adrProposal ext n s = Return e s1 -> d_message s1 = d_message s.
Proof.
  destruct s as [message [app deveui [band margin sendreq dr txp nb failed] dis]].
  run_proposal. intros H.
  repeat head_case H.
  all: try discriminate H.
  all: injection H as <- <-; reflexivity.
Qed.

(** C2, as the code has it.  When an invocation ends at one of its no-op
    exits (an early exit, ADR unavailable, or the tuple comparison matching),
    it queues no command, and a second invocation on the state it left
    returns the same result and changes nothing. *)
Theorem handleDownlinkADR_noop_is_stable (message : DownlinkMessage)
  (dev : Device) (e : option error) (s1 : DownlinkState) :
  adrProposal ext n {| d_message := message; d_dev := dev |} = Return e s1 ->
  handleDownlinkADR ext n message dev = Returned e s1
  /\ d_message s1 = message
  /\ handleDownlinkADR ext n (d_message s1) (d_dev s1) = Returned e s1.
Proof.
  intros H. split; [|split].
  - unfold handleDownlinkADR, call, handleDownlinkADR_body, bind.
    now rewrite H.
  - now apply adrProposal_exit_message in H.
  - apply adrProposal_exit_stable in H.
    unfold handleDownlinkADR, call, handleDownlinkADR_body, bind.
    destruct s1 as [m1 d1]. simpl. now rewrite H.
Qed.

(** When the first part hands over a proposal, its retransmission count is
    the one computed by lines 143 to 162 on the selected window. *)
Lemma adrProposal_nbTrans (s s1 : DownlinkState) (p : Proposal) :
  adrProposal ext n s = Next p s1 ->
  exists h lookupErr,
    devices_Frames n (AppEUI (d_dev s)) (DevEUI (d_dev s)) = (Some h, lookupErr)
    /\ p_nbTrans p
       = nbTransFor ext (d_dev s1) (p_dataRate p) (p_txPower p)
                    (firstn FramesHistorySize (samples h))
    /\ d_message s1 = d_message s.
Proof.
  destruct s as [message [app deveui [band margin sendreq dr txp nb failed] dis]].
  unfold adrProposal, bind, when, return_, ret, get, panic, d_ADR,
    d_modify_ADR. simpl. intros H.
  repeat head_case H.
  all: try discriminate H.
  all: injection H as <- <-; simpl.
  all: match goal with
       | Hget : history_Get ?h = (?l, None) |- _ =>
           exists h; eexists; split; [reflexivity|];
           unfold history_Get in Hget; destruct (getFails h);
           [discriminate Hget|]; injection Hget as <-
       end.
  all: split; reflexivity.
Qed.

(** The second part persists the proposed settings and splices the fresh
    command into the list: the new list is [spliceLinkADRReq] of the old
    one. *)
Lemma setLinkADRReq_splices (p : Proposal) (s s' : DownlinkState) :
  setLinkADRReq ext p s = Next tt s' ->
  DataRate (ADR (d_dev s')) = p_dataRate p
  /\ TxPower (ADR (d_dev s')) = p_txPower p
  /\ NbTrans (ADR (d_dev s')) = p_nbTrans p
  /\ exists responsePayload,
       FOpts (d_message s')
       = spliceLinkADRReq (FOpts (d_message s)) responsePayload.
Proof.
  unfold setLinkADRReq, bind, get, put, panic, d_modify_ADR. simpl.
  destruct (buildChMask _ _ _ _) as [chMask|]; [|discriminate].
  intros H. injection H as <-. simpl.
  repeat split. eexists. reflexivity.
Qed.

Lemma int_in_range (z : Z) : min_int <= z <= max_int -> int z = z.
Proof.
  unfold int, min_int, max_int. intros H.
  rewrite Z.mod_small; lia.
Qed.

Lemma clamp_as_written (raw : Z) :
  (if 3 <? (if raw <? 1 then 1 else raw) then 3
   else if raw <? 1 then 1 else raw) = clampNbTrans raw.
Proof.
  unfold clampNbTrans.
  destruct (Z.ltb_spec raw 1); destruct (Z.ltb_spec 3 raw);
    try destruct (Z.ltb_spec 3 1); lia.
Qed.

Lemma clampNbTrans_range (raw : Z) : 1 <= clampNbTrans raw <= 3.
Proof. unfold clampNbTrans. lia. Qed.


(** Away from the ends of the [int] range the count moves without
    wrapping. *)
Lemma nbTransStep_no_wrap (nb loss : Z) :
  min_int < nb -> nb + 2 <= max_int ->
  int (nb + nbTransStep loss) = nb + nbTransStep loss.
Proof.
  intros H1 H2. apply int_in_range. unfold nbTransStep.
  destruct (loss <=? 5), (loss <=? 10), (loss <=? 30); lia.
Qed.

End DownlinkFacts.

(** ** [handleUplinkADR] *)

Section UplinkFacts.

Variable ext : Externals.
Variable n : networkServer.

Ltac run_up :=
  unfold handleUplinkADR, call, handleUplinkADR_body, u_history_call,
    u_modify_ADR, u_modify_n, u_modify_message, bind, when, return_, ret,
    get, panic; simpl.



End UplinkFacts.

(** ** The handlers on sample inputs *)

Section HandlerExamples.

(** C2 as stated fails: on a loss-free window, with a plan that keeps data
    rate and power, a device at three transmissions is moved to two by a
    first invocation and to one by a second, which queues a new command. *)
Lemma handleDownlinkADR_second_call_not_noop :
  handleDownlinkADR (externals_with steady_plan) (server_with full_window)
    no_commands (sample_device (sample_ADR band 15 3))
  = Returned None {| d_message := one_LinkADRReq 2;
                     d_dev := sample_device (sample_ADR band 15 2) |}
  /\ handleDownlinkADR (externals_with steady_plan) (server_with full_window)
       (one_LinkADRReq 2) (sample_device (sample_ADR band 15 2))
     = Returned None {| d_message := one_LinkADRReq 1;
                        d_dev := sample_device (sample_ADR band 15 1) |}
  /\ one_LinkADRReq 1 <> one_LinkADRReq 2
  /\ sample_device (sample_ADR band 15 1)
     <> sample_device (sample_ADR band 15 2).
Proof.
  split; [vm_compute; reflexivity|].
  split; [vm_compute; reflexivity|].
  split; discriminate.
Qed.

Lemma handleDownlinkADR_noop_is_stable_witness :
  adrProposal (externals_with steady_plan) (server_with full_window)
    {| d_message := one_LinkADRReq 1;
       d_dev := sample_device (sample_ADR band 15 1) |}
  = Return None {| d_message := one_LinkADRReq 1;
                   d_dev := sample_device (sample_ADR band 15 1) |}
  /\ handleDownlinkADR (externals_with steady_plan) (server_with full_window)
       (one_LinkADRReq 1) (sample_device (sample_ADR band 15 1))
     = Returned None {| d_message := one_LinkADRReq 1;
                        d_dev := sample_device (sample_ADR band 15 1) |}.
Proof.
  assert (H : adrProposal (externals_with steady_plan)
                (server_with full_window)
                {| d_message := one_LinkADRReq 1;
                   d_dev := sample_device (sample_ADR band 15 1) |}
              = Return None {| d_message := one_LinkADRReq 1;
                               d_dev := sample_device (sample_ADR band 15 1) |})
    by (vm_compute; reflexivity).
  split; [exact H|].
  exact (proj1 (handleDownlinkADR_noop_is_stable _ _ _ _ _ _ H)).
Defined.

(** C3 as stated fails: with a margin of 0 the device does not come back
    unchanged from an ADR-unavailable answer, its margin is now the
    default. *)
Lemma handleDownlinkADR_ADR_unavailable_changes_margin :
  handleDownlinkADR (externals_with unavailable_plan)
    (server_with full_window) no_commands
    (sample_device (sample_ADR band 0 1))
  = Returned None {| d_message := no_commands;
                     d_dev := sample_device (sample_ADR band 15 1) |}
  /\ sample_device (sample_ADR band 15 1)
     <> sample_device (sample_ADR band 0 1).
Proof. split; [vm_compute; reflexivity | discriminate]. Qed.

Lemma handleDownlinkADR_ADR_unavailable_witness :
  handleDownlinkADR (externals_with unavailable_plan)
    (server_with full_window) no_commands
    (sample_device (sample_ADR band 15 1))
  = Returned None {| d_message := no_commands;
                     d_dev := sample_device (sample_ADR band 15 1) |}.
Proof.
  refine (proj2 (handleDownlinkADR_ADR_unavailable
                   (externals_with unavailable_plan)
                   (server_with full_window) no_commands
                   (sample_device (sample_ADR band 15 1))
                   (history_of full_window) None unavailable_plan
                   "SF7BW125" 14 _ _ _ _ _ _ _ _ _) _ _ _);
    try reflexivity; try discriminate;
    try (vm_compute; discriminate);
    try (vm_compute; intros H; discriminate H).
Defined.

(** C4 as stated fails at the exit on an empty band: the margin of 0 has
    been replaced by the default before the band is looked at. *)
Lemma handleDownlinkADR_empty_band_changes_margin :
  handleDownlinkADR (externals_with steady_plan) (server_with full_window)
    no_commands (sample_device (sample_ADR EmptyString 0 1))
  = Returned None {| d_message := no_commands;
                     d_dev := sample_device (sample_ADR EmptyString 15 1) |}
  /\ sample_device (sample_ADR EmptyString 15 1)
     <> sample_device (sample_ADR EmptyString 0 1).
Proof. split; [vm_compute; reflexivity | discriminate]. Qed.

Lemma handleDownlinkADR_early_exits_witness :
  handleDownlinkADR (externals_with steady_plan) (server_with full_window)
    no_commands (sample_device (sample_ADR EmptyString 15 1))
  = Returned None {| d_message := no_commands;
                     d_dev := sample_device (sample_ADR EmptyString 15 1) |}.
Proof.
  refine (proj2 (proj2 (proj2
            (proj2 (proj2 (handleDownlinkADR_early_exits
                             (externals_with steady_plan)
                             (server_with full_window) no_commands
                             (sample_device (sample_ADR EmptyString 15 1))))
               (history_of full_window) None _ _ _ _)) _ _ _) _);
    try reflexivity; try discriminate;
    try (vm_compute; discriminate);
    try (vm_compute; intros H; discriminate H).
Defined.


Lemma handleDownlinkADR_lookup_error_dropped_witness :
  handleDownlinkADR (externals_with steady_plan) unreadable_server
    no_commands (sample_device (sample_ADR band 15 1))
  = Returned (Some (ErrOther "get failed"))
      {| d_message := no_commands;
         d_dev := sample_device (sample_ADR band 15 1) |}.
Proof.
  refine (proj2 (handleDownlinkADR_lookup_error_dropped
                   (externals_with steady_plan) unreadable_server
                   no_commands (sample_device (sample_ADR band 15 1)))
            unreadable_history (Some (ErrOther "lookup failed"))
            (ErrOther "get failed") _ _ _ _);
    try reflexivity; try (vm_compute; discriminate).
Defined.



End HandlerExamples.

(** ** Rounding in [float64] arithmetic

    What the operations of [SpecFloat] do on the operands that
    [lossPercentage] gives them: positive mantissas of at least 53 digits,
    far from overflow and underflow. *)

Section RoundingFacts.

(** The number of binary digits brackets the number. *)
Lemma digits2_pos_bounds (p : positive) :
  2 ^ (Z.pos (digits2_pos p) - 1) <= Z.pos p < 2 ^ Z.pos (digits2_pos p).
Proof.
  induction p as [p IH|p IH|]; simpl digits2_pos.
  - rewrite Pos2Z.inj_succ.
    replace (Z.succ (Z.pos (digits2_pos p)) - 1)
      with (Z.succ (Z.pos (digits2_pos p) - 1)) by lia.
    rewrite !Z.pow_succ_r by lia. lia.
  - rewrite Pos2Z.inj_succ.
    replace (Z.succ (Z.pos (digits2_pos p)) - 1)
      with (Z.succ (Z.pos (digits2_pos p) - 1)) by lia.
    rewrite !Z.pow_succ_r by lia. lia.
  - simpl. lia.
Qed.

(** Conversely a bracket by two consecutive powers fixes the number of
    digits. *)
Lemma digits2_pos_unique (p : positive) (g : Z) :
  2 ^ (g - 1) <= Z.pos p < 2 ^ g -> Z.pos (digits2_pos p) = g.
Proof.
  intros [Hlo Hhi]. pose proof (digits2_pos_bounds p) as [Dlo Dhi].
  assert (Hg : 0 < g).
  { destruct (Z.ltb_spec 0 g); [assumption|].
    assert (2 ^ g <= 1).
    { destruct (Z.eq_dec g 0) as [->|]; [simpl; lia|].
      rewrite Z.pow_neg_r; lia. }
    lia. }
  destruct (Z.lt_trichotomy (Z.pos (digits2_pos p)) g) as [H|[H|H]];
    [|exact H|].
  - assert (2 ^ Z.pos (digits2_pos p) <= 2 ^ (g - 1))
      by (apply Z.pow_le_mono_r; lia).
    lia.
  - assert (2 ^ g <= 2 ^ (Z.pos (digits2_pos p) - 1))
      by (apply Z.pow_le_mono_r; lia).
    lia.
Qed.

Lemma shr_1_m (mrs : shr_record) :
  0 <= shr_m mrs -> shr_m (shr_1 mrs) = shr_m mrs / 2.
Proof.
  destruct mrs as [m r s]. simpl. intros Hm.
  destruct m as [|[p|p|]|p]; simpl; try reflexivity; try lia.
  - rewrite Pos2Z.inj_xI.
    apply Z.div_unique with (r := 1); lia.
  - rewrite (Pos2Z.inj_xO p).
    apply Z.div_unique with (r := 0); lia.
Qed.

Lemma shr_1_nonneg (mrs : shr_record) :
  0 <= shr_m mrs -> 0 <= shr_m (shr_1 mrs).
Proof.
  intros H. rewrite shr_1_m by assumption. apply Z.div_pos; lia.
Qed.

Lemma iter_shr_1_m (p : positive) (mrs : shr_record) :
  0 <= shr_m mrs ->
  0 <= shr_m (iter_pos shr_1 p mrs)
  /\ shr_m (iter_pos shr_1 p mrs) = shr_m mrs / 2 ^ Z.pos p.
Proof.
  revert mrs. induction p as [p IH|p IH|]; intros mrs Hm; simpl iter_pos.
  - pose proof (shr_1_nonneg mrs Hm) as H1.
    destruct (IH (shr_1 mrs) H1) as [H2 E2].
    destruct (IH _ H2) as [H3 E3].
    split; [exact H3|].
    rewrite E3, E2, shr_1_m by assumption.
    rewrite !Z.div_div by lia.
    f_equal. rewrite Pos2Z.inj_xI.
    replace (2 * Z.pos p + 1) with (1 + Z.pos p + Z.pos p) by lia.
    rewrite !Z.pow_add_r by lia. simpl (2 ^ 1). lia.
  - destruct (IH mrs Hm) as [H2 E2].
    destruct (IH _ H2) as [H3 E3].
    split; [exact H3|].
    rewrite E3, E2, Z.div_div by lia.
    f_equal. rewrite (Pos2Z.inj_xO p).
    replace (2 * Z.pos p) with (Z.pos p + Z.pos p) by lia.
    rewrite Z.pow_add_r by lia. reflexivity.
  - split; [now apply shr_1_nonneg|].
    now rewrite shr_1_m.
Qed.

Lemma iter_xO_mul (k p : positive) :
  Z.pos (Pos.iter xO p k) = Z.pos p * 2 ^ Z.pos k.
Proof.
  induction k as [|k IH] using Pos.peano_ind.
  - simpl. lia.
  - rewrite Pos.iter_succ, (Pos2Z.inj_xO (Pos.iter xO p k)), IH,
      Pos2Z.inj_succ, Z.pow_succ_r by lia.
    lia.
Qed.

Lemma round_nearest_even_cases (m : Z) (l : location) :
  round_nearest_even m l = m \/ round_nearest_even m l = m + 1.
Proof.
  destruct l as [|[]]; simpl; auto. destruct (Z.even m); auto.
Qed.


Lemma shr_record_of_loc_m (m : Z) (l : location) :
  shr_m (shr_record_of_loc m l) = m.
Proof. destruct l as [|[]]; reflexivity. Qed.

(** The shift that brings a mantissa of at least 53 digits down to 53. *)
Lemma shr_fexp_spec (m : positive) (e : Z) (l : location) :
  53 <= Z.pos (digits2_pos m) ->
  -1074 <= Z.pos (digits2_pos m) + e - 53 ->
  exists mrs,
    shr_fexp 53 1024 (Z.pos m) e l = (mrs, Z.pos (digits2_pos m) + e - 53)
    /\ shr_m mrs = Z.pos m / 2 ^ (Z.pos (digits2_pos m) - 53)
    /\ (Z.pos (digits2_pos m) = 53 -> mrs = shr_record_of_loc (Z.pos m) l).
Proof.
  intros Hd He. unfold shr_fexp, fexp, emin. simpl Zdigits2.
  replace (3 - 1024 - 53) with (-1074) by reflexivity.
  rewrite Z.max_l by lia.
  replace (Z.pos (digits2_pos m) + e - 53 - e)
    with (Z.pos (digits2_pos m) - 53) by lia.
  destruct (Z.pos (digits2_pos m) - 53) as [|k|k] eqn:Hk; try lia.
  - exists (shr_record_of_loc (Z.pos m) l). unfold shr. split; [|split].
    + f_equal. lia.
    + rewrite shr_record_of_loc_m. simpl. now rewrite Z.div_1_r.
    + reflexivity.
  - exists (iter_pos shr_1 k (shr_record_of_loc (Z.pos m) l)). unfold shr.
    split; [|split].
    + f_equal. lia.
    + assert (H0 : 0 <= shr_m (shr_record_of_loc (Z.pos m) l))
        by (rewrite shr_record_of_loc_m; lia).
      destruct (iter_shr_1_m k _ H0) as [_ ->].
      now rewrite shr_record_of_loc_m.
    + lia.
Qed.

Lemma top53_bounds (m : positive) :
  53 <= Z.pos (digits2_pos m) ->
  2 ^ 52 <= Z.pos m / 2 ^ (Z.pos (digits2_pos m) - 53) < 2 ^ 53.
Proof.
  intros Hd. pose proof (digits2_pos_bounds m) as [Hlo Hhi].
  set (d := Z.pos (digits2_pos m)) in *.
  assert (Hp : 0 < 2 ^ (d - 53)) by (apply Z.pow_pos_nonneg; lia).
  assert (E1 : 2 ^ (d - 1) = 2 ^ 52 * 2 ^ (d - 53)).
  { rewrite <- Z.pow_add_r by lia. f_equal. lia. }
  assert (E2 : 2 ^ d = 2 ^ 53 * 2 ^ (d - 53)).
  { rewrite <- Z.pow_add_r by lia. f_equal. lia. }
  split.
  - apply Z.div_le_lower_bound; lia.
  - apply Z.div_lt_upper_bound; lia.
Qed.

(** Rounding a positive mantissa of at least 53 digits: the result is the
    mantissa cut to 53 digits, or its successor, at the matching exponent. *)
Lemma round_aux_faithful (mx : positive) (ex : Z) (lx : location) :
  53 <= Z.pos (digits2_pos mx) ->
  -1074 <= Z.pos (digits2_pos mx) + ex - 53 ->
  Z.pos (digits2_pos mx) + ex <= 1023 ->
  exists m2 e2 M,
    binary_round_aux 53 1024 false (Z.pos mx) ex lx = S754_finite false m2 e2
    /\ 2 ^ 52 <= Z.pos m2 < 2 ^ 53
    /\ (M = Z.pos mx / 2 ^ (Z.pos (digits2_pos mx) - 53)
        \/ M = Z.pos mx / 2 ^ (Z.pos (digits2_pos mx) - 53) + 1)
    /\ ((e2 = Z.pos (digits2_pos mx) + ex - 53 /\ Z.pos m2 = M)
        \/ (e2 = Z.pos (digits2_pos mx) + ex - 52 /\ Z.pos m2 = 2 ^ 52
            /\ M = 2 ^ 53))
    /\ (Z.pos (digits2_pos mx) = 53 -> lx = loc_Exact ->
        m2 = mx /\ e2 = ex).
Proof.
  intros Hd Hlo Hhi.
  destruct (shr_fexp_spec mx ex lx Hd Hlo) as (mrs & E1 & Em & Eexact).
  pose proof (top53_bounds mx Hd) as HM.
  set (d := Z.pos (digits2_pos mx)) in *.
  set (M0 := Z.pos mx / 2 ^ (d - 53)) in *.
  unfold binary_round_aux. rewrite E1.
  set (R := round_nearest_even (shr_m mrs) (loc_of_shr_record mrs)).
  assert (HR : R = M0 \/ R = M0 + 1).
  { subst R. rewrite Em. apply round_nearest_even_cases. }
  assert (HRpos : 0 < R) by lia.
  destruct R as [|r|r] eqn:ER; try lia.
  assert (Hexact : d = 53 -> lx = loc_Exact -> Z.pos r = Z.pos mx).
  { intros H53 ->. rewrite <- ER. subst R. rewrite (Eexact H53). reflexivity. }
  destruct (Z.ltb_spec (Z.pos r) (2 ^ 53)) as [Hlt|Hge].
  - assert (Hdr : Z.pos (digits2_pos r) = 53)
      by (apply digits2_pos_unique; simpl (53 - 1); lia).
    destruct (shr_fexp_spec r (d + ex - 53) loc_Exact) as (mrs2 & E2 & Em2 & Ex2);
      [lia|lia|].
    rewrite E2. rewrite (Ex2 Hdr). simpl shr_m.
    replace (Z.pos (digits2_pos r) + (d + ex - 53) - 53 <=? 1024 - 53)
      with true by (symmetry; apply Z.leb_le; lia).
    exists r, (Z.pos (digits2_pos r) + (d + ex - 53) - 53), (Z.pos r).
    split; [reflexivity|]. split; [lia|]. split; [exact HR|].
    split; [left; split; [lia|reflexivity]|].
    intros H53 Hl. specialize (Hexact H53 Hl). split; [congruence|lia].
  - assert (Er : Z.pos r = 2 ^ 53) by lia.
    assert (Hdr : Z.pos (digits2_pos r) = 54)
      by (apply digits2_pos_unique; simpl (54 - 1); rewrite Er; simpl; lia).
    destruct (shr_fexp_spec r (d + ex - 53) loc_Exact) as (mrs2 & E2 & Em2 & _);
      [lia|lia|].
    rewrite E2, Em2, Hdr, Er.
    replace (2 ^ 53 / 2 ^ (54 - 53)) with (Z.pos 4503599627370496)
      by reflexivity.
    replace (54 + (d + ex - 53) - 53 <=? 1024 - 53)
      with true by (symmetry; apply Z.leb_le; lia).
    exists 4503599627370496%positive, (54 + (d + ex - 53) - 53), (Z.pos r).
    split; [reflexivity|]. split; [simpl; lia|]. split; [exact HR|].
    split; [right; split; [lia|split; [reflexivity|exact Er]]|].
    intros H53 Hl. specialize (Hexact H53 Hl).
    pose proof (digits2_pos_bounds mx) as Hb. fold d in Hb.
    rewrite H53 in Hb. lia.
Qed.


(** An integer below [2^53] converts exactly, to a 53-digit mantissa. *)
Lemma float64_of_int_spec (z : Z) :
  0 < z < 2 ^ 53 ->
  exists m e,
    float64_of_int z = S754_finite false m e
    /\ 2 ^ 52 <= Z.pos m < 2 ^ 53
    /\ -52 <= e <= 0
    /\ Z.pos m = z * 2 ^ (- e).
Proof.
  intros [Hpos Hlt]. destruct z as [|p|p]; try lia.
  pose proof (digits2_pos_bounds p) as [Dlo Dhi].
  set (d := Z.pos (digits2_pos p)) in *.
  assert (Hd1 : 1 <= d) by (subst d; lia).
  assert (Hd53 : d <= 53).
  { destruct (Z.leb_spec d 53); [assumption|].
    assert (2 ^ 53 <= 2 ^ (d - 1)) by (apply Z.pow_le_mono_r; lia). lia. }
  unfold float64_of_int, binary_normalize, binary_round, fexp, emin, prec64,
    emax64.
  fold d. replace (3 - 1024 - 53) with (-1074) by reflexivity.
  rewrite Z.max_l by lia.
  unfold shl_align.
  destruct (d + 0 - 53 - 0) as [|k|k] eqn:Hk; try lia.
  - assert (Hdig : Z.pos (digits2_pos p) = 53) by (fold d; lia).
    destruct (round_aux_faithful p 0 loc_Exact) as
      (m2 & e2 & M & E & Hm & _ & _ & Hex); try lia.
    destruct (Hex Hdig eq_refl) as [-> ->].
    exists p, 0. split; [exact E|]. split; [exact Hm|]. split; [lia|].
    simpl. lia.
  - assert (Ek : Z.pos k = 53 - d) by lia.
    pose proof (iter_xO_mul k p) as Emz.
    set (mz := Pos.iter xO p k) in *.
    assert (Hp2 : 2 ^ 52 = 2 ^ (d - 1) * 2 ^ Z.pos k).
    { rewrite <- Z.pow_add_r by lia. f_equal. lia. }
    assert (Hp3 : 2 ^ 53 = 2 ^ d * 2 ^ Z.pos k).
    { rewrite <- Z.pow_add_r by lia. f_equal. lia. }
    assert (Hpk : 0 < 2 ^ Z.pos k) by (apply Z.pow_pos_nonneg; lia).
    assert (Hmz : 2 ^ 52 <= Z.pos mz < 2 ^ 53).
    { rewrite Emz, Hp2, Hp3. split.
      - apply Z.mul_le_mono_nonneg_r; lia.
      - apply Z.mul_lt_mono_pos_r; lia. }
    assert (Hdig : Z.pos (digits2_pos mz) = 53)
      by (apply digits2_pos_unique; simpl (53 - 1); exact Hmz).
    destruct (round_aux_faithful mz (d + 0 - 53) loc_Exact) as
      (m2 & e2 & M & E & Hm & _ & _ & Hex); try lia.
    destruct (Hex Hdig eq_refl) as [-> ->].
    exists mz, (d + 0 - 53). split; [exact E|]. split; [exact Hmz|].
    split; [lia|].
    rewrite Emz. f_equal. f_equal. lia.
Qed.


Lemma pow2_pos (k : Z) : 0 <= k -> 0 < 2 ^ k.
Proof. intros H. apply Z.pow_pos_nonneg; lia. Qed.

(** The quotient of two converted integers [a < b] with [a/b >= 1/2]: the
    53-bit truncation [a * 2^53 / b] of the exact quotient, or its
    successor, in units of [2^-53]. *)
Lemma div64_of_ints (a b : Z) :
  0 < a -> a < b -> b < 2 ^ 53 -> 2 ^ 52 <= a * 2 ^ 53 / b ->
  exists m e M,
    div64 (float64_of_int a) (float64_of_int b) = S754_finite false m e
    /\ 2 ^ 52 <= Z.pos m < 2 ^ 53
    /\ (M = a * 2 ^ 53 / b \/ M = a * 2 ^ 53 / b + 1)
    /\ ((e = -53 /\ Z.pos m = M)
        \/ (e = -52 /\ Z.pos m = 2 ^ 52 /\ M = 2 ^ 53)).
Proof.
  intros Ha Hab Hb HT.
  destruct (float64_of_int_spec a) as (ma & ea & Ea & Hma & Hea & Va); [lia|].
  destruct (float64_of_int_spec b) as (mb & eb & Eb & Hmb & Heb & Vb); [lia|].
  rewrite Ea, Eb.
  assert (Hda : Z.pos (digits2_pos ma) = 53)
    by (apply digits2_pos_unique; simpl (53 - 1); exact Hma).
  assert (Hdb : Z.pos (digits2_pos mb) = 53)
    by (apply digits2_pos_unique; simpl (53 - 1); exact Hmb).
  (* the exponent of [a] is not above the exponent of [b] *)
  assert (Hle : ea <= eb).
  { destruct (Z.leb_spec ea eb); [assumption|].
    assert (Hp : 2 ^ (- eb) = 2 ^ (- ea) * 2 ^ (ea - eb)).
    { rewrite <- Z.pow_add_r by lia. f_equal. lia. }
    assert (2 <= 2 ^ (ea - eb)).
    { change 2 with (2 ^ 1) at 1. apply Z.pow_le_mono_r; lia. }
    pose proof (pow2_pos (- ea)). nia. }
  set (k := eb - ea). assert (Hk : 0 <= k) by (subst k; lia).
  assert (Hpk : 0 < 2 ^ k) by (apply pow2_pos; lia).
  assert (Hpb : 0 < 2 ^ (- eb)) by (apply pow2_pos; lia).
  assert (Hpa : 2 ^ (- ea) = 2 ^ k * 2 ^ (- eb)).
  { rewrite <- Z.pow_add_r by lia. f_equal. subst k. lia. }
  set (T := a * 2 ^ 53 / b) in *.
  set (Q := Z.pos ma * 2 ^ 53 / Z.pos mb).
  assert (EQ : Q = a * 2 ^ 53 * 2 ^ k / b).
  { subst Q. rewrite Va, Vb, Hpa.
    replace (a * (2 ^ k * 2 ^ (- eb)) * 2 ^ 53)
      with (a * 2 ^ 53 * 2 ^ k * 2 ^ (- eb)) by ring.
    apply Z.div_mul_cancel_r; lia. }
  assert (ET : Q / 2 ^ k = T).
  { rewrite EQ, Z.div_div by lia. subst T.
    apply Z.div_mul_cancel_r; lia. }
  assert (HTlt : T < 2 ^ 53).
  { subst T. apply Z.div_lt_upper_bound; [lia|]. nia. }
  assert (HQ : T * 2 ^ k <= Q < (T + 1) * 2 ^ k).
  { rewrite <- ET. pose proof (Z.mul_div_le Q (2 ^ k) Hpk).
    pose proof (Z.mul_succ_div_gt Q (2 ^ k) Hpk). lia. }
  assert (HQpos : 0 < Q) by nia.
  destruct Q as [|q|q] eqn:EQq; try lia.
  assert (Hdq : Z.pos (digits2_pos q) = 53 + k).
  { apply digits2_pos_unique.
    replace (53 + k - 1) with (52 + k) by lia.
    rewrite !Z.pow_add_r by lia. nia. }
  unfold div64, SFdiv, SFdiv_core_binary, prec64, emax64, fexp, emin.
  simpl Zdigits2. rewrite Hda, Hdb.
  replace (3 - 1024 - 53) with (-1074) by reflexivity.
  rewrite Z.max_l by lia.
  replace (53 + ea - (53 + eb) - 53) with (ea - eb - 53) by lia.
  rewrite Z.min_l by lia.
  replace (ea - eb - (ea - eb - 53)) with 53 by lia.
  rewrite Z.shiftl_mul_pow2 by lia.
  destruct (IntDef.Z.div_eucl (Z.pos ma * 2 ^ 53) (Z.pos mb))
    as [q' r'] eqn:Hdiv.
  assert (Eq' : q' = Z.pos q).
  { rewrite <- EQq. exact (eq_sym (f_equal fst Hdiv)). }
  subst q'.
  destruct (round_aux_faithful q (ea - eb - 53)
              (new_location (Z.pos mb) r'))
    as (m2 & e2 & M & E & Hm & HM & He & _); try lia.
  rewrite Hdq in HM, He.
  replace (53 + k - 53) with k in HM by lia.
  rewrite ET in HM.
  exists m2, e2, M. split; [exact E|]. split; [exact Hm|].
  split; [exact HM|].
  subst k. destruct He as [[He Hm2]|[He [Hm2 HM2]]].
  - left. split; [lia|exact Hm2].
  - right. split; [lia|]. split; assumption.
Qed.


Lemma c100_value : c100 = S754_finite false 7036874417766400 (-46).
Proof. reflexivity. Qed.

(** Times 100, for a factor between 0.995 and 1 given in units of
    [2^-53]: the product lies between 99.5 and 100 (one unit above at
    most), in units of [2^-46]. *)
Lemma mul64_c100 (m : positive) (e M : Z) :
  199 * 2 ^ 52 <= 100 * M -> M <= 2 ^ 53 ->
  2 ^ 52 <= Z.pos m < 2 ^ 53 ->
  (e = -53 /\ Z.pos m = M) \/ (e = -52 /\ Z.pos m = 2 ^ 52 /\ M = 2 ^ 53) ->
  exists mp,
    mul64 (S754_finite false m e) c100 = S754_finite false mp (-46)
    /\ 199 * 2 ^ 45 <= Z.pos mp <= 100 * 2 ^ 46 + 1.
Proof.
  intros Hlo Hhi Hm Hcase. rewrite c100_value.
  unfold mul64, SFmul, prec64, emax64. simpl xorb.
  set (P := (m * 7036874417766400)%positive).
  assert (EP : Z.pos P = Z.pos m * (100 * 2 ^ 46))
    by (subst P; rewrite Pos2Z.inj_mul; reflexivity).
  destruct Hcase as [[-> Em]|[-> [Em EM]]].
  - assert (Hd : Z.pos (digits2_pos P) = 106)
      by (apply digits2_pos_unique; simpl (106 - 1); lia).
    destruct (round_aux_faithful P (-53 + -46) loc_Exact)
      as (m2 & e2 & M2 & E & Hm2 & HM2 & He & _); try lia.
    rewrite Hd in HM2, He. simpl (106 - 53) in HM2.
    assert (HPlo : 199 * 2 ^ 45 <= Z.pos P / 2 ^ 53)
      by (apply Z.div_le_lower_bound; lia).
    assert (HPhi : Z.pos P / 2 ^ 53 < 100 * 2 ^ 46)
      by (apply Z.div_lt_upper_bound; lia).
    destruct He as [[He Hm2']|[He [Hm2' HM2']]]; [|lia].
    exists m2. split; [rewrite E; f_equal; lia|]. lia.
  - assert (Hd : Z.pos (digits2_pos P) = 105)
      by (apply digits2_pos_unique; simpl (105 - 1); lia).
    destruct (round_aux_faithful P (-52 + -46) loc_Exact)
      as (m2 & e2 & M2 & E & Hm2 & HM2 & He & _); try lia.
    rewrite Hd in HM2, He. simpl (105 - 53) in HM2.
    assert (HP : Z.pos P / 2 ^ 52 = 100 * 2 ^ 46).
    { rewrite EP, Em. symmetry. apply Z.div_unique with (r := 0); lia. }
    rewrite HP in HM2.
    destruct He as [[He Hm2']|[He [Hm2' HM2']]]; [|lia].
    exists m2. split; [rewrite E; f_equal; lia|]. lia.
Qed.

Lemma binary_round_long (s : positive) (e : Z) :
  53 <= Z.pos (digits2_pos s) ->
  binary_round 53 1024 false s e
  = binary_round_aux 53 1024 false (Z.pos s) e loc_Exact.
Proof.
  intros Hd. unfold binary_round, shl_align, fexp.
  destruct (Z.max (Z.pos (digits2_pos s) + e - 53) (emin 53 1024) - e)
    as [|k|k] eqn:Hk; try reflexivity.
  lia.
Qed.

(** Plus one half, for a term between 99.5 and 100: the sum lies between
    100 and 101. *)
Lemma add64_chalf (mp : positive) :
  199 * 2 ^ 45 <= Z.pos mp <= 100 * 2 ^ 46 + 1 ->
  exists ms,
    add64 (S754_finite false mp (-46)) chalf = S754_finite false ms (-46)
    /\ 100 * 2 ^ 46 <= Z.pos ms < 101 * 2 ^ 46.
Proof.
  intros Hmp.
  pose proof (iter_xO_mul 7 mp) as Esh.
  set (sh := Pos.iter xO mp 7) in *.
  set (s := (sh + 4503599627370496)%positive).
  assert (Eadd : add64 (S754_finite false mp (-46)) chalf
                 = binary_round 53 1024 false s (-53)) by reflexivity.
  assert (Es : Z.pos s = Z.pos mp * 2 ^ 7 + 2 ^ 52)
    by (subst s; rewrite Pos2Z.inj_add, Esh; reflexivity).
  assert (Hd : Z.pos (digits2_pos s) = 60)
    by (apply digits2_pos_unique; simpl (60 - 1); lia).
  rewrite Eadd, binary_round_long by lia.
  destruct (round_aux_faithful s (-53) loc_Exact)
    as (m2 & e2 & M2 & E & Hm2 & HM2 & He & _); try lia.
  rewrite Hd in HM2, He. simpl (60 - 53) in HM2.
  assert (HS : Z.pos s / 2 ^ 7 = Z.pos mp + 2 ^ 45).
  { rewrite Es. symmetry. apply Z.div_unique with (r := 0); lia. }
  rewrite HS in HM2.
  destruct He as [[He Hm2']|[He [Hm2' HM2']]]; [|lia].
  exists m2. split; [rewrite E; f_equal; lia|]. lia.
Qed.

(** The floor of a value between 100 and 101, converted to [int]. *)
Lemma floor_100 (undef : float64 -> Z) (ms : positive) :
  100 * 2 ^ 46 <= Z.pos ms < 101 * 2 ^ 46 ->
  int_of_float64 undef (Floor (S754_finite false ms (-46))) = 100.
Proof.
  intros Hms. unfold Floor, floorZ. simpl (0 <=? -46).
  replace (Z.pos ms / 2 ^ (- -46)) with 100.
  - reflexivity.
  - apply Z.div_unique with (r := Z.pos ms - 100 * 2 ^ 46).
    + simpl (- -46). lia.
    + simpl (- -46). lia.
Qed.

End RoundingFacts.

(** ** [lossPercentage] *)

Section LossPercentageFacts.

Variable undef : float64 -> Z.

Lemma lossPercentage_unfold (frames : list Frame) :
  frames <> [] ->
  lossPercentage undef frames
  = int_of_float64 undef
      (lossPercentage_float (lostPackets frames) (sentPackets frames)).
Proof. destruct frames; [congruence|reflexivity]. Qed.

Lemma rounds_exactly_sound (loss sent : Z) :
  rounds_exactly loss sent = true ->
  int_of_float64 undef (lossPercentage_float loss sent)
  = roundPercent loss sent.
Proof.
  unfold rounds_exactly, int_of_float64.
  destruct (float64_to_int (lossPercentage_float loss sent));
    [|discriminate].
  intros H. now apply Z.eqb_eq.
Qed.

Lemma In_Z_range (count : nat) (lo x : Z) :
  lo <= x < lo + Z.of_nat count -> In x (Z_range lo count).
Proof.
  revert lo. induction count as [|count IH]; intros lo H.
  - simpl in H. lia.
  - simpl. destruct (Z.eq_dec lo x) as [->|Hne]; [now left|].
    right. apply IH. lia.
Qed.

(** Evaluated on every full window whose number of sent packets is at most
    4000: the [float64] expression gives the exactly rounded percentage. *)
Lemma full_window_small :
  forallb (fun sent => rounds_exactly (sent - 20) sent) (Z_range 20 3981)
  = true.
Proof. vm_compute. reflexivity. Qed.

(** The same on the nineteen full windows that hold more samples than
    sent packets, where the subtraction wraps. *)
Lemma full_window_wrapped :
  forallb (fun sent => rounds_exactly (sent - 20 + 2 ^ 32) sent)
          (Z_range 1 19)
  = true.
Proof. vm_compute. reflexivity. Qed.

(** Above 4000 sent packets a full window has lost more than 99.5 percent,
    and the computation gives 100. *)
Lemma full_window_large (sent : Z) :
  4000 < sent < 2 ^ 32 ->
  int_of_float64 undef (lossPercentage_float (sent - 20) sent) = 100.
Proof.
  intros Hs.
  assert (HT : 8962163258467288 <= (sent - 20) * 2 ^ 53 / sent)
    by (apply Z.div_le_lower_bound; lia).
  assert (HT2 : (sent - 20) * 2 ^ 53 / sent < 2 ^ 53)
    by (apply Z.div_lt_upper_bound; lia).
  destruct (div64_of_ints (sent - 20) sent)
    as (m & e & M & Ediv & Hm & HM & Hcase); try lia.
  destruct (mul64_c100 m e M) as (mp & Emul & Hmp); try lia; try assumption.
  destruct (add64_chalf mp Hmp) as (ms & Eadd & Hms).
  unfold lossPercentage_float. rewrite Ediv, Emul, Eadd.
  now apply floor_100.
Qed.

Lemma roundPercent_large (sent : Z) :
  4000 <= sent -> roundPercent (sent - 20) sent = 100.
Proof.
  intros Hs. unfold roundPercent. symmetry.
  apply Z.div_unique with (r := sent - 4000); lia.
Qed.

Lemma sentPackets_range (frames : list Frame) :
  0 <= sentPackets frames < 2 ^ 32.
Proof.
  destruct frames as [|f rest]; simpl; [lia|].
  apply Z.mod_pos_bound. lia.
Qed.

Lemma lostPackets_full_window (frames : list Frame) :
  List.length frames = FramesHistorySize ->
  lostPackets frames
  = if sentPackets frames <? 20
    then sentPackets frames - 20 + 2 ^ 32
    else sentPackets frames - 20.
Proof.
  intros Hlen. pose proof (sentPackets_range frames) as Hr.
  unfold lostPackets. rewrite Hlen.
  change (uint32 (Z.of_nat FramesHistorySize)) with 20. unfold uint32.
  destruct (Z.ltb_spec (sentPackets frames) 20).
  - symmetry. apply Z.mod_unique with (q := -1); lia.
  - apply Z.mod_small. lia.
Qed.

(** On a full window with a non-zero number of sent packets the code
    returns the exactly rounded percentage. *)
Lemma lossPercentage_full_window (frames : list Frame) :
  List.length frames = FramesHistorySize ->
  sentPackets frames <> 0 ->
  lossPercentage undef frames = lossPercentage_spec frames.
Proof.
  intros Hlen Hsent.
  assert (Hne : frames <> []) by (intros ->; discriminate Hlen).
  rewrite (lossPercentage_unfold _ Hne). unfold lossPercentage_spec.
  rewrite (lostPackets_full_window _ Hlen).
  pose proof (sentPackets_range frames) as Hr.
  set (sent := sentPackets frames) in *.
  destruct (Z.ltb_spec sent 20) as [Hlt|Hge].
  - apply rounds_exactly_sound.
    pose proof full_window_wrapped as Hall.
    rewrite forallb_forall in Hall. apply Hall.
    apply In_Z_range. simpl. lia.
  - destruct (Z.leb_spec sent 4000) as [Hsmall|Hlarge].
    + apply rounds_exactly_sound.
      pose proof full_window_small as Hall.
      rewrite forallb_forall in Hall. apply (Hall sent).
      apply In_Z_range. simpl. lia.
    + rewrite full_window_large by lia.
      symmetry. apply roundPercent_large. lia.
Qed.


Lemma uint32_eq_iff (x y : Z) :
  uint32 x = uint32 y <-> exists k, x = y + k * 2 ^ 32.
Proof.
  unfold uint32. split.
  - intros H. exists (x / 2 ^ 32 - y / 2 ^ 32).
    pose proof (Z.div_mod x (2 ^ 32)). pose proof (Z.div_mod y (2 ^ 32)).
    lia.
  - intros [k ->]. apply Z.mod_add. lia.
Qed.

Lemma last_default {A} (l : list A) (x d1 d2 : A) :
  last (x :: l) d1 = last (x :: l) d2.
Proof.
  revert x. induction l as [|y l IH]; intros x; [reflexivity|].
  change (last (y :: l) d1 = last (y :: l) d2). apply IH.
Qed.

(** In a window without gaps the counters span as many values as there are
    frames. *)
Lemma no_gaps_span (newest : Frame) (rest : list Frame) :
  no_gaps (newest :: rest) ->
  exists k,
    FCnt newest - FCnt (last (newest :: rest) newest)
    = Z.of_nat (List.length rest) + k * 2 ^ 32.
Proof.
  revert newest. induction rest as [|older rest IH]; intros newest Hgaps.
  - exists 0. simpl. lia.
  - destruct Hgaps as [Hstep Hrest].
    apply uint32_eq_iff in Hstep as [k1 E1].
    destruct (IH older Hrest) as [k2 E2].
    change (last (newest :: older :: rest) newest)
      with (last (older :: rest) newest).
    rewrite (last_default rest older newest older).
    exists (k2 - k1).
    change (List.length (older :: rest)) with (S (List.length rest)).
    rewrite Nat2Z.inj_succ. lia.
Qed.

Lemma lossPercentage_no_gaps (frames : list Frame) :
  frames <> [] -> Z.of_nat (List.length frames) < 2 ^ 32 ->
  no_gaps frames ->
  sentPackets frames = Z.of_nat (List.length frames)
  /\ lostPackets frames = 0
  /\ lossPercentage undef frames = 0.
Proof.
  intros Hne Hlen Hgaps.
  assert (Hsent : sentPackets frames = Z.of_nat (List.length frames)).
  { destruct frames as [|newest rest]; [congruence|].
    destruct (no_gaps_span newest rest Hgaps) as [k E].
    unfold sentPackets.
    replace (FCnt newest - FCnt (last (newest :: rest) newest) + 1)
      with (Z.of_nat (List.length (newest :: rest)) + k * 2 ^ 32).
    - unfold uint32. rewrite Z.mod_add by lia. apply Z.mod_small. lia.
    - change (List.length (newest :: rest)) with (S (List.length rest)).
      rewrite Nat2Z.inj_succ. lia. }
  assert (Hlost : lostPackets frames = 0).
  { unfold lostPackets. rewrite Hsent. unfold uint32.
    rewrite (Z.mod_small (Z.of_nat _)) by lia.
    now rewrite Z.sub_diag. }
  split; [exact Hsent|]. split; [exact Hlost|].
  rewrite (lossPercentage_unfold _ Hne), Hlost, Hsent.
  destruct (float64_of_int_spec (Z.of_nat (List.length frames)))
    as (m & e & E & _).
  { split; [|lia]. destruct frames as [|f r]; [congruence|].
    change (List.length (f :: r)) with (S (List.length r)).
    rewrite Nat2Z.inj_succ. lia. }
  unfold lossPercentage_float. rewrite E. reflexivity.
Qed.

(** C1, as the code has it.  With [sentPackets] and the loss computed in
    [uint32] arithmetic: on every full window whose [sentPackets] is not 0
    the code returns [100 * loss / sentPackets] rounded to the nearest
    integer, halves up; on every window without gaps it returns 0; on the
    window of counters 100 to 119 without 105 and 110 it returns 10. *)
Theorem lossPercentage_rounds (frames : list Frame) :
  (List.length frames = FramesHistorySize -> sentPackets frames <> 0 ->
   lossPercentage undef frames
   = roundPercent (lostPackets frames) (sentPackets frames))
  /\ (frames <> [] -> Z.of_nat (List.length frames) < 2 ^ 32 ->
      no_gaps frames -> lossPercentage undef frames = 0)
  /\ (sentPackets example_window = 20 /\ lostPackets example_window = 2
      /\ lossPercentage undef example_window = 10).
Proof.
  split; [|split].
  - apply lossPercentage_full_window.
  - intros Hne Hlen Hgaps.
    now destruct (lossPercentage_no_gaps frames Hne Hlen Hgaps) as (_ & _ & H).
  - repeat split; vm_compute; reflexivity.
Qed.

End LossPercentageFacts.

Section LossPercentageExamples.

Lemma lossPercentage_rounds_witness :
  List.length full_window = FramesHistorySize
  /\ sentPackets full_window <> 0
  /\ lossPercentage (fun _ => 0) full_window
     = roundPercent (lostPackets full_window) (sentPackets full_window).
Proof.
  assert (H1 : List.length full_window = FramesHistorySize) by reflexivity.
  assert (H2 : sentPackets full_window <> 0) by (vm_compute; discriminate).
  split; [exact H1|]. split; [exact H2|].
  exact (proj1 (lossPercentage_rounds (fun _ => 0) full_window) H1 H2).
Defined.

(** C1 as stated fails on a full window whose [sentPackets] is 0: the
    division is by zero, its result is infinite, and the conversion to [int]
    gives whatever the implementation gives, not a rounded percentage. *)
Lemma lossPercentage_zero_sentPackets :
  List.length reset_window = FramesHistorySize
  /\ sentPackets reset_window = 0
  /\ lossPercentage_float (lostPackets reset_window)
                          (sentPackets reset_window)
     = S754_infinity false
  /\ (forall undef,
        lossPercentage undef reset_window = undef (S754_infinity false))
  /\ ~ (forall undef,
          lossPercentage undef reset_window
          = lossPercentage_spec reset_window).
Proof.
  split; [reflexivity|]. split; [reflexivity|].
  split; [vm_compute; reflexivity|].
  assert (H : forall undef,
            lossPercentage undef reset_window = undef (S754_infinity false)).
  { intros undef. vm_compute. reflexivity. }
  split; [exact H|].
  intros Hall.
  pose proof (Hall (fun _ => 0)) as H0. pose proof (Hall (fun _ => 1)) as H1.
  rewrite H in H0, H1. congruence.
Qed.

(** The rounding is exact only for the full window: on 17 frames spanning 40
    counters the exact percentage is 57.5, and the [float64] expression
    comes out just below it. *)
Lemma lossPercentage_sparse_window :
  sentPackets sparse_window = 40 /\ lostPackets sparse_window = 23
  /\ lossPercentage_spec sparse_window = 58
  /\ forall undef, lossPercentage undef sparse_window = 57.
Proof.
  repeat split; try (vm_compute; reflexivity).
Qed.

End LossPercentageExamples.

(** ** The packet envelope parser, field by field *)

Section ParseHeader.

Variable Payload : Type.
Variable decodePayload : list byte -> option Go.error * option Payload.

Lemma byte_eqb_eq (a b : byte) : Protocol.byte_eqb a b = true <-> a = b.
Proof.
  unfold Protocol.byte_eqb. rewrite N.eqb_eq. split; [|now intros ->].
  intros H. pose proof (Byte.of_to_N a) as Ha. pose proof (Byte.of_to_N b) as Hb.
  rewrite H in Ha. congruence.
Qed.

Lemma byte_gtb_PULL_ACK (b : byte) :
  Protocol.byte_gtb b Protocol.PULL_ACK = false
  <-> In b [Protocol.PUSH_DATA; Protocol.PUSH_ACK; Protocol.PULL_DATA;
            Protocol.PULL_RESP; Protocol.PULL_ACK].
Proof.
  split.
  - destruct b; vm_compute; intros H; try discriminate H; tauto.
  - intros H. repeat (destruct H as [<-|H]; [reflexivity|]). destruct H.
Qed.


(** [Parse] on a datagram of four bytes or more, its reads resolved. *)
Lemma Parse_header (b0 b1 b2 b3 : byte) (rest : list byte) :
  Protocol.Parse decodePayload (b0 :: b1 :: b2 :: b3 :: rest)
  = if negb (Protocol.byte_eqb b0 x01) then
      Protocol.Parsed (Some (ErrOther "Unreckognized protocol version")) None
    else if Protocol.byte_gtb b3 Protocol.PULL_ACK then
      Protocol.Parsed (Some (ErrOther "Unreckognized protocol identifier")) None
    else
      let gatewayId :=
        if (Nat.leb 8 (List.length rest)
            && Protocol.byte_eqb b3 Protocol.PULL_DATA)%bool
        then Some (firstn 8 rest) else None in
      if ((Nat.ltb 0 (List.length rest)
           && Protocol.byte_eqb b3 Protocol.PUSH_DATA)
          || Protocol.byte_eqb b3 Protocol.PULL_RESP)%bool
      then
        let '(err, payload) := decodePayload rest in
        Protocol.Parsed err
          (Some {| Protocol.Version := b0; Protocol.Token := [b1; b2];
                   Protocol.Identifier := b3;
                   Protocol.GatewayId := gatewayId;
                   Protocol.Payload_ := payload |})
      else
        Protocol.Parsed None
          (Some {| Protocol.Version := b0; Protocol.Token := [b1; b2];
                   Protocol.Identifier := b3;
                   Protocol.GatewayId := gatewayId;
                   Protocol.Payload_ := None |}).
Proof.
  unfold Protocol.Parse.
  change (Nat.ltb (List.length (b0 :: b1 :: b2 :: b3 :: rest)) 3) with false.
  cbv iota.
  change (Protocol.index (b0 :: b1 :: b2 :: b3 :: rest) 0) with (Some b0).
  change (Protocol.index (b0 :: b1 :: b2 :: b3 :: rest) 3) with (Some b3).
  change (Protocol.slice (b0 :: b1 :: b2 :: b3 :: rest) 1 3)
    with (Some [b1; b2]).
  cbv iota.
  destruct (negb _); [reflexivity|].
  destruct (Protocol.byte_gtb _ _); [reflexivity|].
  change (Nat.leb 12 (List.length (b0 :: b1 :: b2 :: b3 :: rest)))
    with (Nat.leb 8 (List.length rest)).
  change (Nat.ltb 4 (List.length (b0 :: b1 :: b2 :: b3 :: rest)))
    with (Nat.ltb 0 (List.length rest)).
  assert (Htail : Protocol.slice (b0 :: b1 :: b2 :: b3 :: rest) 4
                    (List.length (b0 :: b1 :: b2 :: b3 :: rest))
                  = Some rest).
  { rewrite slice_in_range by (simpl; lia).
    simpl. now rewrite Nat.sub_0_r, firstn_all. }
  rewrite Htail.
  destruct (Nat.leb 8 (List.length rest)) eqn:H8.
  - apply Nat.leb_le in H8.
    rewrite (slice_in_range (b0 :: b1 :: b2 :: b3 :: rest) 4 12)
      by (simpl; lia).
    destruct (Protocol.byte_eqb b3 Protocol.PULL_DATA); reflexivity.
  - reflexivity.
Qed.


(** What the datagram and the packet look like when [Parse] returns a
    packet. *)
Lemma Parse_accepts (raw : list byte) (err : option error)
  (p : Protocol.Packet Payload) :
  Protocol.Parse decodePayload raw = Protocol.Parsed err (Some p) ->
  exists b1 b2 b3 rest,
    raw = x01 :: b1 :: b2 :: b3 :: rest
    /\ Protocol.byte_gtb b3 Protocol.PULL_ACK = false
    /\ Protocol.Version _ p = x01
    /\ Protocol.Token _ p = [b1; b2]
    /\ Protocol.Identifier _ p = b3
    /\ Protocol.GatewayId _ p
       = (if (Nat.leb 8 (List.length rest)
              && Protocol.byte_eqb b3 Protocol.PULL_DATA)%bool
          then Some (firstn 8 rest) else None)
    /\ (if ((Nat.ltb 0 (List.length rest)
             && Protocol.byte_eqb b3 Protocol.PUSH_DATA)
            || Protocol.byte_eqb b3 Protocol.PULL_RESP)%bool
        then decodePayload rest = (err, Protocol.Payload_ _ p)
        else err = None /\ Protocol.Payload_ _ p = None).
Proof.
  intros H.
  destruct raw as [|b0 [|b1 [|b2 [|b3 rest]]]]; try discriminate H.
  rewrite Parse_header in H.
  destruct (negb (Protocol.byte_eqb b0 x01)) eqn:Hv; [discriminate H|].
  apply negb_false_iff, byte_eqb_eq in Hv. subst b0.
  destruct (Protocol.byte_gtb b3 Protocol.PULL_ACK) eqn:Hid; [discriminate H|].
  exists b1, b2, b3, rest. cbv zeta in H.
  destruct ((_ && _) || _)%bool.
  - destruct (decodePayload rest) as [e payload].
    injection H as <- <-. repeat split. exact Hid.
  - injection H as <- <-. repeat split. exact Hid.
Qed.

(** X2.  A packet returned by [Parse] has a well-formed header: the datagram
    has at least four bytes, the version is 1, the token is the two bytes
    after the version, and the identifier, the fourth byte, is one of the five
    commands. *)
Theorem Parse_packet_header (raw : list byte) (err : option error)
  (p : Protocol.Packet Payload) :
  Protocol.Parse decodePayload raw = Protocol.Parsed err (Some p) ->
  (4 <= List.length raw)%nat
  /\ nth_error raw 0 = Some (Protocol.Version _ p)
  /\ Protocol.Version _ p = x01
  /\ Protocol.Token _ p = firstn 2 (skipn 1 raw)
  /\ List.length (Protocol.Token _ p) = 2%nat
  /\ nth_error raw 3 = Some (Protocol.Identifier _ p)
  /\ In (Protocol.Identifier _ p)
        [Protocol.PUSH_DATA; Protocol.PUSH_ACK; Protocol.PULL_DATA;
         Protocol.PULL_RESP; Protocol.PULL_ACK].
Proof.
  intros H.
  destruct (Parse_accepts _ _ _ H)
    as (b1 & b2 & b3 & rest & -> & Hid & -> & -> & -> & _).
  split; [simpl; lia|].
  repeat (split; [reflexivity|]).
  now apply byte_gtb_PULL_ACK.
Qed.

(** X3.  When [Parse] returns no packet it returns an error, and the error
    names the first check that failed: the length (fewer than three bytes),
    then the version (first byte other than 1), then the identifier (fourth
    byte not one of the five commands). *)
Theorem Parse_rejection (raw : list byte) (err : option error) :
  Protocol.Parse decodePayload raw = Protocol.Parsed err None ->
  ((List.length raw < 3)%nat
   /\ err = Some (ErrOther "Invalid raw data format"))
  \/ ((4 <= List.length raw)%nat
      /\ nth_error raw 0 <> Some x01
      /\ err = Some (ErrOther "Unreckognized protocol version"))
  \/ ((4 <= List.length raw)%nat
      /\ nth_error raw 0 = Some x01
      /\ (exists identifier,
            nth_error raw 3 = Some identifier
            /\ ~ In identifier
                    [Protocol.PUSH_DATA; Protocol.PUSH_ACK; Protocol.PULL_DATA;
                     Protocol.PULL_RESP; Protocol.PULL_ACK])
      /\ err = Some (ErrOther "Unreckognized protocol identifier")).
Proof.
  intros H.
  destruct raw as [|b0 [|b1 [|b2 [|b3 rest]]]]; try discriminate H;
    try (left; split; [simpl; lia | now injection H as <-]).
  right. rewrite Parse_header in H.
  destruct (negb (Protocol.byte_eqb b0 x01)) eqn:Hv.
  - left. injection H as <-. split; [simpl; lia|]. split; [|reflexivity].
    apply negb_true_iff in Hv. simpl. intros E. injection E as ->.
    discriminate Hv.
  - right. apply negb_false_iff, byte_eqb_eq in Hv. subst b0.
    destruct (Protocol.byte_gtb b3 Protocol.PULL_ACK) eqn:Hid.
    + injection H as <-. split; [simpl; lia|]. split; [reflexivity|].
      split; [|reflexivity]. exists b3. split; [reflexivity|].
      intros Hin. apply byte_gtb_PULL_ACK in Hin. congruence.
    + cbv zeta in H. destruct ((_ && _) || _)%bool.
      * destruct (decodePayload rest). discriminate H.
      * discriminate H.
Qed.

(** X4.  The gateway identifier of a returned packet is set exactly when the
    datagram is a PULL_DATA of at least twelve bytes; it then holds the eight
    bytes that follow the header. *)
Theorem Parse_GatewayId (raw : list byte) (err : option error)
  (p : Protocol.Packet Payload) :
  Protocol.Parse decodePayload raw = Protocol.Parsed err (Some p) ->
  (forall g,
     Protocol.GatewayId _ p = Some g
     <-> (12 <= List.length raw)%nat
         /\ Protocol.Identifier _ p = Protocol.PULL_DATA
         /\ g = firstn 8 (skipn 4 raw))
  /\ (forall g, Protocol.GatewayId _ p = Some g -> List.length g = 8%nat).
Proof.
  intros H.
  destruct (Parse_accepts _ _ _ H)
    as (b1 & b2 & b3 & rest & -> & _ & _ & _ & -> & Hg & _).
  assert (Hiff : forall g,
     Protocol.GatewayId _ p = Some g
     <-> (12 <= List.length (x01 :: b1 :: b2 :: b3 :: rest))%nat
         /\ b3 = Protocol.PULL_DATA
         /\ g = firstn 8 (skipn 4 (x01 :: b1 :: b2 :: b3 :: rest))).
  { intros g. rewrite Hg. simpl List.length. simpl skipn.
    destruct (Nat.leb_spec 8 (List.length rest)) as [H8|H8]; simpl.
    - destruct (Protocol.byte_eqb b3 Protocol.PULL_DATA) eqn:E.
      + apply byte_eqb_eq in E. split.
        * intros G. injection G as <-. repeat split; [lia|exact E].
        * intros (_ & _ & ->). reflexivity.
      + split; [discriminate|]. intros (_ & E' & _).
        apply byte_eqb_eq in E'. congruence.
    - split; [discriminate|]. intros (Hlen & _). lia. }
  split; [exact Hiff|].
  intros g G. apply Hiff in G as (Hlen & _ & ->). simpl in Hlen.
  simpl skipn. rewrite length_firstn. lia.
Qed.


End ParseHeader.

(** ** [maxSNR] on windows that hold a NaN *)

Section MaxSNRMore.

Lemma gt32_NaN_r (x : float32) : gt32 x S754_nan = false.
Proof. reflexivity. Qed.

Lemma gt32_NaN_l (y : float32) : gt32 S754_nan y = false.
Proof. unfold gt32, SFltb, SFcompare. now destruct y as [[]|[]| |[] ? ?]. Qed.

(** The loop returns its starting value or the SNR of a frame. *)
Lemma maxSNR_loop_member (frames : list Frame) (max0 : float32) :
  let max := fold_left (fun max frame =>
                          if gt32 (SNR frame) max then SNR frame else max)
                       frames max0 in
  max = max0 \/ In max (map SNR frames).
Proof.
  revert max0. induction frames as [|f frames IH]; intros max0; simpl.
  - now left.
  - destruct (gt32 (SNR f) max0).
    + destruct (IH (SNR f)) as [E|Hin]; right; [now left | now right].
    + destruct (IH max0) as [E|Hin]; [now left | right; now right].
Qed.

(** The loop skips the frames whose SNR is NaN. *)
Lemma maxSNR_loop_skips_NaN (frames : list Frame) (max0 : float32) :
  fold_left (fun max frame => if gt32 (SNR frame) max then SNR frame else max)
            frames max0
  = fold_left (fun max frame =>
                 if gt32 (SNR frame) max then SNR frame else max)
              (filter not_NaN frames) max0.
Proof.
  revert max0. induction frames as [|f frames IH]; intros max0;
    cbn [fold_left filter].
  - reflexivity.
  - unfold not_NaN at 1. destruct (is_nan (SNR f)) eqn:E; cbn [negb fold_left].
    + destruct (SNR f); try discriminate E. rewrite gt32_NaN_l. apply IH.
    + apply IH.
Qed.

Lemma maxSNR_loop_NaN (frames : list Frame) :
  fold_left (fun max frame => if gt32 (SNR frame) max then SNR frame else max)
            frames S754_nan
  = S754_nan.
Proof.
  induction frames as [|f frames IH]; cbn [fold_left]; [reflexivity|].
  rewrite gt32_NaN_r. exact IH.
Qed.

(** X6.  For a non-empty window, whatever its SNR values (NaN included),
    [maxSNR] returns the SNR of one of the frames of the window. *)
Theorem maxSNR_in_window (frames : list Frame) :
  frames <> [] -> In (maxSNR frames) (map SNR frames).
Proof.
  destruct frames as [|first rest]; [congruence|]. intros _.
  unfold maxSNR.
  destruct (maxSNR_loop_member (first :: rest) (SNR first)) as [E|Hin].
  - rewrite E. now left.
  - exact Hin.
Qed.

(** X7.  How [maxSNR] treats NaN.  When the first frame's SNR is NaN the
    result is NaN, whatever follows.  Otherwise the frames whose SNR is NaN
    are skipped: the result is the one for the window without them, and it is
    the maximum of the SNR values that are numbers. *)
Theorem maxSNR_NaN (first : Frame) (rest : list Frame) :
  (is_nan (SNR first) = true -> maxSNR (first :: rest) = S754_nan)
  /\ (is_nan (SNR first) = false ->
      maxSNR (first :: rest) = maxSNR (filter not_NaN (first :: rest))
      /\ is_max_SNR (maxSNR (first :: rest)) (filter not_NaN (first :: rest))).
Proof.
  split.
  - intros H. destruct (SNR first) eqn:E; try discriminate H.
    unfold maxSNR. rewrite E. apply maxSNR_loop_NaN.
  - intros H.
    assert (Hkeep : filter not_NaN (first :: rest)
                    = first :: filter not_NaN rest).
    { simpl. unfold not_NaN at 1. now rewrite H. }
    assert (Heq : maxSNR (first :: rest)
                  = maxSNR (filter not_NaN (first :: rest))).
    { rewrite Hkeep. unfold maxSNR.
      rewrite maxSNR_loop_skips_NaN. now rewrite Hkeep. }
    split; [exact Heq|]. rewrite Heq, Hkeep.
    destruct (maxSNR_loop (first :: filter not_NaN rest) (SNR first) H)
      as (max & Emax & _ & Hin & _ & Hmax).
    { constructor; [exact H|]. apply Forall_forall. intros f Hf.
      apply filter_In in Hf as [_ Hf]. now apply negb_true_iff in Hf. }
    unfold maxSNR, is_max_SNR. rewrite Emax. split; [|exact Hmax].
    destruct Hin as [->|Hin]; [now left | exact Hin].
Qed.

End MaxSNRMore.

(** ** [lossPercentage] on the selected window: range, wrap-around, order *)

Section LossPercentageMore.

Variable undef : float64 -> Z.

Lemma roundPercent_full (sent : Z) :
  20 <= sent ->
  roundPercent (sent - 20) sent = (201 * sent - 4000) / (2 * sent).
Proof. intros H. unfold roundPercent. f_equal. lia. Qed.

(** X8.  On a full window whose frame counters span at least as many
    values as it has samples ([sentPackets] at least 20), the result is a
    percentage: between 0 and 100. *)
Theorem lossPercentage_percent (frames : list Frame) :
  List.length frames = FramesHistorySize ->
  20 <= sentPackets frames ->
  0 <= lossPercentage undef frames <= 100.
Proof.
  intros Hlen Hsent.
  rewrite (lossPercentage_full_window undef frames Hlen) by lia.
  unfold lossPercentage_spec.
  rewrite (lostPackets_full_window frames Hlen).
  destruct (Z.ltb_spec (sentPackets frames) 20); [lia|].
  rewrite roundPercent_full by lia.
  set (s := sentPackets frames) in *. split.
  - apply Z.div_pos; lia.
  - assert ((201 * s - 4000) / (2 * s) < 101); [|lia].
    apply Z.div_lt_upper_bound; lia.
Qed.

(** X9.  On a full window that holds more samples than its counters span
    ([sentPackets] between 1 and 19, as with repeated counters), the
    subtraction [sentPackets - 20] wraps around in [uint32]: the result is the
    rounded quotient of that wrapped loss, it exceeds [2^32], and the
    retransmission count takes the largest step, +2. *)
Theorem lossPercentage_more_samples_than_counters (frames : list Frame) :
  List.length frames = FramesHistorySize ->
  0 < sentPackets frames < 20 ->
  lossPercentage undef frames
  = roundPercent (sentPackets frames - 20 + 2 ^ 32) (sentPackets frames)
  /\ 2 ^ 32 < lossPercentage undef frames
  /\ nbTransStep (lossPercentage undef frames) = 2.
Proof.
  intros Hlen Hsent.
  assert (E : lossPercentage undef frames
              = roundPercent (sentPackets frames - 20 + 2 ^ 32)
                             (sentPackets frames)).
  { rewrite (lossPercentage_full_window undef frames Hlen) by lia.
    unfold lossPercentage_spec.
    rewrite (lostPackets_full_window frames Hlen).
    destruct (Z.ltb_spec (sentPackets frames) 20); [reflexivity|lia]. }
  assert (B : 2 ^ 32 < lossPercentage undef frames).
  { rewrite E. unfold roundPercent. set (s := sentPackets frames) in *.
    assert (2 ^ 32 + 1 <= (200 * (s - 20 + 2 ^ 32) + s) / (2 * s)); [|lia].
    apply Z.div_le_lower_bound; lia. }
  split; [exact E|]. split; [exact B|].
  unfold nbTransStep.
  destruct (Z.leb_spec (lossPercentage undef frames) 5); [lia|].
  destruct (Z.leb_spec (lossPercentage undef frames) 10); [lia|].
  destruct (Z.leb_spec (lossPercentage undef frames) 30); [lia|].
  reflexivity.
Qed.

(** X10.  Between two full windows, the one whose counters span more
    values never has the smaller loss percentage: the rounding of the
    [float64] computation keeps the order. *)
Theorem lossPercentage_monotone (frames1 frames2 : list Frame) :
  List.length frames1 = FramesHistorySize ->
  List.length frames2 = FramesHistorySize ->
  20 <= sentPackets frames1 <= sentPackets frames2 ->
  lossPercentage undef frames1 <= lossPercentage undef frames2.
Proof.
  intros Hlen1 Hlen2 Hsent.
  rewrite (lossPercentage_full_window undef frames1 Hlen1) by lia.
  rewrite (lossPercentage_full_window undef frames2 Hlen2) by lia.
  unfold lossPercentage_spec.
  rewrite (lostPackets_full_window frames1 Hlen1).
  rewrite (lostPackets_full_window frames2 Hlen2).
  destruct (Z.ltb_spec (sentPackets frames1) 20); [lia|].
  destruct (Z.ltb_spec (sentPackets frames2) 20); [lia|].
  rewrite !roundPercent_full by lia.
  set (s1 := sentPackets frames1) in *. set (s2 := sentPackets frames2) in *.
  set (q := (201 * s1 - 4000) / (2 * s1)).
  assert (Hq : q * (2 * s1) <= 201 * s1 - 4000).
  { unfold q. rewrite Z.mul_comm. apply Z.mul_div_le. lia. }
  assert (Hq100 : q < 101) by (apply Z.div_lt_upper_bound; lia).
  assert (Hq0 : 0 <= q) by (apply Z.div_pos; lia).
  apply Z.div_le_lower_bound; [lia|]. nia.
Qed.

End LossPercentageMore.

(** ** The command list and the channel mask *)

Section SpliceMore.

(** X11.  Splicing twice keeps only the second command: the result is the
    same as splicing the second payload into the original list.  A splice
    never makes the list longer than by one command. *)
Theorem spliceLinkADRReq_twice (fOpts : list MACCommand)
  (payload1 payload2 : list byte) :
  spliceLinkADRReq (spliceLinkADRReq fOpts payload1) payload2
  = spliceLinkADRReq fOpts payload2
  /\ (List.length (spliceLinkADRReq fOpts payload1)
      <= S (List.length fOpts))%nat.
Proof.
  split.
  - rewrite !spliceLinkADRReq_filter.
    rewrite filter_app, filter_idem.
    assert (H : filter (fun c => negb (isLinkADRReq c))
                  [{| CID := uint32 LinkADRReq; Payload := payload1 |}] = [])
      by reflexivity.
    rewrite H. now rewrite app_nil_r.
  - rewrite spliceLinkADRReq_filter, length_app. simpl.
    pose proof (filter_length_le (fun c => negb (isLinkADRReq c)) fOpts).
    lia.
Qed.

End SpliceMore.

Section ChMaskFacts.

Variable drIDx : Z.

Lemma set_ChMask_Some (mask : list bool) (i : nat) :
  (i < List.length mask)%nat ->
  exists mask',
    set_ChMask mask i = Some mask'
    /\ List.length mask' = List.length mask
    /\ forall j, nth j mask' false
                 = if Nat.eqb j i then true else nth j mask false.
Proof.
  intros Hi. unfold set_ChMask.
  apply Nat.ltb_lt in Hi as Hb. rewrite Hb. eexists. split; [reflexivity|].
  assert (Hfirst : List.length (firstn i mask) = i)
    by (rewrite length_firstn; lia).
  split.
  - rewrite length_app, Hfirst. cbn [List.length].
    rewrite length_skipn. lia.
  - intros j. destruct (Nat.eqb_spec j i) as [->|Hne].
    + rewrite <- Hfirst at 1. apply nth_middle.
    + destruct (Nat.lt_ge_cases j i) as [Hlt|Hge].
      * rewrite app_nth1 by lia. rewrite nth_firstn.
        apply Nat.ltb_lt in Hlt. now rewrite Hlt.
      * rewrite app_nth2 by lia. rewrite Hfirst.
        destruct (j - i)%nat as [|k] eqn:Ek; [lia|].
        cbn [nth]. rewrite nth_skipn. f_equal. lia.
Qed.

Lemma set_ChMask_None (mask : list bool) (i : nat) :
  (List.length mask <= i)%nat -> set_ChMask mask i = None.
Proof.
  intros Hi. unfold set_ChMask. apply Nat.ltb_ge in Hi. now rewrite Hi.
Qed.

Lemma nth_ext_bool (l l' : list bool) :
  List.length l = List.length l' ->
  (forall j, nth j l false = nth j l' false) -> l = l'.
Proof.
  intros Hlen Hnth. apply (nth_ext l l' false false Hlen).
  intros j _. apply Hnth.
Qed.

(** Setting a bit that is set changes nothing. *)
Lemma set_ChMask_idem (mask mask' : list bool) (i : nat) :
  set_ChMask mask i = Some mask' -> set_ChMask mask' i = Some mask'.
Proof.
  intros H. destruct (Nat.lt_ge_cases i (List.length mask)) as [Hi|Hi].
  - destruct (set_ChMask_Some mask i Hi) as (m1 & E1 & L1 & N1).
    rewrite E1 in H. injection H as <-.
    destruct (set_ChMask_Some m1 i) as (m2 & E2 & L2 & N2); [lia|].
    rewrite E2. f_equal. apply nth_ext_bool; [exact L2|].
    intros j. rewrite N2, N1. now destruct (Nat.eqb j i).
  - rewrite set_ChMask_None in H by exact Hi. discriminate H.
Qed.

(** The inner loop of lines 180 to 184 on one channel. *)
Lemma channel_loop (drs : list Z) (mask : list bool) (i : nat) :
  fold_left (fun acc dr =>
               match acc with
               | None => None
               | Some m => if dr =? drIDx then set_ChMask m i else Some m
               end)
            drs (Some mask)
  = if existsb (fun dr => dr =? drIDx) drs then set_ChMask mask i
    else Some mask.
Proof.
  assert (Hnone : forall drs : list Z,
            fold_left (fun acc dr =>
                         match acc with
                         | None => None
                         | Some m =>
                             if dr =? drIDx then set_ChMask m i else Some m
                         end)
                      drs None = None).
  { intros l. induction l as [|d l IH]; [reflexivity|exact IH]. }
  assert (Hset : forall (drs : list Z) m,
            set_ChMask m i = Some m ->
            fold_left (fun acc dr =>
                         match acc with
                         | None => None
                         | Some m =>
                             if dr =? drIDx then set_ChMask m i else Some m
                         end)
                      drs (Some m) = Some m).
  { intros l. induction l as [|d l IH]; intros m Hm; [reflexivity|].
    cbn [fold_left]. destruct (d =? drIDx); [rewrite Hm|]; now apply IH. }
  revert mask. induction drs as [|d drs IH]; intros mask; [reflexivity|].
  cbn [fold_left existsb]. destruct (d =? drIDx); cbn [orb].
  - destruct (set_ChMask mask i) as [m'|] eqn:E.
    + apply Hset. now apply set_ChMask_idem in E.
    + apply Hnone.
  - apply IH.
Qed.


Lemma buildChMask_step (ch : Channel) (rest : list Channel) (i : nat)
  (mask : list bool) :
  buildChMask (ch :: rest) i drIDx mask
  = match (if allows ch drIDx then set_ChMask mask i else Some mask) with
    | None => None
    | Some mask' => buildChMask rest (S i) drIDx mask'
    end.
Proof. cbn [buildChMask]. now rewrite channel_loop. Qed.

(** The two loops from channel index [i] on, when every channel that allows
    the data rate has its index within the mask. *)
Lemma buildChMask_within (channels : list Channel) :
  forall (i : nat) (mask : list bool),
    (forall k ch, nth_error channels k = Some ch -> allows ch drIDx = true ->
                  (i + k < List.length mask)%nat) ->
    exists mask',
      buildChMask channels i drIDx mask = Some mask'
      /\ List.length mask' = List.length mask
      /\ forall j,
           nth j mask' false
           = if (Nat.leb i j
                 && match nth_error channels (j - i) with
                    | Some ch => allows ch drIDx
                    | None => false
                    end)%bool
             then true else nth j mask false.
Proof.
  induction channels as [|ch rest IH]; intros i mask Hin.
  - exists mask. split; [reflexivity|]. split; [reflexivity|].
    intros j. destruct (j - i)%nat; cbn [nth_error]; now rewrite andb_false_r.
  - rewrite buildChMask_step.
    destruct (allows ch drIDx) eqn:Hch.
    + assert (Hi : (i < List.length mask)%nat).
      { specialize (Hin 0%nat ch eq_refl Hch). lia. }
      destruct (set_ChMask_Some mask i Hi) as (m1 & E1 & L1 & N1).
      rewrite E1.
      destruct (IH (S i) m1) as (mask' & E & L & N).
      { intros k c Hk Hc. specialize (Hin (S k) c Hk Hc). lia. }
      exists mask'. split; [exact E|]. split; [congruence|].
      intros j. rewrite N, N1.
      destruct (Nat.eqb_spec j i) as [->|Hne].
      * replace (Nat.leb (S i) i) with false
          by (symmetry; apply Nat.leb_gt; lia).
        rewrite Nat.leb_refl, Nat.sub_diag. cbn [nth_error andb].
        now rewrite Hch.
      * destruct (Nat.leb_spec (S i) j) as [Hle|Hgt].
        -- replace (Nat.leb i j) with true
             by (symmetry; apply Nat.leb_le; lia).
           replace (j - i)%nat with (S (j - S i)) by lia. reflexivity.
        -- replace (Nat.leb i j) with false
             by (symmetry; apply Nat.leb_gt; lia).
           reflexivity.
    + destruct (IH (S i) mask) as (mask' & E & L & N).
      { intros k c Hk Hc. specialize (Hin (S k) c Hk Hc). lia. }
      exists mask'. split; [exact E|]. split; [exact L|].
      intros j. rewrite N.
      destruct (Nat.eqb_spec j i) as [->|Hne].
      * replace (Nat.leb (S i) i) with false
          by (symmetry; apply Nat.leb_gt; lia).
        rewrite Nat.leb_refl, Nat.sub_diag. cbn [nth_error andb].
        now rewrite Hch.
      * destruct (Nat.leb_spec (S i) j) as [Hle|Hgt].
        -- replace (Nat.leb i j) with true
             by (symmetry; apply Nat.leb_le; lia).
           replace (j - i)%nat with (S (j - S i)) by lia. reflexivity.
        -- replace (Nat.leb i j) with false
             by (symmetry; apply Nat.leb_gt; lia).
           reflexivity.
Qed.

(** The loops leave the length of the mask as it was. *)
Lemma buildChMask_length (channels : list Channel) :
  forall (i : nat) (mask mask' : list bool),
    buildChMask channels i drIDx mask = Some mask' ->
    List.length mask' = List.length mask.
Proof.
  induction channels as [|ch rest IH]; intros i mask mask' H.
  - now injection H as <-.
  - rewrite buildChMask_step in H.
    destruct (allows ch drIDx).
    + destruct (Nat.lt_ge_cases i (List.length mask)) as [Hi|Hi].
      * destruct (set_ChMask_Some mask i Hi) as (m1 & E1 & L1 & _).
        rewrite E1 in H. apply IH in H. congruence.
      * rewrite set_ChMask_None in H by exact Hi. discriminate H.
    + now apply IH in H.
Qed.

(** A channel that allows the data rate and whose index is outside the
    mask stops the loops with an index out of range. *)
Lemma buildChMask_outside (channels : list Channel) :
  forall (i : nat) (mask : list bool) (k : nat) (ch : Channel),
    nth_error channels k = Some ch -> allows ch drIDx = true ->
    (List.length mask <= i + k)%nat ->
    buildChMask channels i drIDx mask = None.
Proof.
  induction channels as [|c rest IH]; intros i mask k ch Hk Hch Hout.
  - destruct k; discriminate Hk.
  - rewrite buildChMask_step. destruct k as [|k].
    + injection Hk as ->. rewrite Hch.
      rewrite set_ChMask_None by lia. reflexivity.
    + cbn [nth_error] in Hk.
      destruct (if allows c drIDx then set_ChMask mask i else Some mask)
        as [m1|] eqn:E; [|reflexivity].
      apply (IH (S i) m1 k ch Hk Hch).
      assert (L : List.length m1 = List.length mask).
      { destruct (allows c drIDx).
        - destruct (Nat.lt_ge_cases i (List.length mask)) as [Hi|Hi].
          + destruct (set_ChMask_Some mask i Hi) as (m2 & E2 & L2 & _).
            congruence.
          + rewrite set_ChMask_None in E by exact Hi. discriminate E.
        - now injection E as <-. }
      lia.
Qed.

(** The loops end without panic when every channel that allows the data
    rate index has its position below the size of the mask. *)
Lemma buildChMask_succeeds (channels : list Channel) :
  (forall k ch, nth_error channels k = Some ch -> allows ch drIDx = true ->
                (k < ChMaskSize)%nat)
  -> exists chMask,
       buildChMask channels 0 drIDx (repeat false ChMaskSize) = Some chMask.
Proof.
  intros Hin.
  destruct (buildChMask_within channels 0 (repeat false ChMaskSize))
    as (chMask & E & _).
  { intros k ch Hk Hch. rewrite repeat_length. exact (Hin k ch Hk Hch). }
  now exists chMask.
Qed.

(** X12.  The channel mask of lines 179 to 185.  When every channel that
    allows the data rate index has its position below 16, the loops end
    without panic, the mask keeps its 16 bits, and bit [k] is set exactly
    when the plan has a channel at position [k] and that channel allows the
    data rate index. *)
Theorem buildChMask_spec (channels : list Channel) :
  (forall k ch, nth_error channels k = Some ch -> allows ch drIDx = true ->
                (k < ChMaskSize)%nat)
  -> exists chMask,
       buildChMask channels 0 drIDx (repeat false ChMaskSize) = Some chMask
       /\ List.length chMask = ChMaskSize
       /\ forall k,
            nth k chMask false
            = match nth_error channels k with
              | Some ch => allows ch drIDx
              | None => false
              end.
Proof.
  intros Hin.
  destruct (buildChMask_within channels 0 (repeat false ChMaskSize))
    as (chMask & E & L & N).
  { intros k ch Hk Hch. rewrite repeat_length. exact (Hin k ch Hk Hch). }
  exists chMask. split; [exact E|].
  split; [now rewrite L, repeat_length|].
  intros k. rewrite N, Nat.sub_0_r. cbn [Nat.leb andb].
  assert (Hfalse : nth k (repeat false ChMaskSize) false = false).
  { destruct (Nat.lt_ge_cases k ChMaskSize) as [Hk|Hk].
    - apply nth_repeat_lt. exact Hk.
    - apply nth_overflow. now rewrite repeat_length. }
  rewrite Hfalse.
  destruct (nth_error channels k) as [ch|]; [|reflexivity].
  now destruct (allows ch drIDx).
Qed.

(** X13.  The loops of lines 179 to 185 index past the end of the mask
    (a run-time panic) exactly when the plan has, at a position of 16 or
    more, a channel that allows the data rate index. *)
Theorem buildChMask_out_of_range (channels : list Channel) :
  buildChMask channels 0 drIDx (repeat false ChMaskSize) = None
  <-> exists k ch,
        nth_error channels k = Some ch /\ allows ch drIDx = true
        /\ (ChMaskSize <= k)%nat.
Proof.
  split.
  - intros Hnone.
    set (beyond := fun k => (match nth_error channels k with
                             | Some ch => allows ch drIDx
                             | None => false
                             end && Nat.leb ChMaskSize k)%bool).
    destruct (existsb beyond (seq 0 (List.length channels))) eqn:Hex.
    + apply existsb_exists in Hex as (k & _ & Hk). unfold beyond in Hk.
      apply andb_prop in Hk as [Hch Hk].
      destruct (nth_error channels k) as [ch|] eqn:E; [|discriminate Hch].
      exists k, ch. split; [exact E|]. split; [exact Hch|].
      now apply Nat.leb_le.
    + exfalso.
      destruct (buildChMask_succeeds channels) as (chMask & E);
        [|congruence].
      intros k ch Hk Hch.
      destruct (Nat.lt_ge_cases k ChMaskSize) as [Hlt|Hge]; [exact Hlt|].
      exfalso.
      assert (Hyes : existsb beyond (seq 0 (List.length channels)) = true).
      { apply existsb_exists. exists k. split.
        - apply in_seq. split; [lia|]. simpl.
          apply nth_error_Some. congruence.
        - unfold beyond. rewrite Hk, Hch. now apply Nat.leb_le. }
      congruence.
  - intros (k & ch & Hk & Hch & Hout).
    apply (buildChMask_outside channels 0 _ k ch Hk Hch).
    rewrite repeat_length. lia.
Qed.

End ChMaskFacts.

(** ** The retransmission count under repeated adjustment *)

Section NbTransMore.

Variable ext : Externals.

(** The retransmission count for a candidate equal to the stored data rate
    and power, the frame-counter check being on. *)
Lemma nbTransFor_same (dev : Device) (frames : list Frame) :
  DisableFCntCheck dev = false ->
  nbTransFor ext dev (DataRate (ADR dev)) (TxPower (ADR dev)) frames
  = adjustNbTrans (NbTrans (ADR dev)) (lossPercentage (int_undef ext) frames).
Proof.
  intros Hdis. unfold nbTransFor, adjustNbTrans.
  rewrite Hdis, String.eqb_refl, Z.eqb_refl. simpl.
  apply clamp_as_written.
Qed.

Lemma adjustNbTrans_range (nb loss : Z) : 1 <= adjustNbTrans nb loss <= 3.
Proof. apply clampNbTrans_range. Qed.

(** On a count already in [1,3] the step does not wrap. *)
Lemma adjustNbTrans_small (nb loss : Z) :
  1 <= nb <= 3 ->
  adjustNbTrans nb loss = clampNbTrans (nb + nbTransStep loss).
Proof.
  intros H. unfold adjustNbTrans, nbTransStep.
  destruct (loss <=? 5); [|destruct (loss <=? 10); [|destruct (loss <=? 30)]].
  - rewrite int_in_range by (unfold min_int, max_int; lia). reflexivity.
  - now rewrite Z.add_0_r.
  - now rewrite int_in_range by (unfold min_int, max_int; lia).
  - now rewrite int_in_range by (unfold min_int, max_int; lia).
Qed.

(** Three adjustments under the same loss percentage reach the settled
    count, which a further adjustment leaves where it is. *)
Lemma adjustNbTrans_settles (nb loss : Z) :
  let nb3 := adjustNbTrans (adjustNbTrans (adjustNbTrans nb loss) loss) loss in
  nb3 = settledNbTrans nb loss /\ adjustNbTrans nb3 loss = nb3.
Proof.
  intros nb3. subst nb3.
  pose proof (adjustNbTrans_range nb loss) as H1.
  set (nb1 := adjustNbTrans nb loss) in *.
  assert (E1 : (loss <=? 5) = false -> (loss <=? 10) = true
               -> nb1 = clampNbTrans nb).
  { intros A B. unfold nb1, adjustNbTrans. now rewrite A, B. }
  clearbody nb1.
  rewrite (adjustNbTrans_small nb1) by exact H1.
  pose proof (clampNbTrans_range (nb1 + nbTransStep loss)) as H2.
  set (nb2 := clampNbTrans (nb1 + nbTransStep loss)) in *.
  rewrite (adjustNbTrans_small nb2) by exact H2.
  pose proof (clampNbTrans_range (nb2 + nbTransStep loss)) as H3.
  set (nb3 := clampNbTrans (nb2 + nbTransStep loss)) in *.
  rewrite (adjustNbTrans_small nb3) by exact H3.
  unfold settledNbTrans. subst nb3 nb2.
  unfold nbTransStep in *.
  destruct (loss <=? 5) eqn:A; [|destruct (loss <=? 10) eqn:B;
                                  [|destruct (loss <=? 30) eqn:C]];
    simpl; try (specialize (E1 eq_refl eq_refl); subst nb1);
    unfold clampNbTrans in *; lia.
Qed.

End NbTransMore.

(** ** [handleDownlinkADR]: outcomes, panics, convergence *)

Section DownlinkMore.

Variable ext : Externals.
Variable n : networkServer.

Local Opaque FramesHistorySize ChMaskSize maxSNR float32_of_int lossPercentage
  nbTransFor buildChMask.

Ltac scrutinee t :=
  lazymatch t with
  | match ?c with _ => _ end => scrutinee c
  | ?f ?x =>
      lazymatch f with
      | match _ with _ => _ end => scrutinee f
      | _ => constr:(t)
      end
  | _ => constr:(t)
  end.

Ltac head_case H :=
  lazymatch type of H with
  | ?lhs = _ =>
      lazymatch lhs with
      | Return _ _ => fail
      | Next _ _ => fail
      | Panic => fail
      | _ => let c := scrutinee lhs in destruct c eqn:?; simpl in H
      end
  end.

Ltac run_proposal :=
  unfold adrProposal, bind, when, return_, ret, get, panic, d_ADR,
    d_modify_ADR; simpl.

Lemma adrProposal_next (s s1 : DownlinkState) (p : Proposal) :
  adrProposal ext n s = Next p s1 ->
  let dev := d_dev s in
  exists h lookupErr,
    devices_Frames n (AppEUI dev) (DevEUI dev) = (Some h, lookupErr)
    /\ band_Get ext (Band (ADR dev)) = (p_fp p, None)
    /\ s1 = {| d_message := d_message s;
               d_dev := with_ADR dev (withDefaults (p_fp p) (ADR dev)) |}
    /\ fp_ADRSettings (p_fp p) (DataRate (ADR dev))
         (TxPower (withDefaults (p_fp p) (ADR dev)))
         (maxSNR (firstn FramesHistorySize (samples h)))
         (float32_of_int (Margin (withDefaults (p_fp p) (ADR dev))))
       = (p_dataRate p, p_txPower p, None)
    /\ GetDataRateIndexFor (p_fp p) (p_dataRate p) = (p_drIDx p, None)
    /\ p_powerIDx p = powerIndex (p_fp p) (p_txPower p)
    /\ p_nbTrans p
       = nbTransFor ext (d_dev s1) (p_dataRate p) (p_txPower p)
                    (firstn FramesHistorySize (samples h))
    /\ (String.eqb (DataRate (ADR dev)) (p_dataRate p)
        && (TxPower (withDefaults (p_fp p) (ADR dev)) =? p_txPower p)
        && (NbTrans (withDefaults (p_fp p) (ADR dev)) =? p_nbTrans p))%bool
       = false.
Proof.
  destruct s as [message [app deveui [band margin sendreq dr txp nb failed] dis]].
  run_proposal. intros H.
  repeat head_case H.
  all: try discriminate H.
  all: injection H as <- <-; simpl.
  all: match goal with
       | Hget : history_Get ?h = (?l, None) |- _ =>
           exists h; eexists; split; [reflexivity|];
           unfold history_Get in Hget; destruct (getFails h);
           [discriminate Hget|]; injection Hget as <-
       end.
  all: unfold withDefaults, with_ADR, set_Margin, set_TxPower, set_NbTrans,
         powerIndex; simpl.
  all: repeat match goal with
         | E : ?x = _ |- context [?x] => rewrite E; simpl
         end.
  all: repeat split; try reflexivity; try assumption.
Qed.


Lemma withDefaults_only_defaults (fp : FrequencyPlan) (a : ADRSettings) :
  only_defaults fp a (withDefaults fp a).
Proof.
  unfold only_defaults, withDefaults. simpl.
  repeat (split; [reflexivity|]).
  destruct (Z.eqb_spec (Margin a) 0), (Z.eqb_spec (TxPower a) 0),
    (Z.eqb_spec (NbTrans a) 0); repeat split; auto.
Qed.

(** At an exit of the first part the message is untouched and the device
    differs from the one passed in by defaults only. *)
Lemma adrProposal_return (s s1 : DownlinkState) (e : option error) :
  adrProposal ext n s = Return e s1 ->
  d_message s1 = d_message s
  /\ AppEUI (d_dev s1) = AppEUI (d_dev s)
  /\ DevEUI (d_dev s1) = DevEUI (d_dev s)
  /\ DisableFCntCheck (d_dev s1) = DisableFCntCheck (d_dev s)
  /\ only_defaults (fst (band_Get ext (Band (ADR (d_dev s)))))
                   (ADR (d_dev s)) (ADR (d_dev s1)).
Proof.
  destruct s as [message [app deveui [band margin sendreq dr txp nb failed] dis]].
  run_proposal. intros H.
  repeat head_case H.
  all: try discriminate H.
  all: injection H as <- <-; simpl.
  all: unfold only_defaults; simpl.
  all: repeat match goal with
         | E : (_ =? 0) = true |- _ => apply Z.eqb_eq in E; subst
         end.
  all: repeat match goal with
         | E : band_Get ext _ = _ |- _ => rewrite E; simpl
         end.
  all: repeat split; auto.
Qed.

(** The second part, once the channel mask is built. *)
Lemma setLinkADRReq_next (p : Proposal) (s : DownlinkState)
  (chMask : list bool) :
  buildChMask (UplinkChannels (p_fp p)) 0 (p_drIDx p)
              (repeat false ChMaskSize) = Some chMask ->
  setLinkADRReq ext p s
  = Next tt
      {| d_message :=
           {| FOpts :=
                spliceLinkADRReq (FOpts (d_message s))
                  (fst (MarshalBinary ext
                          {| lp_DataRate := uint8 (p_drIDx p);
                             lp_TXPower := uint8 (p_powerIDx p);
                             lp_ChMask := chMask;
                             lp_Redundancy :=
                               {| ChMaskCntl := 0;
                                  NbRep := uint8 (p_nbTrans p) |} |})) |};
         d_dev :=
           with_ADR (d_dev s)
             (set_NbTrans (p_nbTrans p)
                (set_TxPower (p_txPower p)
                   (set_DataRate (p_dataRate p) (ADR (d_dev s))))) |}.
Proof.
  intros H. unfold setLinkADRReq, bind, get, put, panic, d_modify_ADR. simpl.
  rewrite H. destruct s as [message [app deveui a dis]]. reflexivity.
Qed.

Lemma setLinkADRReq_panic (p : Proposal) (s : DownlinkState) :
  buildChMask (UplinkChannels (p_fp p)) 0 (p_drIDx p)
              (repeat false ChMaskSize) = None ->
  setLinkADRReq ext p s = Panic.
Proof.
  intros H. unfold setLinkADRReq, bind, get, put, panic, d_modify_ADR. simpl.
  now rewrite H.
Qed.


(** The first part panics only on a nil history handle. *)
Lemma adrProposal_panic (s : DownlinkState) :
  adrProposal ext n s = Panic ->
  SendReq (ADR (d_dev s)) = true /\ Failed (ADR (d_dev s)) <= 0
  /\ fst (devices_Frames n (AppEUI (d_dev s)) (DevEUI (d_dev s))) = None.
Proof.
  destruct s as [message [app deveui [band margin sendreq dr txp nb failed] dis]].
  run_proposal. intros H.
  repeat head_case H.
  all: try discriminate H.
  all: repeat match goal with
         | E : negb _ = false |- _ => apply negb_false_iff in E
         | E : (0 <? _) = false |- _ => apply Z.ltb_ge in E
         end.
  all: repeat split; assumption.
Qed.

Lemma tuple_differs (a b : string) (x y u v : Z) :
  (String.eqb a b && (x =? y) && (u =? v))%bool = false ->
  (b, y, v) <> (a, x, u).
Proof.
  intros H E. injection E as -> -> ->.
  now rewrite String.eqb_refl, !Z.eqb_refl in H.
Qed.

(** X14.  Every run of [handleDownlinkADR] that returns is of one of two
    kinds.  Either the message is untouched and the settings differ from the
    ones passed in by defaults at most (a margin, power or count of 0
    replaced); or there is no error, the settings are the plan's candidate
    with the retransmission count of lines 143 to 162, they differ from the
    stored ones in data rate, power or count, and the message holds, spliced
    in, the command that announces exactly the settings stored: the index of
    the stored data rate, the index of the stored power (of the default power
    when it has none), the stored count and the channel mask. *)
Theorem handleDownlinkADR_outcome (message : DownlinkMessage) (dev : Device)
  (e : option error) (s' : DownlinkState) :
  handleDownlinkADR ext n message dev = Returned e s' ->
  let fp := fst (band_Get ext (Band (ADR dev))) in
  (d_message s' = message /\ only_defaults fp (ADR dev) (ADR (d_dev s')))
  \/ (e = None
      /\ queued ext fp message s'
      /\ exists h lookupErr,
           devices_Frames n (AppEUI dev) (DevEUI dev) = (Some h, lookupErr)
           /\ candidate ext fp dev (firstn FramesHistorySize (samples h))
                        (ADR (d_dev s'))).
Proof.
  unfold handleDownlinkADR, call, handleDownlinkADR_body, bind.
  destruct (adrProposal ext n {| d_message := message; d_dev := dev |})
    as [p s1|e1 s1|] eqn:Hfirst; [| |discriminate].
  - destruct (adrProposal_next _ _ _ Hfirst)
      as (h & lookupErr & Hlook & Hband & -> & Hadr & Hdr & Hpow & Hnb & Hne).
    simpl in Hlook, Hband, Hadr, Hnb, Hne.
    destruct (buildChMask (UplinkChannels (p_fp p)) 0 (p_drIDx p)
                          (repeat false ChMaskSize)) as [chMask|] eqn:Hmask.
    + rewrite (setLinkADRReq_next _ _ chMask Hmask).
      intros H. injection H as <- <-. right. simpl.
      rewrite Hband. simpl. split; [reflexivity|]. split.
      * exists chMask. unfold queued, linkADRReqFor. simpl.
        rewrite Hdr. simpl. split; [exact Hmask|].
        now rewrite Hpow.
      * exists h, lookupErr. split; [exact Hlook|].
        unfold candidate. simpl.
        split; [exact Hadr|]. split; [exact Hnb|].
        split; [now apply tuple_differs|]. repeat split.
    + rewrite (setLinkADRReq_panic _ _ Hmask). discriminate.
  - intros H. injection H as <- <-. left.
    destruct (adrProposal_return _ _ _ Hfirst) as (Hm & _ & _ & _ & Hd).
    split; [exact Hm | exact Hd].
Qed.

(** X15.  What [handleDownlinkADR] never changes: the identity of the
    device, its frame-counter option, the band, the count of failed proposals
    and [SendReq], which stays as it was even after a command has been
    queued.  The margin changes only from 0 to [DefaultADRMargin]. *)
Theorem handleDownlinkADR_preserves (message : DownlinkMessage) (dev : Device)
  (e : option error) (s' : DownlinkState) :
  handleDownlinkADR ext n message dev = Returned e s' ->
  AppEUI (d_dev s') = AppEUI dev /\ DevEUI (d_dev s') = DevEUI dev
  /\ DisableFCntCheck (d_dev s') = DisableFCntCheck dev
  /\ SendReq (ADR (d_dev s')) = SendReq (ADR dev)
  /\ Band (ADR (d_dev s')) = Band (ADR dev)
  /\ Failed (ADR (d_dev s')) = Failed (ADR dev)
  /\ (Margin (ADR (d_dev s')) = Margin (ADR dev)
      \/ (Margin (ADR dev) = 0
          /\ Margin (ADR (d_dev s')) = DefaultADRMargin)).
Proof.
  unfold handleDownlinkADR, call, handleDownlinkADR_body, bind.
  destruct (adrProposal ext n {| d_message := message; d_dev := dev |})
    as [p s1|e1 s1|] eqn:Hfirst; [| |discriminate].
  - destruct (adrProposal_next _ _ _ Hfirst)
      as (h & lookupErr & _ & _ & -> & _).
    destruct (buildChMask (UplinkChannels (p_fp p)) 0 (p_drIDx p)
                          (repeat false ChMaskSize)) as [chMask|] eqn:Hmask.
    + rewrite (setLinkADRReq_next _ _ chMask Hmask).
      intros H. injection H as <- <-. simpl.
      repeat (split; [reflexivity|]).
      destruct (Z.eqb_spec (Margin (ADR dev)) 0); auto.
    + rewrite (setLinkADRReq_panic _ _ Hmask). discriminate.
  - intros H. injection H as <- <-.
    destruct (adrProposal_return _ _ _ Hfirst)
      as (_ & H1 & H2 & H3 & H4 & H5 & _ & H6 & H7 & _).
    simpl in *. repeat split; assumption.
Qed.

(** X16.  [handleDownlinkADR] does not panic when the store hands out a
    history handle and the plan of the device's band has at most 16 uplink
    channels. *)
Theorem handleDownlinkADR_no_panic (message : DownlinkMessage) (dev : Device)
  (h : FrameHistory) (lookupErr : option error) :
  devices_Frames n (AppEUI dev) (DevEUI dev) = (Some h, lookupErr) ->
  (List.length (UplinkChannels (fst (band_Get ext (Band (ADR dev)))))
   <= ChMaskSize)%nat ->
  handleDownlinkADR ext n message dev <> Panicked.
Proof.
  intros Hlook Hlen.
  unfold handleDownlinkADR, call, handleDownlinkADR_body, bind.
  destruct (adrProposal ext n {| d_message := message; d_dev := dev |})
    as [p s1|e1 s1|] eqn:Hfirst; [|discriminate|].
  - destruct (adrProposal_next _ _ _ Hfirst)
      as (h' & lookupErr' & _ & Hband & _).
    simpl in Hband. rewrite Hband in Hlen. simpl in Hlen.
    destruct (buildChMask_succeeds (p_drIDx p) (UplinkChannels (p_fp p)))
      as (chMask & Hmask).
    { intros k ch Hk _.
      assert (k < List.length (UplinkChannels (p_fp p)))%nat; [|lia].
      apply nth_error_Some. congruence. }
    rewrite (setLinkADRReq_next _ _ chMask Hmask). discriminate.
  - apply adrProposal_panic in Hfirst as (_ & _ & Hnil).
    simpl in Hnil. rewrite Hlook in Hnil. discriminate Hnil.
Qed.

(** Where an error returned by the first part comes from. *)
Lemma adrProposal_error (s s1 : DownlinkState) (e : error) :
  adrProposal ext n s = Return (Some e) s1 ->
  let dev := d_dev s in
  let fp := fst (band_Get ext (Band (ADR dev))) in
  let d := withDefaults fp (ADR dev) in
  exists h,
    fst (devices_Frames n (AppEUI dev) (DevEUI dev)) = Some h
    /\ let candidate :=
         fp_ADRSettings fp (DataRate d) (TxPower d)
           (maxSNR (firstn FramesHistorySize (samples h)))
           (float32_of_int (Margin d)) in
       getFails h = Some e
       \/ snd (band_Get ext (Band (ADR dev))) = Some e
       \/ (snd candidate = Some e /\ e <> ErrADRUnavailable)
       \/ snd (GetDataRateIndexFor fp (fst (fst candidate))) = Some e.
Proof.
  destruct s as [message [app deveui [band margin sendreq dr txp nb failed] dis]].
  run_proposal. intros H.
  repeat head_case H.
  all: try discriminate H.
  all: injection H as <- <-; simpl.
  all: match goal with
       | Hl : devices_Frames n _ _ = (Some ?h, _) |- _ =>
           exists h; split; [reflexivity|]
       end.
  all: match goal with
       | Hget : history_Get ?h = _ |- _ =>
           unfold history_Get in Hget; destruct (getFails h) eqn:Hgf;
           try discriminate Hget; inversion Hget; subst
       end.
  all: try (left; reflexivity).
  all: right.
  all: try (left; reflexivity).
  all: right.
  all: repeat match goal with
         | E : (_ =? 0) = _ |- _ => rewrite ?E; clear E
         end.
  all: repeat match goal with
         | E : fp_ADRSettings _ _ _ _ _ = _ |- _ => rewrite E; simpl
         end.
  all: try (left; split; [reflexivity|];
            intros ->; simpl in *; discriminate).
  all: right.
  all: repeat match goal with
         | E : GetDataRateIndexFor _ _ = _ |- _ => rewrite E; simpl
         end.
  all: reflexivity.
Qed.

(** X28.  When [handleDownlinkADR] returns an error, the message is
    untouched, the history of the device had been found, and the error is
    one of four: the error of [Get] on that history, the error of
    [band.Get] for the stored band, the error of the plan's [ADRSettings]
    (not [ErrADRUnavailable], which ends the run without error), or the
    error of [GetDataRateIndexFor] for the candidate data rate. *)
Theorem handleDownlinkADR_error_source (message : DownlinkMessage)
  (dev : Device) (e : error) (s' : DownlinkState) :
  handleDownlinkADR ext n message dev = Returned (Some e) s' ->
  let fp := fst (band_Get ext (Band (ADR dev))) in
  let d := withDefaults fp (ADR dev) in
  d_message s' = message
  /\ exists h,
       fst (devices_Frames n (AppEUI dev) (DevEUI dev)) = Some h
       /\ let candidate :=
            fp_ADRSettings fp (DataRate d) (TxPower d)
              (maxSNR (firstn FramesHistorySize (samples h)))
              (float32_of_int (Margin d)) in
          getFails h = Some e
          \/ snd (band_Get ext (Band (ADR dev))) = Some e
          \/ (snd candidate = Some e /\ e <> ErrADRUnavailable)
          \/ snd (GetDataRateIndexFor fp (fst (fst candidate))) = Some e.
Proof.
  unfold handleDownlinkADR, call, handleDownlinkADR_body, bind.
  destruct (adrProposal ext n {| d_message := message; d_dev := dev |})
    as [p s1|e1 s1|] eqn:Hfirst; [| |discriminate].
  - destruct (setLinkADRReq ext p s1) as [[] s2|e2 s2|] eqn:Hsecond;
      try discriminate.
    unfold setLinkADRReq, bind, get, put, panic, d_modify_ADR in Hsecond.
    simpl in Hsecond.
    destruct (buildChMask _ _ _ _); discriminate Hsecond.
  - intros H. injection H as -> <-. split.
    + exact (adrProposal_exit_message ext n _ _ _ Hfirst).
    + exact (adrProposal_error _ _ _ Hfirst).
Qed.

(** X17.  When a request is due and the lookup hands out no history
    handle, whatever error it reports, [handleDownlinkADR] panics on the call
    of [Get] instead of returning that error. *)
Theorem handleDownlinkADR_nil_history_panics (message : DownlinkMessage)
  (dev : Device) (lookupErr : option error) :
  SendReq (ADR dev) = true -> Failed (ADR dev) <= 0 ->
  devices_Frames n (AppEUI dev) (DevEUI dev) = (None, lookupErr) ->
  handleDownlinkADR ext n message dev = Panicked.
Proof.
  intros H1 H2 Hlook. apply Z.ltb_ge in H2.
  unfold handleDownlinkADR, call, handleDownlinkADR_body.
  run_proposal. rewrite H1, H2. simpl. now rewrite Hlook.
Qed.


Ltac split_defaults dev :=
  destruct (Margin (ADR dev) =? 0) eqn:?HM,
           (TxPower (ADR dev) =? 0) eqn:?HT,
           (NbTrans (ADR dev) =? 0) eqn:?HN.

(** Past the guards, with a candidate from the plan and its data rate
    index: the first part ends at the tuple comparison. *)
Lemma adrProposal_past_guards (message : DownlinkMessage) (dev : Device)
  (h : FrameHistory) (fp : FrequencyPlan) (dataRate : string)
  (txPower drIDx : Z) :
  past_guards ext n dev h fp ->
  let d := withDefaults fp (ADR dev) in
  let window := firstn FramesHistorySize (samples h) in
  fp_ADRSettings fp (DataRate d) (TxPower d) (maxSNR window)
                 (float32_of_int (Margin d))
  = (dataRate, txPower, None) ->
  GetDataRateIndexFor fp dataRate = (drIDx, None) ->
  let nbTrans := nbTransFor ext (with_ADR dev d) dataRate txPower window in
  adrProposal ext n {| d_message := message; d_dev := dev |}
  = if (String.eqb (DataRate d) dataRate && (TxPower d =? txPower)
        && (NbTrans d =? nbTrans))%bool
    then Return None {| d_message := message; d_dev := with_ADR dev d |}
    else Next {| p_fp := fp; p_dataRate := dataRate; p_txPower := txPower;
                 p_nbTrans := nbTrans; p_drIDx := drIDx;
                 p_powerIDx := powerIndex fp txPower |}
              {| d_message := message; d_dev := with_ADR dev d |}.
Proof.
  intros (H1 & H2 & Hlook & Hget & Hlen & Hdr & Hband & Hfp) d window Hadr Hidx.
  subst d window.
  apply Z.ltb_ge in H2. apply String.eqb_neq in Hdr, Hband.
  apply Nat.ltb_ge in Hlen.
  destruct (devices_Frames n (AppEUI dev) (DevEUI dev)) as [history lookupErr]
    eqn:Hl. simpl in Hlook. subst history.
  run_proposal. rewrite H1, H2. simpl. rewrite Hl.
  unfold history_Get. rewrite Hget, Hlen, Hdr, Hband, Hfp.
  simpl. unfold withDefaults, powerIndex in *. simpl in Hadr.
  split_defaults dev; simpl; rewrite Hadr; simpl; rewrite Hidx; simpl;
    destruct (GetTxPowerIndexFor fp txPower) as [powerIDx [pe|]]; simpl;
    destruct dev as [app deveui [] dis]; simpl in *;
    rewrite ?HM, ?HT, ?HN;
    unfold with_ADR, set_Margin, set_TxPower, set_NbTrans; simpl;
    match goal with
    | |- (if ?c then _ else _) _ = _ => destruct c
    end; reflexivity.
Qed.


(** Past the guards, the whole run: a no-op when the tuple comparison
    matches, otherwise the update and the command, or the panic of the
    channel mask. *)
Lemma handleDownlinkADR_past_guards (message : DownlinkMessage) (dev : Device)
  (h : FrameHistory) (fp : FrequencyPlan) (dataRate : string)
  (txPower drIDx : Z) :
  past_guards ext n dev h fp ->
  let d := withDefaults fp (ADR dev) in
  let window := firstn FramesHistorySize (samples h) in
  fp_ADRSettings fp (DataRate d) (TxPower d) (maxSNR window)
                 (float32_of_int (Margin d))
  = (dataRate, txPower, None) ->
  GetDataRateIndexFor fp dataRate = (drIDx, None) ->
  let nbTrans := nbTransFor ext (with_ADR dev d) dataRate txPower window in
  let a' := set_NbTrans nbTrans (set_TxPower txPower (set_DataRate dataRate d)) in
  handleDownlinkADR ext n message dev
  = if (String.eqb (DataRate d) dataRate && (TxPower d =? txPower)
        && (NbTrans d =? nbTrans))%bool
    then Returned None {| d_message := message; d_dev := with_ADR dev d |}
    else
      match buildChMask (UplinkChannels fp) 0 drIDx (repeat false ChMaskSize)
      with
      | Some chMask =>
          Returned None
            {| d_message :=
                 {| FOpts :=
                      spliceLinkADRReq (FOpts message)
                        (fst (MarshalBinary ext
                                {| lp_DataRate := uint8 drIDx;
                                   lp_TXPower := uint8 (powerIndex fp txPower);
                                   lp_ChMask := chMask;
                                   lp_Redundancy :=
                                     {| ChMaskCntl := 0;
                                        NbRep := uint8 nbTrans |} |})) |};
               d_dev := with_ADR dev a' |}
      | None => Panicked
      end.
Proof.
  intros Hguards d window Hadr Hidx nbTrans a'.
  unfold handleDownlinkADR, call, handleDownlinkADR_body, bind.
  rewrite (adrProposal_past_guards message dev h fp dataRate txPower drIDx
             Hguards Hadr Hidx).
  fold d window nbTrans.
  destruct (String.eqb (DataRate d) dataRate && (TxPower d =? txPower)
            && (NbTrans d =? nbTrans))%bool; [reflexivity|].
  destruct (buildChMask (UplinkChannels fp) 0 drIDx (repeat false ChMaskSize))
    as [chMask|] eqn:Hmask.
  - rewrite (setLinkADRReq_next _ _ chMask) by exact Hmask.
    destruct dev as [app deveui a dis]. reflexivity.
  - rewrite setLinkADRReq_panic by exact Hmask. reflexivity.
Qed.

(** X18.  Past the guards, with a candidate data rate other than the
    stored one: if the plan has at a position of 16 or more a channel that
    allows the candidate's data rate index, [handleDownlinkADR] panics while
    it builds the channel mask. *)
Theorem handleDownlinkADR_panics_beyond_ChMask (message : DownlinkMessage)
  (dev : Device) (h : FrameHistory) (fp : FrequencyPlan) (dataRate : string)
  (txPower drIDx : Z) (k : nat) (ch : Channel) :
  past_guards ext n dev h fp ->
  let d := withDefaults fp (ADR dev) in
  fp_ADRSettings fp (DataRate d) (TxPower d)
                 (maxSNR (firstn FramesHistorySize (samples h)))
                 (float32_of_int (Margin d))
  = (dataRate, txPower, None) ->
  GetDataRateIndexFor fp dataRate = (drIDx, None) ->
  DataRate (ADR dev) <> dataRate ->
  nth_error (UplinkChannels fp) k = Some ch -> allows ch drIDx = true ->
  (ChMaskSize <= k)%nat ->
  handleDownlinkADR ext n message dev = Panicked.
Proof.
  intros Hguards d Hadr Hidx Hne Hk Hch Hout.
  rewrite (handleDownlinkADR_past_guards message dev h fp dataRate txPower
             drIDx Hguards Hadr Hidx).
  apply String.eqb_neq in Hne. simpl. rewrite Hne. simpl.
  assert (Hnone : buildChMask (UplinkChannels fp) 0 drIDx
                              (repeat false ChMaskSize) = None).
  { apply (buildChMask_outside drIDx (UplinkChannels fp) 0 _ k ch Hk Hch).
    rewrite repeat_length. lia. }
  now rewrite Hnone.
Qed.


Lemma withDefaults_idem (fp : FrequencyPlan) (a : ADRSettings) :
  withDefaults fp (withDefaults fp a) = withDefaults fp a.
Proof.
  unfold withDefaults. simpl. f_equal.
  - destruct (Z.eqb_spec (Margin a) 0) as [E|E]; [reflexivity|].
    apply Z.eqb_neq in E. now rewrite E.
  - destruct (Z.eqb_spec (TxPower a) 0) as [E|E].
    + now destruct (DefaultTXPower fp =? 0).
    + apply Z.eqb_neq in E. now rewrite E.
  - destruct (Z.eqb_spec (NbTrans a) 0) as [E|E]; [reflexivity|].
    apply Z.eqb_neq in E. now rewrite E.
Qed.

Lemma set_NbTrans_same (a : ADRSettings) : set_NbTrans (NbTrans a) a = a.
Proof. now destruct a. Qed.

Lemma set_tuple_same (a : ADRSettings) (nb : Z) :
  set_NbTrans nb (set_TxPower (TxPower a) (set_DataRate (DataRate a) a))
  = set_NbTrans nb a.
Proof. now destruct a. Qed.

(** One invocation on a steady device: the retransmission count is adjusted
    for the loss percentage of the window, everything else stays, and the
    message is touched only if the count moved. *)
Lemma handleDownlinkADR_steady_step (message : DownlinkMessage) (dev : Device)
  (h : FrameHistory) (fp : FrequencyPlan) :
  steady ext n dev h fp ->
  let d := withDefaults fp (ADR dev) in
  let nb1 := adjustNbTrans (NbTrans d)
               (lossPercentage (int_undef ext)
                               (firstn FramesHistorySize (samples h))) in
  exists message1,
    handleDownlinkADR ext n message dev
    = Returned None {| d_message := message1;
                       d_dev := with_ADR dev (set_NbTrans nb1 d) |}
    /\ (nb1 = NbTrans d -> message1 = message).
Proof.
  intros (Hguards & Hdis & Hadr & Hidx & Hch) d nb1.
  fold d in Hadr, Hidx.
  destruct (GetDataRateIndexFor fp (DataRate d)) as [drIDx ie] eqn:Hi.
  simpl in Hidx. subst ie.
  rewrite (handleDownlinkADR_past_guards message dev h fp (DataRate d)
             (TxPower d) drIDx Hguards Hadr Hi).
  fold d.
  assert (Hnb : nbTransFor ext (with_ADR dev d) (DataRate d) (TxPower d)
                  (firstn FramesHistorySize (samples h)) = nb1)
    by exact (nbTransFor_same ext (with_ADR dev d) _ Hdis).
  rewrite Hnb, String.eqb_refl, Z.eqb_refl. cbn [andb].
  destruct (Z.eqb_spec (NbTrans d) nb1) as [E|E].
  - exists message. split; [|reflexivity].
    rewrite <- E. now rewrite set_NbTrans_same.
  - destruct (buildChMask_succeeds drIDx (UplinkChannels fp))
      as (chMask & Hmask).
    { intros k ch Hk _.
      assert (k < List.length (UplinkChannels fp))%nat; [|lia].
      apply nth_error_Some. congruence. }
    rewrite Hmask. eexists. split.
    + now rewrite set_tuple_same.
    + intros E'. congruence.
Qed.

Lemma steady_step_steady (dev : Device) (h : FrameHistory)
  (fp : FrequencyPlan) (nb1 : Z) :
  steady ext n dev h fp -> 1 <= nb1 <= 3 ->
  let dev1 := with_ADR dev (set_NbTrans nb1 (withDefaults fp (ADR dev))) in
  steady ext n dev1 h fp
  /\ withDefaults fp (ADR dev1) = ADR dev1.
Proof.
  intros (Hguards & Hdis & Hadr & Hidx & Hch) Hnb dev1.
  assert (Hd : withDefaults fp (ADR dev1) = ADR dev1).
  { unfold dev1. simpl.
    pose proof (withDefaults_idem fp (ADR dev)) as Hi.
    unfold withDefaults in *. simpl in *.
    injection Hi as HM HT HN.
    rewrite HM, HT. destruct (Z.eqb_spec nb1 0); [lia|]. reflexivity. }
  split; [|exact Hd].
  unfold steady. rewrite Hd.
  destruct Hguards as (H1 & H2 & Hlook & Hget & Hlen & Hdr & Hband & Hfp).
  split; [|split; [exact Hdis|split; [exact Hadr|split; assumption]]].
  repeat split; assumption.
Qed.

(** X20.  On a steady device (the plan's candidate is the stored data rate
    and power) and an unchanged history, the retransmission count settles
    within three invocations: the three return without error, the count is
    then 1 if the loss percentage is at most 5, 3 if it is above 10 and the
    clamped stored count otherwise, and a fourth invocation changes neither
    the device nor the message. *)
Theorem handleDownlinkADR_settles (message : DownlinkMessage) (dev : Device)
  (h : FrameHistory) (fp : FrequencyPlan) :
  steady ext n dev h fp ->
  exists s3,
    handleDownlinkADR_times ext n 3 {| d_message := message; d_dev := dev |}
    = Returned None s3
    /\ NbTrans (ADR (d_dev s3))
       = settledNbTrans (NbTrans (withDefaults fp (ADR dev)))
           (lossPercentage (int_undef ext)
                           (firstn FramesHistorySize (samples h)))
    /\ handleDownlinkADR ext n (d_message s3) (d_dev s3) = Returned None s3.
Proof.
  intros Hs0.
  set (loss := lossPercentage (int_undef ext)
                 (firstn FramesHistorySize (samples h))).
  set (d0 := withDefaults fp (ADR dev)).
  set (nb1 := adjustNbTrans (NbTrans d0) loss).
  set (dev1 := with_ADR dev (set_NbTrans nb1 d0)).
  destruct (handleDownlinkADR_steady_step message dev h fp Hs0)
    as (m1 & Hrun1 & _).
  destruct (steady_step_steady dev h fp nb1 Hs0 (adjustNbTrans_range _ _))
    as (Hs1 & Hd1).
  fold d0 dev1 in Hs1, Hd1. fold d0 loss nb1 dev1 in Hrun1.
  set (nb2 := adjustNbTrans nb1 loss).
  set (dev2 := with_ADR dev1 (set_NbTrans nb2 (ADR dev1))).
  destruct (handleDownlinkADR_steady_step m1 dev1 h fp Hs1)
    as (m2 & Hrun2 & _).
  destruct (steady_step_steady dev1 h fp nb2 Hs1 (adjustNbTrans_range _ _))
    as (Hs2 & Hd2).
  rewrite Hd1 in Hrun2, Hs2, Hd2.
  change (NbTrans (set_NbTrans nb1 d0)) with nb1 in Hrun2.
  fold loss nb2 dev2 in Hrun2, Hs2, Hd2.
  set (nb3 := adjustNbTrans nb2 loss).
  set (dev3 := with_ADR dev2 (set_NbTrans nb3 (ADR dev2))).
  destruct (handleDownlinkADR_steady_step m2 dev2 h fp Hs2)
    as (m3 & Hrun3 & _).
  destruct (steady_step_steady dev2 h fp nb3 Hs2 (adjustNbTrans_range _ _))
    as (Hs3 & Hd3).
  rewrite Hd2 in Hrun3, Hs3, Hd3.
  change (NbTrans (ADR dev2)) with nb2 in Hrun3.
  fold loss nb3 dev3 in Hrun3, Hs3, Hd3.
  destruct (handleDownlinkADR_steady_step m3 dev3 h fp Hs3)
    as (m4 & Hrun4 & Hsame).
  rewrite Hd3 in Hrun4, Hsame.
  change (NbTrans (ADR dev3)) with nb3 in Hrun4, Hsame.
  fold loss in Hrun4, Hsame.
  destruct (adjustNbTrans_settles (NbTrans d0) loss) as [Hsettled Hfix].
  fold nb1 nb2 nb3 in Hsettled, Hfix.
  exists {| d_message := m3; d_dev := dev3 |}.
  split; [|split].
  - cbn [handleDownlinkADR_times d_message d_dev].
    rewrite Hrun1. cbn [d_message d_dev].
    rewrite Hrun2. cbn [d_message d_dev].
    change (handleDownlinkADR ext n m2 _)
      with (handleDownlinkADR ext n m2 dev2).
    now rewrite Hrun3.
  - exact Hsettled.
  - cbn [d_message d_dev]. rewrite Hrun4, Hfix.
    rewrite (Hsame Hfix). reflexivity.
Qed.


End DownlinkMore.

(** ** The window of [handleDownlinkADR] *)

Section WindowFacts.

Variable ext : Externals.

Local Opaque FramesHistorySize ChMaskSize maxSNR float32_of_int lossPercentage
  nbTransFor buildChMask.

(** X19.  Only the newest [FramesHistorySize] samples count: on two stores
    whose histories of the device are readable, fill the window and agree on
    their newest [FramesHistorySize] samples, [handleDownlinkADR] does the
    same. *)
Theorem handleDownlinkADR_window (n1 n2 : networkServer)
  (message : DownlinkMessage) (dev : Device) (h1 h2 : FrameHistory) :
  fst (devices_Frames n1 (AppEUI dev) (DevEUI dev)) = Some h1 ->
  fst (devices_Frames n2 (AppEUI dev) (DevEUI dev)) = Some h2 ->
  getFails h1 = None -> getFails h2 = None ->
  (FramesHistorySize <= List.length (samples h1))%nat ->
  (FramesHistorySize <= List.length (samples h2))%nat ->
  firstn FramesHistorySize (samples h1) = firstn FramesHistorySize (samples h2) ->
  handleDownlinkADR ext n1 message dev = handleDownlinkADR ext n2 message dev.
Proof.
  intros Hl1 Hl2 Hg1 Hg2 Hlen1 Hlen2 Hwin.
  apply Nat.ltb_ge in Hlen1, Hlen2.
  destruct (devices_Frames n1 (AppEUI dev) (DevEUI dev)) as [hh1 e1] eqn:E1.
  destruct (devices_Frames n2 (AppEUI dev) (DevEUI dev)) as [hh2 e2] eqn:E2.
  simpl in Hl1, Hl2. subst hh1 hh2.
  unfold handleDownlinkADR, call, handleDownlinkADR_body, adrProposal,
    bind, when, return_, ret, get, panic, d_ADR, d_modify_ADR. simpl.
  destruct (negb (SendReq (ADR dev))); [reflexivity|].
  destruct (0 <? Failed (ADR dev)); [reflexivity|]. simpl.
  rewrite E1, E2. unfold history_Get. rewrite Hg1, Hg2, Hlen1, Hlen2, Hwin.
  reflexivity.
Qed.

End WindowFacts.

(** ** [handleUplinkADR] with ADR enabled, and the two handlers in sequence *)

Section UplinkMore.

Variable ext : Externals.

Ltac run_up :=
  unfold handleUplinkADR, call, handleUplinkADR_body, u_history_call,
    u_modify_ADR, u_modify_n, u_modify_message, bind, when, return_, ret,
    get, panic; simpl.

Lemma lookup_after_push (n : networkServer) (dev : Device)
  (pushed : FrameHistory * option error) :
  devices_Frames (store_after_push n dev pushed) (AppEUI dev) (DevEUI dev)
  = (Some (fst pushed), snd (devices_Frames n (AppEUI dev) (DevEUI dev))).
Proof.
  unfold store_after_push. destruct (snd pushed); simpl;
    now rewrite !Z.eqb_refl.
Qed.

(** An ADR-enabled uplink, its history found: the whole run. *)
Lemma handleUplinkADR_enabled_run (n : networkServer)
  (message : UplinkMessage) (dev : Device)
  (h : FrameHistory) :
  up_ADR message = true ->
  devices_Frames n (AppEUI dev) (DevEUI dev) = (Some h, None) ->
  handleUplinkADR ext n message dev
  = Returned None
      {| u_n := store_after_push n dev
                  (history_Push h (uplinkFrame ext message));
         u_message := set_response_Ack
                        (response_Ack message || up_ADRAckReq message) message;
         u_dev := with_ADR dev (adrEnabledSettings message (ADR dev)) |}.
Proof.
  intros Hadr Hlook. run_up. rewrite Hlook, Hadr. simpl.
  unfold store_after_push, uplinkFrame, adrEnabledSettings.
  destruct (history_Push h _) as [h' [e|]]; simpl;
    destruct dev as [app deveui [band margin sendreq dr txp nb failed] dis];
    destruct message as [adr ack fcnt gws plan rate rack]; simpl in *;
    destruct (String.eqb band EmptyString), (String.eqb_spec dr rate), ack,
      sendreq, rack; subst; reflexivity.
Qed.

(** An ADR-disabled uplink that returns without error has reset the
    settings. *)
Lemma handleUplinkADR_disabled_run (n : networkServer)
  (message : UplinkMessage) (dev : Device)
  (s1 : UplinkState) :
  up_ADR message = false ->
  handleUplinkADR ext n message dev = Returned None s1 ->
  u_dev s1 = with_ADR dev (resetADR (ADR dev)) /\ u_message s1 = message.
Proof.
  intros Hadr. run_up. rewrite Hadr.
  destruct (devices_Frames n (AppEUI dev) (DevEUI dev)) as [[h|] [e|]];
    simpl; try discriminate.
  destruct (history_Clear h) as [h' [e|]]; simpl; [discriminate|].
  intros H. injection H as <-. simpl.
  destruct dev as [app deveui [] dis]. now split.
Qed.

(** X21.  An ADR-enabled uplink whose history is found returns no error,
    whether the push succeeds or not.  Afterwards the band is the uplink's
    if none was stored and the stored one otherwise, the data rate is the
    uplink's, [SendReq] is set if it was set, if the data rate differed or if
    the device asked for an acknowledgement, and in that last case the
    acknowledgement bit of the response is set; margin, power, count and
    failures are as before. *)
Theorem handleUplinkADR_ADR_enabled (n : networkServer)
  (message : UplinkMessage) (dev : Device)
  (h : FrameHistory) :
  up_ADR message = true ->
  devices_Frames n (AppEUI dev) (DevEUI dev) = (Some h, None) ->
  exists n',
    handleUplinkADR ext n message dev
    = Returned None
        {| u_n := n';
           u_message := set_response_Ack
                          (response_Ack message || up_ADRAckReq message)
                          message;
           u_dev := with_ADR dev (adrEnabledSettings message (ADR dev)) |}.
Proof.
  intros Hadr Hlook. eexists.
  apply (handleUplinkADR_enabled_run n message dev h Hadr Hlook).
Qed.

(** X22.  The store after an ADR-enabled uplink.  If the push fails, its
    error is logged, once, after the earlier entries, and the history is the
    one found.  If it succeeds, nothing is logged, the history starts with
    the sample of the uplink (its frame counter, the best SNR, the number of
    gateways) followed by the earlier samples, cut to the window. *)
Theorem handleUplinkADR_push (n : networkServer) (message : UplinkMessage)
  (dev : Device)
  (h : FrameHistory) :
  up_ADR message = true ->
  devices_Frames n (AppEUI dev) (DevEUI dev) = (Some h, None) ->
  exists s1,
    handleUplinkADR ext n message dev = Returned None s1
    /\ (forall e, pushFails h = Some e ->
          logged (u_n s1) = logged n ++ [e]
          /\ devices_Frames (u_n s1) (AppEUI dev) (DevEUI dev)
             = (Some h, None))
    /\ (pushFails h = None ->
          logged (u_n s1) = logged n
          /\ exists h',
               devices_Frames (u_n s1) (AppEUI dev) (DevEUI dev)
               = (Some h', None)
               /\ samples h'
                  = firstn FramesHistorySize
                           (uplinkFrame ext message :: samples h)
               /\ (List.length (samples h') <= FramesHistorySize)%nat).
Proof.
  intros Hadr Hlook. eexists. split.
  - apply (handleUplinkADR_enabled_run n message dev h Hadr Hlook).
  - cbn [u_n]. split.
    + intros e He. rewrite lookup_after_push, Hlook.
      unfold store_after_push, history_Push. rewrite He. simpl. now split.
    + intros Hok. rewrite lookup_after_push, Hlook.
      unfold store_after_push, history_Push. rewrite Hok.
      cbn [fst snd]. split; [reflexivity|].
      eexists. split; [reflexivity|]. cbn [samples].
      split; [reflexivity|]. rewrite length_firstn. lia.
Qed.

Lemma adrEnabledSettings_idem (message : UplinkMessage) (a : ADRSettings) :
  adrEnabledSettings message (adrEnabledSettings message a)
  = adrEnabledSettings message a.
Proof.
  unfold adrEnabledSettings. simpl. rewrite String.eqb_refl. simpl.
  f_equal.
  - destruct (String.eqb_spec (Band a) EmptyString) as [E|E].
    + destruct (String.eqb_spec (up_FrequencyPlan message) EmptyString);
        congruence.
    + apply String.eqb_neq in E. now rewrite E.
  - destruct (SendReq a), (String.eqb (DataRate a) (up_DataRate message)),
      (up_ADRAckReq message); reflexivity.
Qed.

(** X23.  Processing the same ADR-enabled uplink a second time changes
    neither the settings of the device nor the response: only the history
    grows. *)
Theorem handleUplinkADR_twice (n : networkServer) (message : UplinkMessage)
  (dev : Device) (h : FrameHistory) :
  up_ADR message = true ->
  devices_Frames n (AppEUI dev) (DevEUI dev) = (Some h, None) ->
  exists s1 s2,
    handleUplinkADR ext n message dev = Returned None s1
    /\ handleUplinkADR ext (u_n s1) (u_message s1) (u_dev s1)
       = Returned None s2
    /\ u_dev s2 = u_dev s1 /\ u_message s2 = u_message s1.
Proof.
  intros Hadr Hlook. eexists. eexists. split.
  - apply (handleUplinkADR_enabled_run n message dev h Hadr Hlook).
  - cbn [u_n u_message u_dev]. split.
    + apply handleUplinkADR_enabled_run with
        (h := fst (history_Push h (uplinkFrame ext message))).
      * simpl. exact Hadr.
      * change (AppEUI (with_ADR dev _)) with (AppEUI dev).
        change (DevEUI (with_ADR dev _)) with (DevEUI dev).
        now rewrite lookup_after_push, Hlook.
    + cbn [u_dev u_message]. split.
      * unfold with_ADR. cbn [ADR AppEUI DevEUI DisableFCntCheck].
        f_equal.
        change (adrEnabledSettings (set_response_Ack _ message))
          with (adrEnabledSettings message).
        apply adrEnabledSettings_idem.
      * unfold set_response_Ack. simpl. f_equal.
        now destruct (response_Ack message), (up_ADRAckReq message).
Qed.

(** X24.  What [handleUplinkADR] never changes, on any run that returns:
    the identity of the device, its frame-counter option, the margin, the
    count of failed proposals, a band that is set, and, when ADR is enabled,
    power and retransmission count.  Of the message only the acknowledgement
    bit of the response can change, and only from unset to set. *)
Theorem handleUplinkADR_preserves (n : networkServer)
  (message : UplinkMessage) (dev : Device) (e : option error)
  (s1 : UplinkState) :
  handleUplinkADR ext n message dev = Returned e s1 ->
  let a := ADR dev in
  let a1 := ADR (u_dev s1) in
  AppEUI (u_dev s1) = AppEUI dev /\ DevEUI (u_dev s1) = DevEUI dev
  /\ DisableFCntCheck (u_dev s1) = DisableFCntCheck dev
  /\ Margin a1 = Margin a /\ Failed a1 = Failed a
  /\ (Band a <> EmptyString -> Band a1 = Band a)
  /\ (up_ADR message = true -> TxPower a1 = TxPower a /\ NbTrans a1 = NbTrans a)
  /\ (response_Ack message = true -> response_Ack (u_message s1) = true)
  /\ set_response_Ack (response_Ack message) (u_message s1) = message.
Proof.
  intros H.
  destruct (devices_Frames n (AppEUI dev) (DevEUI dev)) as [history lookupErr]
    eqn:Hlook.
  destruct lookupErr as [le|].
  - revert H. run_up. rewrite Hlook. intros H. injection H as <- <-. simpl.
    repeat split; auto. now destruct message.
  - destruct history as [h|].
    + destruct (up_ADR message) eqn:Hadr.
      * rewrite (handleUplinkADR_enabled_run n message dev h Hadr Hlook) in H.
        injection H as <- <-. simpl. repeat split; auto.
        all: try (intros Hb; apply String.eqb_neq in Hb; now rewrite Hb).
        all: try (intros ->; reflexivity).
        now destruct message.
      * revert H. run_up. rewrite Hlook, Hadr. simpl.
        destruct (history_Clear h) as [h' [ce|]]; simpl;
          intros H; injection H as <- <-; simpl;
          repeat split; auto; try discriminate; now destruct message.
    + revert H. run_up. rewrite Hlook.
      destruct (up_ADR message); discriminate.
Qed.


(** X25.  After an ADR-disabled uplink that returned without error, an
    invocation of [handleDownlinkADR], on any store and any downlink, is a
    no-op: no request is due. *)
Theorem handleUplinkADR_off_then_downlink (n n' : networkServer)
  (message : UplinkMessage) (dev : Device) (s1 : UplinkState)
  (downlink : DownlinkMessage) :
  up_ADR message = false ->
  handleUplinkADR ext n message dev = Returned None s1 ->
  handleDownlinkADR ext n' downlink (u_dev s1)
  = Returned None {| d_message := downlink; d_dev := u_dev s1 |}.
Proof.
  intros Hadr Hrun.
  destruct (handleUplinkADR_disabled_run n message dev s1 Hadr Hrun)
    as [-> _].
  reflexivity.
Qed.

End UplinkMore.

(** ** Package [handler]: the start-up sequence *)

Section HandlerFacts.

Import Handler.

Variable c : Component.

Lemma brokers_loop (brokers acc : list string) :
  fold_left (fun brokers broker =>
               brokers ++ [String.append "tcp://" broker])
            brokers acc
  = acc ++ map tcp brokers.
Proof.
  revert acc. induction brokers as [|b brokers IH]; intros acc; simpl.
  - now rewrite app_nil_r.
  - rewrite IH. now rewrite <- app_assoc.
Qed.

Lemma first_failure_none (steps : list (event * option error))
  (evs : list event) :
  first_failure steps = (evs, None)
  <-> Forall (fun step => snd step = None) steps /\ evs = map fst steps.
Proof.
  revert evs. induction steps as [|[ev [e|]] rest IH]; intros evs; simpl.
  - split.
    + intros H. injection H as <-. now split.
    + now intros [_ ->].
  - split; [discriminate|]. intros [F _]. inversion F. discriminate.
  - destruct (first_failure rest) as [evs' r]. split.
    + intros H. injection H as <- ->.
      destruct (proj1 (IH evs') eq_refl) as [F ->].
      split; [now constructor|reflexivity].
    + intros [F ->]. inversion F as [|? ? _ F']. subst.
      pose proof (proj2 (IH (map fst rest)) (conj F' eq_refl)) as E.
      injection E as -> ->. reflexivity.
Qed.

Lemma first_failure_some (steps : list (event * option error))
  (evs : list event) (e : error) :
  first_failure steps = (evs, Some e) ->
  exists before failing,
    evs = before ++ [failing] /\ In (failing, Some e) steps.
Proof.
  revert evs. induction steps as [|[ev [e'|]] rest IH]; intros evs; simpl.
  - discriminate.
  - intros H. injection H as <- <-. exists [], ev. split; [reflexivity|].
    now left.
  - destruct (first_failure rest) as [evs' r].
    intros H. injection H as <- ->.
    destruct (IH evs' eq_refl) as (before & failing & -> & Hin).
    exists (ev :: before), failing. split; [reflexivity|]. now right.
Qed.

Lemma first_failure_calls (steps : list (event * option error))
  (ev : event) :
  In ev (fst (first_failure steps)) -> In ev (map fst steps).
Proof.
  induction steps as [|[ev' [e|]] rest IH]; simpl.
  - tauto.
  - intros [H|[]]. now left.
  - destruct (first_failure rest) as [evs r]. simpl in *.
    intros [H|H]; [now left | right; now apply IH].
Qed.

(** The whole run of [Init] on a handler [h0]. *)
Lemma Init_run (h0 : handler) :
  call (Init c) {| h := h0; trace := [] |}
  = match first_failure (steps_connect c h0) with
    | (evs1, Some e) =>
        Returned (Some e) {| h := h0; trace := InitStatus :: evs1 |}
    | (evs1, None) =>
        match first_failure (steps_associate c h0) with
        | (evs2, Some e) =>
            Returned (Some e)
              {| h := h0; trace := InitStatus :: evs1 ++ GoForward :: evs2 |}
        | (evs2, None) =>
            Returned None
              {| h := h0;
                 trace := InitStatus :: evs1 ++ GoForward :: evs2
                          ++ [AddServer (ttnBrokerID h0); NewHandlerStreams;
                              GoAssociation; SetStatusHealthy]
                          ++ (if Monitor c
                              then [MonitorHandlerClient; GoStatus]
                              else []) |}
        end
    end.
Proof.
  unfold steps_connect, steps_associate, call, Init, associateBroker,
    attempt, does, bind, when, return_, ret, get.
  cbn -[String.append].
  destruct (UpdateTokenKey_ c); [reflexivity|]. cbn -[String.append].
  destruct (Announce_ c); [reflexivity|]. cbn -[String.append].
  rewrite ?brokers_loop. cbn -[String.append tcp map].
  destruct (mqttEnabled h0); cbn -[String.append tcp map];
    [destruct (HandleMQTT_ c _ _ _); [reflexivity|]|];
    cbn -[String.append tcp map];
    (destruct (amqpEnabled h0); cbn -[String.append tcp map];
     [destruct (HandleAMQP_ c _ _ _ _ _); [reflexivity|]|]);
    cbn -[String.append tcp map];
    (destruct (Discover_ c _ _); [reflexivity|]);
    cbn -[String.append tcp map];
    (destruct (Dial_ c); [reflexivity|]);
    cbn -[String.append tcp map];
    destruct (Monitor c); reflexivity.
Qed.

Lemma steps_never_healthy (h0 : handler) :
  ~ In SetStatusHealthy (map fst (steps c h0)).
Proof.
  unfold steps, steps_connect, steps_associate.
  destruct (mqttEnabled h0), (amqpEnabled h0); simpl;
    intuition discriminate.
Qed.

Lemma steps_MQTT (h0 : handler) (username password : string)
  (brokers : list string) :
  In (HandleMQTT username password brokers) (map fst (steps c h0))
  <-> mqttEnabled h0 = true
      /\ username = mqttUsername h0 /\ password = mqttPassword h0
      /\ brokers = map tcp (mqttBrokers h0).
Proof.
  unfold steps, steps_connect, steps_associate.
  destruct (mqttEnabled h0), (amqpEnabled h0); simpl; split;
    try (intros [E|[E|[E|H]]]; try discriminate E;
         try (injection E as <- <- <-; now repeat split);
         simpl in H; intuition discriminate);
    try (intros (E & _); discriminate E);
    try (intros (_ & -> & -> & ->); tauto).
Qed.

Lemma steps_AMQP (h0 : handler)
  (username password host exchange queue : string) :
  In (HandleAMQP username password host exchange queue)
     (map fst (steps c h0))
  <-> amqpEnabled h0 = true
      /\ username = amqpUsername h0 /\ password = amqpPassword h0
      /\ host = amqpHost h0 /\ exchange = amqpExchange h0
      /\ queue = AMQPDownlinkQueue.
Proof.
  unfold steps, steps_connect, steps_associate.
  destruct (mqttEnabled h0), (amqpEnabled h0); simpl; split;
    try (intros [E|[E|[E|H]]]; try discriminate E;
         try (injection E as <- <- <- <- <-; now repeat split);
         simpl in H; intuition (try discriminate);
         match goal with
         | E : HandleAMQP _ _ _ _ _ = HandleAMQP _ _ _ _ _ |- _ =>
             injection E as <- <- <- <- <-; now repeat split
         end);
    try (intros (E & _); discriminate E);
    try (intros (_ & -> & -> & -> & -> & ->); tauto).
Qed.

Local Opaque steps_connect steps_associate.

(** X26.  [Init] stops at the first step that fails.  It returns no error
    exactly when every step it attempts succeeds (token key, announcement,
    the enabled transports, discovery and dial of the broker); the component
    is set healthy exactly on such a run; and when it returns an error, the
    last call made is the step that failed with that error.  The handler's
    configuration is not changed. *)
Theorem Init_fail_fast (h0 : handler) (e : option error) (w' : world) :
  call (Init c) {| h := h0; trace := [] |} = Returned e w' ->
  h w' = h0
  /\ (e = None <-> Forall (fun step => snd step = None) (steps c h0))
  /\ (In SetStatusHealthy (trace w') <-> e = None)
  /\ (forall err, e = Some err ->
        exists before failing,
          trace w' = before ++ [failing]
          /\ In (failing, Some err) (steps c h0)).
Proof.
  rewrite Init_run. pose proof (steps_never_healthy h0) as Hnever.
  unfold steps in *. rewrite map_app in Hnever.
  destruct (first_failure (steps_connect c h0)) as [evs1 [e1|]] eqn:H1.
  - intros H. injection H as <- <-.
    assert (Hnot : ~ Forall (fun step => snd step = None) (steps_connect c h0)).
    { intros F.
      pose proof (proj2 (first_failure_none _ (map fst (steps_connect c h0)))
                    (conj F eq_refl)) as E.
      congruence. }
    pose proof (first_failure_calls (steps_connect c h0)) as Hsub.
    rewrite H1 in Hsub. simpl in Hsub.
    destruct (first_failure_some _ _ _ H1) as (before & failing & -> & Hin).
    split; [reflexivity|]. split; [|split].
    + split; [discriminate|]. intros F. apply Forall_app in F. tauto.
    + split; [|discriminate]. simpl. intros [E|Hh]; [discriminate E|].
      exfalso. apply Hnever, in_or_app. left. now apply Hsub.
    + intros err E. injection E as <-.
      exists (InitStatus :: before), failing. split; [reflexivity|].
      apply in_or_app. now left.
  - apply first_failure_none in H1 as [F1 ->].
    destruct (first_failure (steps_associate c h0)) as [evs2 [e2|]] eqn:H2.
    + intros H. injection H as <- <-.
      assert (Hnot : ~ Forall (fun step => snd step = None)
                            (steps_associate c h0)).
      { intros F.
        pose proof (proj2 (first_failure_none _
                             (map fst (steps_associate c h0)))
                      (conj F eq_refl)) as E.
        congruence. }
      pose proof (first_failure_calls (steps_associate c h0)) as Hsub.
      rewrite H2 in Hsub. simpl in Hsub.
      destruct (first_failure_some _ _ _ H2) as (before & failing & -> & Hin).
      split; [reflexivity|]. split; [|split].
      * split; [discriminate|]. intros F. apply Forall_app in F. tauto.
      * split; [|discriminate]. cbn [trace]. intros [E|Hh]; [discriminate E|].
        exfalso. apply in_app_or in Hh as [Hh|[E|Hh]]; [| discriminate E |].
        -- apply Hnever, in_or_app. now left.
        -- apply Hnever, in_or_app. right. now apply Hsub.
      * intros err E. injection E as <-.
        exists (InitStatus :: map fst (steps_connect c h0)
                  ++ GoForward :: before), failing.
        split.
        -- cbn [trace]. rewrite <- !app_comm_cons, <- app_assoc. reflexivity.
        -- apply in_or_app. now right.
    + apply first_failure_none in H2 as [F2 ->].
      intros H. injection H as <- <-.
      split; [reflexivity|]. split; [|split].
      * split; [|reflexivity]. intros _. apply Forall_app. now split.
      * split; [reflexivity|]. intros _. cbn [trace]. right.
        apply in_or_app. right. right. apply in_or_app. right.
        simpl. tauto.
      * discriminate.
Qed.

(** Every call of a run of [Init] is one of the fallible steps or one of
    the calls that cannot fail; a run that succeeds made all the steps. *)
Lemma Init_trace (h0 : handler) (e : option error) (w' : world) :
  call (Init c) {| h := h0; trace := [] |} = Returned e w' ->
  (forall ev, In ev (trace w') ->
     In ev (map fst (steps c h0))
     \/ In ev [InitStatus; GoForward; AddServer (ttnBrokerID h0);
               NewHandlerStreams; GoAssociation; SetStatusHealthy;
               MonitorHandlerClient; GoStatus])
  /\ (e = None -> forall ev, In ev (map fst (steps c h0)) -> In ev (trace w')).
Proof.
  rewrite Init_run. unfold steps. rewrite map_app.
  pose proof (first_failure_calls (steps_connect c h0)) as Hsub1.
  pose proof (first_failure_calls (steps_associate c h0)) as Hsub2.
  destruct (first_failure (steps_connect c h0)) as [evs1 [e1|]] eqn:H1.
  - intros H. injection H as <- <-. split; [|discriminate].
    cbn [trace]. intros ev [<-|Hin].
    + right. now left.
    + left. apply in_or_app. left. now apply Hsub1.
  - apply first_failure_none in H1 as [F1 ->]. clear Hsub1.
    destruct (first_failure (steps_associate c h0)) as [evs2 [e2|]] eqn:H2.
    + intros H. injection H as <- <-. split; [|discriminate].
      cbn [trace]. intros ev [<-|Hin]; [right; now left|].
      apply in_app_or in Hin as [Hin|[<-|Hin]].
      * left. apply in_or_app. now left.
      * right. simpl. tauto.
      * left. apply in_or_app. right. now apply Hsub2.
    + apply first_failure_none in H2 as [F2 ->]. clear Hsub2.
      intros H. injection H as <- <-. cbn [trace]. split.
      * intros ev [<-|Hin]; [right; now left|].
        apply in_app_or in Hin as [Hin|[<-|Hin]].
        -- left. apply in_or_app. now left.
        -- right. simpl. tauto.
        -- apply in_app_or in Hin as [Hin|Hin].
           ++ left. apply in_or_app. now right.
           ++ right. destruct (Monitor c); simpl in *; tauto.
      * intros _ ev Hin. right. apply in_app_or in Hin as [Hin|Hin].
        -- apply in_or_app. now left.
        -- apply in_or_app. right. right. apply in_or_app. now left.
Qed.

(** X27.  The transports of a run of [Init].  MQTT is connected only if it
    is enabled, with the configured user and password and with each
    configured broker address prefixed by [tcp://], in the configured order;
    AMQP only if it is enabled, with the configured user, password, host and
    exchange and the queue [AMQPDownlinkQueue].  A run that succeeds has
    connected every enabled transport. *)
Theorem Init_transports (h0 : handler) (e : option error) (w' : world) :
  call (Init c) {| h := h0; trace := [] |} = Returned e w' ->
  (forall username password brokers,
     In (HandleMQTT username password brokers) (trace w') ->
     mqttEnabled h0 = true
     /\ username = mqttUsername h0 /\ password = mqttPassword h0
     /\ brokers = map tcp (mqttBrokers h0))
  /\ (forall username password host exchange queue,
        In (HandleAMQP username password host exchange queue) (trace w') ->
        amqpEnabled h0 = true
        /\ username = amqpUsername h0 /\ password = amqpPassword h0
        /\ host = amqpHost h0 /\ exchange = amqpExchange h0
        /\ queue = AMQPDownlinkQueue)
  /\ (e = None ->
      (mqttEnabled h0 = true ->
       In (HandleMQTT (mqttUsername h0) (mqttPassword h0)
                      (map tcp (mqttBrokers h0))) (trace w'))
      /\ (amqpEnabled h0 = true ->
          In (HandleAMQP (amqpUsername h0) (amqpPassword h0) (amqpHost h0)
                         (amqpExchange h0) AMQPDownlinkQueue) (trace w'))).
Proof.
  intros Hrun. destruct (Init_trace h0 e w' Hrun) as [Hsub Hall].
  split; [|split].
  - intros username password brokers Hin.
    destruct (Hsub _ Hin) as [Hs|Hs].
    + now apply steps_MQTT.
    + simpl in Hs. intuition discriminate.
  - intros username password host exchange queue Hin.
    destruct (Hsub _ Hin) as [Hs|Hs].
    + now apply steps_AMQP.
    + simpl in Hs. intuition discriminate.
  - intros ->. split.
    + intros Hm. apply (Hall eq_refl). apply steps_MQTT. now repeat split.
    + intros Ha. apply (Hall eq_refl). apply steps_AMQP. now repeat split.
Qed.

End HandlerFacts.

(** ** The further properties on sample inputs *)

Section MoreExamples.

Lemma Parse_packet_header_witness :
  Protocol.Parse Protocol.echo_decoder Protocol.push_data_datagram
  = Protocol.Parsed None (Some Protocol.push_data_packet)
  /\ (4 <= List.length Protocol.push_data_datagram)%nat
  /\ Protocol.Version _ Protocol.push_data_packet = x01
  /\ Protocol.Token _ Protocol.push_data_packet
     = firstn 2 (skipn 1 Protocol.push_data_datagram)
  /\ In (Protocol.Identifier _ Protocol.push_data_packet)
        [Protocol.PUSH_DATA; Protocol.PUSH_ACK; Protocol.PULL_DATA;
         Protocol.PULL_RESP; Protocol.PULL_ACK].
Proof.
  assert (H : Protocol.Parse Protocol.echo_decoder Protocol.push_data_datagram
              = Protocol.Parsed None (Some Protocol.push_data_packet))
    by reflexivity.
  split; [exact H|].
  destruct (Parse_packet_header _ _ _ _ _ H)
    as (H1 & _ & H3 & H4 & _ & _ & H7).
  repeat split; assumption.
Defined.

Lemma Parse_rejection_witness :
  Protocol.Parse Protocol.echo_decoder Protocol.bad_version_datagram
  = Protocol.Parsed (Some (ErrOther "Unreckognized protocol version")) None
  /\ (((List.length Protocol.bad_version_datagram < 3)%nat
       /\ Some (ErrOther "Unreckognized protocol version")
          = Some (ErrOther "Invalid raw data format"))
      \/ ((4 <= List.length Protocol.bad_version_datagram)%nat
          /\ nth_error Protocol.bad_version_datagram 0 <> Some x01
          /\ Some (ErrOther "Unreckognized protocol version")
             = Some (ErrOther "Unreckognized protocol version"))
      \/ ((4 <= List.length Protocol.bad_version_datagram)%nat
          /\ nth_error Protocol.bad_version_datagram 0 = Some x01
          /\ (exists identifier,
                nth_error Protocol.bad_version_datagram 3 = Some identifier
                /\ ~ In identifier
                        [Protocol.PUSH_DATA; Protocol.PUSH_ACK;
                         Protocol.PULL_DATA; Protocol.PULL_RESP;
                         Protocol.PULL_ACK])
          /\ Some (ErrOther "Unreckognized protocol version")
             = Some (ErrOther "Unreckognized protocol identifier"))).
Proof.
  assert (H : Protocol.Parse Protocol.echo_decoder
                Protocol.bad_version_datagram
              = Protocol.Parsed
                  (Some (ErrOther "Unreckognized protocol version")) None)
    by reflexivity.
  split; [exact H|].
  exact (Parse_rejection _ Protocol.echo_decoder _ _ H).
Defined.

Lemma Parse_GatewayId_witness :
  Protocol.Parse Protocol.echo_decoder Protocol.pull_data_datagram
  = Protocol.Parsed None (Some Protocol.pull_data_packet)
  /\ (12 <= List.length Protocol.pull_data_datagram)%nat
  /\ Protocol.Identifier _ Protocol.pull_data_packet = Protocol.PULL_DATA
  /\ [x01; x02; x03; x04; x05; x06; x07; x08]
     = firstn 8 (skipn 4 Protocol.pull_data_datagram).
Proof.
  assert (H : Protocol.Parse Protocol.echo_decoder Protocol.pull_data_datagram
              = Protocol.Parsed None (Some Protocol.pull_data_packet))
    by reflexivity.
  split; [exact H|].
  exact (proj1 (proj1 (Parse_GatewayId _ _ _ _ _ H) _) eq_refl).
Defined.


Lemma maxSNR_in_window_witness :
  In (maxSNR [frame_with_SNR 7 S754_nan; frame_with_SNR 6 snr_one])
     (map SNR [frame_with_SNR 7 S754_nan; frame_with_SNR 6 snr_one]).
Proof.
  apply maxSNR_in_window. discriminate.
Defined.

Lemma maxSNR_NaN_witness :
  maxSNR [frame_with_SNR 7 snr_one; frame_with_SNR 6 S754_nan;
          frame_with_SNR 5 snr_two]
  = maxSNR [frame_with_SNR 7 snr_one; frame_with_SNR 5 snr_two]
  /\ is_max_SNR
       (maxSNR [frame_with_SNR 7 snr_one; frame_with_SNR 6 S754_nan;
                frame_with_SNR 5 snr_two])
       [frame_with_SNR 7 snr_one; frame_with_SNR 5 snr_two].
Proof.
  exact (proj2 (maxSNR_NaN (frame_with_SNR 7 snr_one)
                  [frame_with_SNR 6 S754_nan; frame_with_SNR 5 snr_two])
           eq_refl).
Defined.

Lemma lossPercentage_percent_witness :
  List.length wider_window = FramesHistorySize
  /\ 20 <= sentPackets wider_window
  /\ 0 <= lossPercentage (fun _ => 0) wider_window <= 100.
Proof.
  assert (H1 : List.length wider_window = FramesHistorySize) by reflexivity.
  assert (H2 : 20 <= sentPackets wider_window) by (vm_compute; discriminate).
  split; [exact H1|]. split; [exact H2|].
  exact (lossPercentage_percent (fun _ => 0) wider_window H1 H2).
Defined.

Lemma lossPercentage_more_samples_than_counters_witness :
  List.length duplicate_window = FramesHistorySize
  /\ sentPackets duplicate_window = 1
  /\ lossPercentage (fun _ => 0) duplicate_window
     = roundPercent (sentPackets duplicate_window - 20 + 2 ^ 32)
                    (sentPackets duplicate_window)
  /\ 2 ^ 32 < lossPercentage (fun _ => 0) duplicate_window
  /\ nbTransStep (lossPercentage (fun _ => 0) duplicate_window) = 2.
Proof.
  assert (H1 : List.length duplicate_window = FramesHistorySize)
    by reflexivity.
  assert (H2 : sentPackets duplicate_window = 1) by reflexivity.
  split; [exact H1|]. split; [exact H2|].
  apply (lossPercentage_more_samples_than_counters (fun _ => 0)
           duplicate_window H1).
  rewrite H2. lia.
Defined.

Lemma lossPercentage_monotone_witness :
  sentPackets full_window = 20 /\ sentPackets wider_window = 25
  /\ lossPercentage (fun _ => 0) full_window
     <= lossPercentage (fun _ => 0) wider_window.
Proof.
  assert (H1 : sentPackets full_window = 20) by reflexivity.
  assert (H2 : sentPackets wider_window = 25) by reflexivity.
  split; [exact H1|]. split; [exact H2|].
  apply lossPercentage_monotone; try reflexivity.
  rewrite H1, H2. lia.
Defined.

Lemma buildChMask_spec_witness :
  exists chMask,
    buildChMask (UplinkChannels steady_plan) 0 5 (repeat false ChMaskSize)
    = Some chMask
    /\ List.length chMask = ChMaskSize
    /\ forall k,
         nth k chMask false
         = match nth_error (UplinkChannels steady_plan) k with
           | Some ch => allows ch 5
           | None => false
           end.
Proof.
  apply buildChMask_spec. intros k ch Hk _.
  assert (H : (k < List.length (UplinkChannels steady_plan))%nat)
    by (apply nth_error_Some; congruence).
  simpl in H. unfold ChMaskSize. lia.
Defined.

Lemma handleDownlinkADR_outcome_witness :
  handleDownlinkADR (externals_with steady_plan) (server_with full_window)
    no_commands (sample_device (sample_ADR band 15 3))
  = Returned None {| d_message := one_LinkADRReq 2;
                     d_dev := sample_device (sample_ADR band 15 2) |}
  /\ ((one_LinkADRReq 2 = no_commands
       /\ only_defaults steady_plan (sample_ADR band 15 3)
                        (sample_ADR band 15 2))
      \/ (@None error = None
          /\ queued (externals_with steady_plan) steady_plan no_commands
                    {| d_message := one_LinkADRReq 2;
                       d_dev := sample_device (sample_ADR band 15 2) |}
          /\ exists h lookupErr,
               devices_Frames (server_with full_window) 1 2
               = (Some h, lookupErr)
               /\ candidate (externals_with steady_plan) steady_plan
                    (sample_device (sample_ADR band 15 3))
                    (firstn FramesHistorySize (samples h))
                    (sample_ADR band 15 2))).
Proof.
  assert (H : handleDownlinkADR (externals_with steady_plan)
                (server_with full_window) no_commands
                (sample_device (sample_ADR band 15 3))
              = Returned None
                  {| d_message := one_LinkADRReq 2;
                     d_dev := sample_device (sample_ADR band 15 2) |})
    by (vm_compute; reflexivity).
  split; [exact H|].
  exact (handleDownlinkADR_outcome _ _ _ _ _ _ H).
Defined.

Lemma handleDownlinkADR_preserves_witness :
  handleDownlinkADR (externals_with steady_plan) (server_with full_window)
    no_commands (sample_device (sample_ADR band 0 3))
  = Returned None {| d_message := one_LinkADRReq 2;
                     d_dev := sample_device (sample_ADR band 15 2) |}
  /\ SendReq (sample_ADR band 15 2) = SendReq (sample_ADR band 0 3)
  /\ Band (sample_ADR band 15 2) = Band (sample_ADR band 0 3)
  /\ Failed (sample_ADR band 15 2) = Failed (sample_ADR band 0 3)
  /\ (Margin (sample_ADR band 15 2) = Margin (sample_ADR band 0 3)
      \/ (Margin (sample_ADR band 0 3) = 0
          /\ Margin (sample_ADR band 15 2) = DefaultADRMargin)).
Proof.
  assert (H : handleDownlinkADR (externals_with steady_plan)
                (server_with full_window) no_commands
                (sample_device (sample_ADR band 0 3))
              = Returned None
                  {| d_message := one_LinkADRReq 2;
                     d_dev := sample_device (sample_ADR band 15 2) |})
    by (vm_compute; reflexivity).
  split; [exact H|].
  exact (proj2 (proj2 (proj2 (handleDownlinkADR_preserves _ _ _ _ _ _ H)))).
Defined.

Lemma handleDownlinkADR_no_panic_witness :
  devices_Frames (server_with full_window) 1 2
  = (Some (history_of full_window), None)
  /\ handleDownlinkADR (externals_with steady_plan) (server_with full_window)
       no_commands (sample_device (sample_ADR band 15 3))
     <> Panicked.
Proof.
  split; [reflexivity|].
  apply (handleDownlinkADR_no_panic (externals_with steady_plan)
           (server_with full_window) no_commands
           (sample_device (sample_ADR band 15 3))
           (history_of full_window) None eq_refl).
  simpl. unfold ChMaskSize. lia.
Defined.

Lemma handleDownlinkADR_error_source_witness :
  handleDownlinkADR (externals_with steady_plan) unreadable_server
    no_commands (sample_device (sample_ADR band 15 1))
  = Returned (Some (ErrOther "get failed"))
      {| d_message := no_commands;
         d_dev := sample_device (sample_ADR band 15 1) |}
  /\ exists h,
       fst (devices_Frames unreadable_server 1 2) = Some h
       /\ (getFails h = Some (ErrOther "get failed")
           \/ snd (band_Get (externals_with steady_plan) band)
              = Some (ErrOther "get failed")
           \/ (snd (fp_ADRSettings steady_plan "SF7BW125" 14
                      (maxSNR (firstn FramesHistorySize (samples h)))
                      (float32_of_int 15))
               = Some (ErrOther "get failed")
               /\ ErrOther "get failed" <> ErrADRUnavailable)
           \/ snd (GetDataRateIndexFor steady_plan
                     (fst (fst (fp_ADRSettings steady_plan "SF7BW125" 14
                                  (maxSNR (firstn FramesHistorySize
                                                  (samples h)))
                                  (float32_of_int 15)))))
              = Some (ErrOther "get failed")).
Proof.
  assert (H : handleDownlinkADR (externals_with steady_plan)
                unreadable_server no_commands
                (sample_device (sample_ADR band 15 1))
              = Returned (Some (ErrOther "get failed"))
                  {| d_message := no_commands;
                     d_dev := sample_device (sample_ADR band 15 1) |})
    by reflexivity.
  split; [exact H|].
  exact (proj2 (handleDownlinkADR_error_source _ _ _ _ _ _ H)).
Defined.

Lemma handleDownlinkADR_nil_history_panics_witness :
  devices_Frames missing_history 1 2 = (None, Some (ErrOther "not found"))
  /\ handleDownlinkADR (externals_with steady_plan) missing_history
       no_commands (sample_device (sample_ADR band 15 3))
     = Panicked.
Proof.
  split; [reflexivity|].
  apply (handleDownlinkADR_nil_history_panics (externals_with steady_plan)
           missing_history no_commands
           (sample_device (sample_ADR band 15 3))
           (Some (ErrOther "not found"))).
  - reflexivity.
  - vm_compute. discriminate.
  - reflexivity.
Defined.

Lemma handleDownlinkADR_panics_beyond_ChMask_witness :
  past_guards (externals_with wide_plan) (server_with full_window)
    (sample_device (sample_ADR band 15 3)) (history_of full_window) wide_plan
  /\ nth_error (UplinkChannels wide_plan) 16
     = Some {| DataRates := [0; 1; 2; 3; 4; 5] |}
  /\ handleDownlinkADR (externals_with wide_plan) (server_with full_window)
       no_commands (sample_device (sample_ADR band 15 3))
     = Panicked.
Proof.
  assert (Hguards : past_guards (externals_with wide_plan)
                      (server_with full_window)
                      (sample_device (sample_ADR band 15 3))
                      (history_of full_window) wide_plan).
  { unfold past_guards. repeat split; try reflexivity; try discriminate.
    all: vm_compute; try discriminate; repeat constructor. }
  split; [exact Hguards|]. split; [reflexivity|].
  apply (handleDownlinkADR_panics_beyond_ChMask (externals_with wide_plan)
           (server_with full_window) no_commands
           (sample_device (sample_ADR band 15 3)) (history_of full_window)
           wide_plan "SF8BW125" 14 4 16 {| DataRates := [0; 1; 2; 3; 4; 5] |}
           Hguards).
  - reflexivity.
  - reflexivity.
  - discriminate.
  - reflexivity.
  - reflexivity.
  - unfold ChMaskSize. lia.
Defined.

Lemma handleDownlinkADR_window_witness :
  firstn FramesHistorySize longer_history = firstn FramesHistorySize full_window
  /\ longer_history <> full_window
  /\ handleDownlinkADR (externals_with steady_plan)
       (server_with longer_history) no_commands
       (sample_device (sample_ADR band 15 3))
     = handleDownlinkADR (externals_with steady_plan)
         (server_with full_window) no_commands
         (sample_device (sample_ADR band 15 3)).
Proof.
  split; [reflexivity|]. split; [discriminate|].
  apply (handleDownlinkADR_window (externals_with steady_plan)
           (server_with longer_history) (server_with full_window)
           no_commands (sample_device (sample_ADR band 15 3))
           (history_of longer_history) (history_of full_window));
    try reflexivity; vm_compute; repeat constructor.
Defined.

Lemma handleDownlinkADR_settles_witness :
  steady (externals_with steady_plan) (server_with full_window)
    (sample_device (sample_ADR band 15 3)) (history_of full_window)
    steady_plan
  /\ exists s3,
       handleDownlinkADR_times (externals_with steady_plan)
         (server_with full_window) 3
         {| d_message := no_commands;
            d_dev := sample_device (sample_ADR band 15 3) |}
       = Returned None s3
       /\ NbTrans (ADR (d_dev s3))
          = settledNbTrans
              (NbTrans (withDefaults steady_plan (sample_ADR band 15 3)))
              (lossPercentage (fun _ => min_int)
                              (firstn FramesHistorySize full_window))
       /\ handleDownlinkADR (externals_with steady_plan)
            (server_with full_window) (d_message s3) (d_dev s3)
          = Returned None s3.
Proof.
  assert (Hsteady : steady (externals_with steady_plan)
                      (server_with full_window)
                      (sample_device (sample_ADR band 15 3))
                      (history_of full_window) steady_plan).
  { unfold steady, past_guards.
    repeat split; try reflexivity; try discriminate.
    all: vm_compute; try discriminate; repeat constructor. }
  split; [exact Hsteady|].
  exact (handleDownlinkADR_settles (externals_with steady_plan)
           (server_with full_window) no_commands
           (sample_device (sample_ADR band 15 3)) (history_of full_window)
           steady_plan Hsteady).
Defined.

Lemma handleUplinkADR_ADR_enabled_witness :
  exists n',
    handleUplinkADR (externals_with steady_plan) (server_with full_window)
      adr_on_uplink (sample_device (sample_ADR EmptyString 15 2))
    = Returned None
        {| u_n := n';
           u_message := set_response_Ack true adr_on_uplink;
           u_dev := sample_device
                      {| Band := "EU_863_870"; Margin := 15; SendReq := true;
                         DataRate := "SF9BW125"; TxPower := 14; NbTrans := 2;
                         Failed := 0 |} |}.
Proof.
  exact (handleUplinkADR_ADR_enabled (externals_with steady_plan)
           (server_with full_window) adr_on_uplink
           (sample_device (sample_ADR EmptyString 15 2))
           (history_of full_window) eq_refl eq_refl).
Defined.

Lemma handleUplinkADR_push_witness :
  exists s1,
    handleUplinkADR (externals_with steady_plan) (server_with full_window)
      adr_on_uplink (sample_device (sample_ADR band 15 2))
    = Returned None s1
    /\ logged (u_n s1) = []
    /\ exists h',
         devices_Frames (u_n s1) 1 2 = (Some h', None)
         /\ samples h'
            = firstn FramesHistorySize
                (uplinkFrame (externals_with steady_plan) adr_on_uplink
                 :: full_window)
         /\ (List.length (samples h') <= FramesHistorySize)%nat.
Proof.
  destruct (handleUplinkADR_push (externals_with steady_plan)
              (server_with full_window) adr_on_uplink
              (sample_device (sample_ADR band 15 2))
              (history_of full_window) eq_refl eq_refl)
    as (s1 & Hrun & _ & Hok).
  exists s1. split; [exact Hrun|]. exact (Hok eq_refl).
Defined.

Lemma handleUplinkADR_twice_witness :
  exists s1 s2,
    handleUplinkADR (externals_with steady_plan) (server_with full_window)
      adr_on_uplink (sample_device (sample_ADR band 15 2))
    = Returned None s1
    /\ handleUplinkADR (externals_with steady_plan) (u_n s1) (u_message s1)
         (u_dev s1)
       = Returned None s2
    /\ u_dev s2 = u_dev s1 /\ u_message s2 = u_message s1.
Proof.
  exact (handleUplinkADR_twice (externals_with steady_plan)
           (server_with full_window) adr_on_uplink
           (sample_device (sample_ADR band 15 2))
           (history_of full_window) eq_refl eq_refl).
Defined.

Lemma handleUplinkADR_preserves_witness :
  exists s1,
    handleUplinkADR (externals_with steady_plan) (server_with full_window)
      adr_on_uplink (sample_device (sample_ADR band 15 2))
    = Returned None s1
    /\ Margin (ADR (u_dev s1)) = 15 /\ Failed (ADR (u_dev s1)) = 0
    /\ Band (ADR (u_dev s1)) = band
    /\ TxPower (ADR (u_dev s1)) = 14 /\ NbTrans (ADR (u_dev s1)) = 2
    /\ set_response_Ack false (u_message s1) = adr_on_uplink.
Proof.
  pose proof (handleUplinkADR_enabled_run (externals_with steady_plan)
                (server_with full_window) adr_on_uplink
                (sample_device (sample_ADR band 15 2))
                (history_of full_window) eq_refl eq_refl) as H.
  eexists. split; [exact H|].
  destruct (handleUplinkADR_preserves _ _ _ _ _ _ H)
    as (_ & _ & _ & H4 & H5 & H6 & H7 & _ & H9).
  split; [exact H4|]. split; [exact H5|].
  split; [apply H6; discriminate|].
  split; [exact (proj1 (H7 eq_refl))|].
  split; [exact (proj2 (H7 eq_refl)) | exact H9].
Defined.

Lemma handleUplinkADR_off_then_downlink_witness :
  exists s1,
    handleUplinkADR (externals_with steady_plan) (server_with full_window)
      adr_off_uplink (sample_device (sample_ADR band 15 2))
    = Returned None s1
    /\ handleDownlinkADR (externals_with steady_plan)
         (server_with full_window) (one_LinkADRReq 2) (u_dev s1)
       = Returned None {| d_message := one_LinkADRReq 2; d_dev := u_dev s1 |}.
Proof.
  eexists. split.
  - reflexivity.
  - apply (handleUplinkADR_off_then_downlink (externals_with steady_plan)
             (server_with full_window) (server_with full_window)
             adr_off_uplink (sample_device (sample_ADR band 15 2)));
      reflexivity.
Defined.

Lemma Init_fail_fast_witness :
  call (Handler.Init Handler.no_AMQP_component)
       {| Handler.h := Handler.sample_handler; Handler.trace := [] |}
  = Returned (Some (ErrOther "connection refused"))
      {| Handler.h := Handler.sample_handler;
         Handler.trace := Handler.refused_trace |}
  /\ (In Handler.SetStatusHealthy Handler.refused_trace
      <-> Some (ErrOther "connection refused") = None)
  /\ exists before failing,
       Handler.refused_trace = before ++ [failing]
       /\ In (failing, Some (ErrOther "connection refused"))
             (Handler.steps Handler.no_AMQP_component Handler.sample_handler).
Proof.
  assert (H : call (Handler.Init Handler.no_AMQP_component)
                {| Handler.h := Handler.sample_handler; Handler.trace := [] |}
              = Returned (Some (ErrOther "connection refused"))
                  {| Handler.h := Handler.sample_handler;
                     Handler.trace := Handler.refused_trace |})
    by reflexivity.
  split; [exact H|].
  destruct (Init_fail_fast _ _ _ _ H) as (_ & _ & H3 & H4).
  split; [exact H3|]. exact (H4 _ eq_refl).
Defined.

Lemma Init_transports_witness :
  call (Handler.Init Handler.healthy_component)
       {| Handler.h := Handler.sample_handler; Handler.trace := [] |}
  = Returned None
      {| Handler.h := Handler.sample_handler;
         Handler.trace := Handler.healthy_trace |}
  /\ In (Handler.HandleMQTT "user" "secret"
           ["tcp://mqtt-a.local:1883"%string;
            "tcp://mqtt-b.local:1883"%string])
        Handler.healthy_trace
  /\ In (Handler.HandleAMQP "guest" "guest" "amqp.local:5672" "ttn.handler"
           "ttn-handler-downlink")
        Handler.healthy_trace.
Proof.
  assert (H : call (Handler.Init Handler.healthy_component)
                {| Handler.h := Handler.sample_handler; Handler.trace := [] |}
              = Returned None
                  {| Handler.h := Handler.sample_handler;
                     Handler.trace := Handler.healthy_trace |})
    by reflexivity.
  split; [exact H|].
  destruct (Init_transports _ _ _ _ H) as (_ & _ & H3).
  destruct (H3 eq_refl) as [Hm Ha].
  split; [exact (Hm eq_refl) | exact (Ha eq_refl)].
Defined.

End MoreExamples.
